(** * NYC taxi congestion audit: the trip-record pipeline and its aggregations

    A shallow embedding of the DuckDB queries of [phase1_pipeline.py],
    [phase2_analysis.py], [phase2_impact.py] and [phase3_visuals.py].

    Conventions of the embedding.
    - A nullable column is an [option]; [None] is SQL's NULL.
    - A cell of a DOUBLE column is given by the rational it denotes ([Q]);
      DECIMAL values are exact rationals.
    - The classifier of phase 1, the heat maps and the monthly averages are
      evaluated over the rationals: binary rounding is not modelled there,
      and results are compared with [==] on [Q].
    - The fraud categorizer, the fairness aggregation and the percentages
      of the audits are evaluated in IEEE 754 arithmetic, binary64 for
      DOUBLE and binary32 for FLOAT, round to nearest even ([SpecFloat]):
      a cell enters such a computation as the binary64 value of its
      rational ([Double.cell]).
    - A BOOLEAN expression is three-valued ([option bool], Kleene logic); a
      WHERE clause keeps the rows whose condition is TRUE.
    - A TIMESTAMP is a civil date and a microsecond of the day; the bounds
      of the type are not modelled.
    - A table is the list of its rows, a directory the association list of
      its files. *)

From Stdlib Require Import ZArith QArith List String Ascii Bool Lia.
From Stdlib Require Import Sorted Permutation SpecFloat.
Import ListNotations.

Local Open Scope Z_scope.

(** ** SQL values, three-valued logic and evaluation errors *)

Module Sql.

Definition num := option Q.
Definition tri := option bool.

(** What a statement can raise.  DuckDB itself answers NULL to a division
    by zero; here it raises, so that every [Ok] below also says that no
    division by zero was evaluated. *)
Inductive exn := IOException | BinderException | DivisionByZero.

Inductive result (A : Type) : Type :=
| Ok (a : A)
| Raise (e : exn).
Arguments Ok {A} a.
Arguments Raise {A} e.

Definition bind {A B : Type} (m : result A) (k : A -> result B) : result B :=
  match m with
  | Ok a => k a
  | Raise e => Raise e
  end.

Definition is_true (c : tri) : bool :=
  match c with Some true => true | _ => false end.

Definition not3 (a : tri) : tri := option_map negb a.

Definition and3 (a b : tri) : tri :=
  match a, b with
  | Some false, _ | _, Some false => Some false
  | Some true, Some true => Some true
  | _, _ => None
  end.

Definition or3 (a b : tri) : tri :=
  match a, b with
  | Some true, _ | _, Some true => Some true
  | Some false, Some false => Some false
  | _, _ => None
  end.

Definition Qlt_bool (x y : Q) : bool := negb (Qle_bool y x).

Definition lift_cmp (f : Q -> Q -> bool) (a b : num) : tri :=
  match a, b with
  | Some x, Some y => Some (f x y)
  | _, _ => None
  end.

Definition gt3 : num -> num -> tri := lift_cmp (fun x y => Qlt_bool y x).
Definition lt3 : num -> num -> tri := lift_cmp Qlt_bool.
Definition eq3 : num -> num -> tri := lift_cmp Qeq_bool.

Definition lift_op (f : Q -> Q -> Q) (a b : num) : num :=
  match a, b with
  | Some x, Some y => Some (f x y)
  | _, _ => None
  end.

Definition nsub : num -> num -> num := lift_op Qminus.
Definition nmul : num -> num -> num := lift_op Qmult.

Definition ndiv (a b : num) : result num :=
  match a, b with
  | Some x, Some y =>
      if Qeq_bool y 0 then Raise DivisionByZero else Ok (Some (x / y)%Q)
  | _, _ => Ok None
  end.

Definition lit (z : Z) : num := Some (inject_Z z).

(** [x IN (v1, ..., vn)] over a list of non-NULL integers. *)
Definition in_list (x : option Z) (l : list Z) : tri :=
  option_map (fun z => existsb (Z.eqb z) l) x.

Definition coalesce {A : Type} (a b : option A) : option A :=
  match a with Some _ => a | None => b end.

(** Two nullable numbers denote the same SQL value. *)
Definition same (a b : num) : Prop :=
  match a, b with
  | Some x, Some y => (x == y)%Q
  | None, None => True
  | _, _ => False
  end.

(** [WHERE]: the sub-table of the rows whose condition is TRUE; the
    statement raises as soon as one row's condition raises. *)
Fixpoint where_ {A : Type} (c : A -> result tri) (t : list A)
  : result (list A) :=
  match t with
  | [] => Ok []
  | r :: t' =>
      bind (c r) (fun b =>
      bind (where_ c t') (fun keep =>
      Ok (if is_true b then r :: keep else keep)))
  end.

End Sql.

Import Sql.

Notation "x <- m ;; k" := (bind m (fun x => k))
  (at level 61, m at next level, right associativity).

(** ** Timestamps *)

Module Calendar.

Record timestamp := mkTs {
  ts_year : Z;
  ts_month : Z;
  ts_day : Z;
  ts_micros : Z  (* microsecond of the day *)
}.

Definition is_leap (y : Z) : bool :=
  ((y mod 4 =? 0) && negb (y mod 100 =? 0)) || (y mod 400 =? 0).

Definition days_in_month (y m : Z) : Z :=
  if m =? 2 then (if is_leap y then 29 else 28)
  else if (m =? 4) || (m =? 6) || (m =? 9) || (m =? 11) then 30
  else 31.

(** Days since 1970-01-01 of a civil date (proleptic Gregorian). *)
Definition days_from_civil (y m d : Z) : Z :=
  let y' := if m <=? 2 then y - 1 else y in
  let era := y' / 400 in
  let yoe := y' - era * 400 in
  let mp := if m >? 2 then m - 3 else m + 9 in
  let doy := (153 * mp + 2) / 5 + d - 1 in
  let doe := yoe * 365 + yoe / 4 - yoe / 100 + doy in
  era * 146097 + doe - 719468.

Definition micros_per_day : Z := 86400 * 1000000.

Definition epoch_micros (t : timestamp) : Z :=
  days_from_civil (ts_year t) (ts_month t) (ts_day t) * micros_per_day
  + ts_micros t.

(** [date_part('epoch', t)]: seconds since the epoch, as a DOUBLE. *)
Definition epoch (t : option timestamp) : num :=
  option_map (fun t => (epoch_micros t # 1000000)%Q) t.

(** [t + INTERVAL n YEAR]: same month and time of day, [n] years later;
    the day is clamped to the length of the target month. *)
Definition add_years (n : Z) (t : timestamp) : timestamp :=
  let y := ts_year t + n in
  mkTs y (ts_month t) (Z.min (ts_day t) (days_in_month y (ts_month t)))
       (ts_micros t).

(** [MONTH(t)] *)
Definition month_of (t : option timestamp) : option Z :=
  option_map ts_month t.

(** [t >= 'yyyy-mm-dd'], the literal read as midnight of that day. *)
Definition ts_ge (t : option timestamp) (y m d : Z) : tri :=
  option_map (fun t => days_from_civil y m d * micros_per_day <=? epoch_micros t) t.

End Calendar.

Import Calendar.

(** ** Zone membership sets *)

Definition CONGESTION_ZONE_IDS : list Z :=
  [12; 13; 43; 45; 48; 50; 68; 79; 87; 88; 90; 100; 107; 113; 114; 116; 120;
   125; 137; 140; 141; 142; 143; 144; 148; 151; 152; 153; 158; 161; 162; 163;
   164; 166; 170; 186; 209; 211; 224; 229; 230; 231; 232; 233; 234; 236; 237;
   238; 239; 243; 244; 246; 249; 261; 262; 263].

Definition BORDER_ZONES : list Z :=
  [238; 239; 263; 262; 236; 237; 74; 75; 142; 143; 43; 48; 50; 100; 161; 162;
   163; 164; 230].

(** ** The canonical trip record (the columns of the clean and audit files) *)

Record trip := mkTrip {
  pickup_time : option timestamp;
  dropoff_time : option timestamp;
  pickup_loc : option Z;
  dropoff_loc : option Z;
  trip_distance : num;
  fare : num;
  total_amount : num;
  congestion_surcharge : num;
  taxi_type : string
}.

(** A directory of parquet files, by file name. *)
Definition dir (A : Type) := list (string * list A).

Definition write_file {A : Type} (name : string) (rows : list A) (d : dir A)
  : dir A :=
  (name, rows) :: filter (fun f => negb (String.eqb (fst f) name)) d.

(** The rows of all files of a directory. *)
Definition read_all {A : Type} (d : dir A) : list A :=
  List.concat (map snd d).

(** [read_parquet('dir/*.parquet')]: the rows of all files of the
    directory; a pattern that matches no file is an IO error. *)
Definition read_parquet {A : Type} (d : dir A) : result (list A) :=
  match d with
  | [] => Raise IOException
  | _ => Ok (read_all d)
  end.

(** Python's [needle in hay]. *)
Fixpoint contains (needle hay : string) : bool :=
  String.prefix needle hay
  || match hay with
     | EmptyString => false
     | String _ hay' => contains needle hay'
     end.

Definition ends_with (suffix s : string) : bool :=
  let n := String.length s in
  let m := String.length suffix in
  (m <=? n)%nat && String.eqb (String.substring (n - m) m s) suffix.

(** [sorted] on file names. *)
Fixpoint insert_by {A : Type} (le : A -> A -> bool) (x : A) (l : list A)
  : list A :=
  match l with
  | [] => [x]
  | y :: l' => if le x y then x :: l else y :: insert_by le x l'
  end.

Definition sort_by {A : Type} (le : A -> A -> bool) (l : list A) : list A :=
  fold_right (insert_by le) [] l.

(** ** Raw batches *)

(** A row of a raw trip file.  The two dialects differ in the names of the
    timestamp columns only ([tpep_*] in a yellow file, [lpep_*] in a green
    one); [raw_pickup] and [raw_dropoff] hold the file's own pair. *)
Record raw_row := mkRaw {
  raw_pickup : option timestamp;
  raw_dropoff : option timestamp;
  PULocationID : option Z;
  DOLocationID : option Z;
  raw_trip_distance : num;
  fare_amount : num;
  raw_total_amount : num;
  raw_congestion_surcharge : num
}.

Inductive dialect := Yellow | Green.

Definition dialect_eqb (a b : dialect) : bool :=
  match a, b with
  | Yellow, Yellow | Green, Green => true
  | _, _ => false
  end.

(** A file of [raw_data]: unreadable, or a table in one of the dialects. *)
Inductive parquet :=
| Corrupt
| Table (cols : dialect) (rows : list raw_row).

Definition raw_dir := list (string * parquet).

(** ** Phase 1: classification and imputation ([phase1_pipeline.py]) *)

Module Phase1.

Definition taxi_of (filename : string) : string :=
  if contains "yellow" filename then "yellow"%string else "green"%string.

Definition cols_of (filename : string) : dialect :=
  if contains "yellow" filename then Yellow else Green.

(** CTE [raw_data] *)
Definition raw_data (taxi : string) (r : raw_row) : trip :=
  mkTrip (raw_pickup r) (raw_dropoff r) (PULocationID r) (DOLocationID r)
         (raw_trip_distance r) (fare_amount r) (raw_total_amount r)
         (raw_congestion_surcharge r) taxi.

(** CTE [metrics] *)
Definition duration_hrs (t : trip) : result num :=
  ndiv (nsub (epoch (dropoff_time t)) (epoch (pickup_time t))) (lit 3600).

(** CTE [calc]: [CASE WHEN duration_hrs > 0 THEN trip_distance /
    duration_hrs ELSE 0 END] *)
Definition speed_mph (t : trip) : result num :=
  d <- duration_hrs t ;;
  if is_true (gt3 d (lit 0)) then ndiv (trip_distance t) d else Ok (lit 0).

(** CTE [flagged] *)
Record flags := mkFlags {
  is_physics_fail : tri;
  is_teleporter : tri;
  is_stationary : tri
}.

Definition flagged (t : trip) : result flags :=
  d <- duration_hrs t ;;
  s <- speed_mph t ;;
  m <- ndiv (lit 1) (lit 60) ;;
  Ok (mkFlags
        (and3 (gt3 s (lit 65)) (gt3 (trip_distance t) (lit 1)))
        (and3 (lt3 d m) (gt3 (fare t) (lit 20)))
        (and3 (eq3 (trip_distance t) (lit 0)) (gt3 (fare t) (lit 0)))).

(** The values of the three expressions above; that they are their values
    (no division raises) is [Phase1Facts.flagged_total]. *)
Definition duration_val (t : trip) : num :=
  lift_op Qdiv (nsub (epoch (dropoff_time t)) (epoch (pickup_time t)))
          (lit 3600).

Definition speed_val (t : trip) : num :=
  if is_true (gt3 (duration_val t) (lit 0))
  then lift_op Qdiv (trip_distance t) (duration_val t)
  else lit 0.

Definition flags_val (t : trip) : flags :=
  mkFlags
    (and3 (gt3 (speed_val t) (lit 65)) (gt3 (trip_distance t) (lit 1)))
    (and3 (lt3 (duration_val t) (Some (1 / 60)%Q)) (gt3 (fare t) (lit 20)))
    (and3 (eq3 (trip_distance t) (lit 0)) (gt3 (fare t) (lit 0))).

Definition any_flag (f : flags) : tri :=
  or3 (or3 (is_physics_fail f) (is_teleporter f)) (is_stationary f).

Definition clean_logic (f : flags) : tri := not3 (any_flag f).
Definition audit_logic (f : flags) : tri := any_flag f.

(** The query of [process_batch] with [{condition_logic}] replaced. *)
Definition query (logic : flags -> tri) (filename : string) (file : parquet)
  : result (list trip) :=
  match file with
  | Corrupt => Raise IOException
  | Table cols rows =>
      if dialect_eqb cols (cols_of filename)
      then where_ (fun t => f <- flagged t ;; Ok (logic f))
                  (map (raw_data (taxi_of filename)) rows)
      else Raise BinderException
  end.

Record out_dir := mkOut {
  clean_data : dir trip;
  audit_log : dir trip
}.

(** [process_batch]: the two COPY statements in turn; [Some e] is the
    exception the call raises. *)
Definition process_batch (out : out_dir) (filename : string) (file : parquet)
  : out_dir * option exn :=
  match query clean_logic filename file with
  | Raise e => (out, Some e)
  | Ok clean =>
      let out1 := mkOut (write_file filename clean (clean_data out))
                        (audit_log out) in
      match query audit_logic filename file with
      | Raise e => (out1, Some e)
      | Ok audit =>
          (mkOut (clean_data out1)
                 (write_file filename audit (audit_log out1)), None)
      end
  end.

(** [for f in files: self.process_batch(f, os.path.basename(f))]: an
    exception leaves the loop. *)
Fixpoint process_files (files : raw_dir) (out : out_dir)
  : out_dir * option exn :=
  match files with
  | [] => (out, None)
  | f :: rest =>
      match process_batch out (fst f) (snd f) with
      | (out', Some e) => (out', Some e)
      | (out', None) => process_files rest out'
      end
  end.

(** *** Imputation *)

Definition path (input_dir name : string) : string :=
  (input_dir ++ "/" ++ name)%string.

(** A row of [read_parquet(..., union_by_name=True, filename=True)]: the
    timestamp columns the row's file does not have are NULL. *)
Record union_row := mkUnion {
  filename : string;
  tpep_pickup_datetime : option timestamp;
  tpep_dropoff_datetime : option timestamp;
  lpep_pickup_datetime : option timestamp;
  lpep_dropoff_datetime : option timestamp;
  columns : raw_row
}.

Definition file_rows (input_dir : string) (f : string * parquet)
  : result (list union_row) :=
  let name := path input_dir (fst f) in
  match snd f with
  | Corrupt => Raise IOException
  | Table Yellow rows =>
      Ok (map (fun r => mkUnion name (raw_pickup r) (raw_dropoff r) None None r)
              rows)
  | Table Green rows =>
      Ok (map (fun r => mkUnion name None None (raw_pickup r) (raw_dropoff r) r)
              rows)
  end.

Fixpoint read_files (input_dir : string) (files : raw_dir)
  : result (list union_row) :=
  match files with
  | [] => Ok []
  | f :: rest =>
      a <- file_rows input_dir f ;;
      b <- read_files input_dir rest ;;
      Ok (a ++ b)
  end.

Definition has_cols (d : dialect) (files : raw_dir) : bool :=
  existsb (fun f => match snd f with
                    | Table c _ => dialect_eqb c d
                    | Corrupt => false
                    end) files.

Definition le_name (f g : string * parquet) : bool :=
  String.leb (fst f) (fst g).

(** [read_parquet('{input}/*<suffix>', union_by_name=True, filename=True)]
    as the imputation query uses it: the matching files are read in the
    order of their names; no matching file is an error, and so is a union
    that lacks the [tpep_*] or the [lpep_*] columns the query names. *)
Definition read_period (input_dir suffix : string) (raw : raw_dir)
  : result (list union_row) :=
  match sort_by le_name (filter (fun f => ends_with suffix (fst f)) raw) with
  | [] => Raise IOException
  | files =>
      rows <- read_files input_dir files ;;
      if has_cols Yellow files && has_cols Green files
      then Ok rows else Raise BinderException
  end.

(** [USING SAMPLE pct%].  The query names no seed (no REPEATABLE clause):
    the engine's generator decides, and [draw i] is its uniform draw in
    [0, 1) for row [i] (rows sampled as one block share their draw).  A row
    is kept when its draw is below [pct / 100]. *)
Fixpoint using_sample {A : Type} (pct : Q) (draw : nat -> Q) (i : nat)
  (rows : list A) : list A :=
  match rows with
  | [] => []
  | r :: rest =>
      if Qlt_bool (draw i) (pct / 100)
      then r :: using_sample pct draw (S i) rest
      else using_sample pct draw (S i) rest
  end.

(** In the union of the two dialects each row has one pair of timestamp
    columns set: both COALESCEs of the query return the timestamps of the
    row's file ([read_period_own_timestamps]). *)
Definition own_timestamps (u : union_row) : Prop :=
  coalesce (tpep_pickup_datetime u) (lpep_pickup_datetime u)
  = raw_pickup (columns u)
  /\ coalesce (tpep_dropoff_datetime u) (lpep_dropoff_datetime u)
     = raw_dropoff (columns u).

(** One arm of the UNION ALL: the SELECT list, with [INTERVAL n YEAR]. *)
Definition shifted (n : Z) (u : union_row) : trip :=
  let r := columns u in
  mkTrip
    (option_map (add_years n)
       (coalesce (tpep_pickup_datetime u) (lpep_pickup_datetime u)))
    (option_map (add_years n)
       (coalesce (tpep_dropoff_datetime u) (lpep_dropoff_datetime u)))
    (PULocationID r) (DOLocationID r) (raw_trip_distance r) (fare_amount r)
    (raw_total_amount r) (raw_congestion_surcharge r)
    (if contains "yellow" (filename u) then "yellow" else "green")%string.

Definition impute_sql (input_dir : string) (raw : raw_dir)
  (draw23 draw24 : nat -> Q) : result (list trip) :=
  a <- read_period input_dir "_tripdata_2023-12.parquet" raw ;;
  b <- read_period input_dir "_tripdata_2024-12.parquet" raw ;;
  Ok (map (shifted 2) (using_sample 30 draw23 0 a)
      ++ map (shifted 1) (using_sample 70 draw24 0 b)).

(** [impute_december]: the whole body is inside [try ... except
    Exception], which prints the error and goes on. *)
Definition impute_december (input_dir : string) (raw : raw_dir)
  (draw23 draw24 : nat -> Q) (out : out_dir) : out_dir :=
  match impute_sql input_dir raw draw23 draw24 with
  | Ok rows =>
      mkOut (write_file "imputed_dec_2025.parquet" rows (clean_data out))
            (audit_log out)
  | Raise _ => out
  end.

(** *** The driver *)

(** [glob.glob(os.path.join(INPUT_DIR, "*_tripdata_2025-*.parquet"))] on
    the names of the directory. *)
Definition glob_2025 (name : string) : bool :=
  negb (String.prefix "." name)
  && ends_with ".parquet" name
  && contains "_tripdata_2025-"
       (String.substring 0 (String.length name - 8) name).

Definition files_2025 (raw : raw_dir) : raw_dir :=
  sort_by le_name (filter (fun f => glob_2025 (fst f)) raw).

Definition empty_out : out_dir := mkOut [] [].

(** [run]: the output directories are recreated empty, the 2025 batches
    are processed in sorted order, then December is imputed unless a path
    contains "2025-12". *)
Definition run (input_dir : string) (raw : raw_dir)
  (draw23 draw24 : nat -> Q) : out_dir * option exn :=
  let files := files_2025 raw in
  match process_files files empty_out with
  | (out, Some e) => (out, Some e)
  | (out, None) =>
      if existsb (fun f => contains "2025-12" (path input_dir (fst f))) files
      then (out, None)
      else (impute_december input_dir raw draw23 draw24 out, None)
  end.

End Phase1.

(** ** Aggregates *)

Definition non_null {A : Type} (l : list (option A)) : list A :=
  flat_map (fun v => match v with Some x => [x] | None => [] end) l.

Definition Qsum (l : list Q) : Q := fold_right Qplus 0%Q l.
Definition Zsum (l : list Z) : Z := fold_right Z.add 0 l.

(** [AVG(e)]: the mean of the non-NULL values, NULL when there is none. *)
Definition sql_avg (l : list num) : num :=
  match non_null l with
  | [] => None
  | xs => Some (Qsum xs / inject_Z (Z.of_nat (List.length xs)))%Q
  end.

(** [SUM(e)] of an integer expression without NULLs: NULL over no row. *)
Definition sql_sum (l : list Z) : option Z :=
  match l with
  | [] => None
  | _ => Some (Zsum l)
  end.

(** [COUNT( * )] *)
Definition sql_count {A : Type} (l : list A) : Z := Z.of_nat (List.length l).

Definition of_int (z : option Z) : num := option_map inject_Z z.

Fixpoint mapM {A B : Type} (f : A -> result B) (l : list A) : result (list B) :=
  match l with
  | [] => Ok []
  | a :: l' => b <- f a ;; bs <- mapM f l' ;; Ok (b :: bs)
  end.

(** [GROUP BY key] with [COUNT( * )]: one row per distinct key. *)
Fixpoint bump {K : Type} (eqb : K -> K -> bool) (k : K) (g : list (K * Z))
  : list (K * Z) :=
  match g with
  | [] => [(k, 1)]
  | (k', n) :: g' =>
      if eqb k k' then (k', n + 1) :: g' else (k', n) :: bump eqb k g'
  end.

Definition group_count {K : Type} (eqb : K -> K -> bool) (keys : list K)
  : list (K * Z) :=
  fold_right (bump eqb) [] keys.

(** How many of the keys are [k]. *)
Definition occurrences {K : Type} (eqb : K -> K -> bool) (k : K)
  (keys : list K) : Z :=
  Z.of_nat (List.length (filter (eqb k) keys)).

(** The count recorded for [k] in a grouped table, 0 when it has no row. *)
Fixpoint count_of {K : Type} (eqb : K -> K -> bool) (k : K)
  (g : list (K * Z)) : Z :=
  match g with
  | [] => 0
  | (k', n) :: g' => if eqb k k' then n else count_of eqb k g'
  end.

(** ** Binary floating point *)

(** IEEE 754 values and operations, from [SpecFloat]: [prec] bits of
    precision, exponents below [emax], round to nearest even.  A
    comparison with a NaN is false. *)
Module Ieee.

Definition is_zero (x : spec_float) : bool :=
  match x with S754_zero _ => true | _ => false end.

Definition is_nan (x : spec_float) : bool :=
  match x with S754_nan => true | _ => false end.

Definition lift (f : spec_float -> spec_float -> spec_float)
  (a b : option spec_float) : option spec_float :=
  match a, b with
  | Some x, Some y => Some (f x y)
  | _, _ => None
  end.

Definition cmp (f : spec_float -> spec_float -> bool)
  (a b : option spec_float) : tri :=
  match a, b with
  | Some x, Some y => Some (f x y)
  | _, _ => None
  end.

Definition gt : option spec_float -> option spec_float -> tri :=
  cmp (fun x y => SFltb y x).
Definition lt : option spec_float -> option spec_float -> tri := cmp SFltb.
Definition eq : option spec_float -> option spec_float -> tri := cmp SFeqb.

(** The order of [ORDER BY ... DESC]: [x] comes no later than [y].  A NaN
    sorts as the largest value. *)
Definition ge (x y : spec_float) : bool :=
  match SFcompare x y with
  | Some Lt => false
  | Some _ => true
  | None => is_nan x
  end.

Section Format.
Variables prec emax : Z.

(** The cast of an integer. *)
Definition of_Z (z : Z) : spec_float := binary_normalize prec emax z 0 false.

(** The value the format gives to the rational [q]: [q] itself when the
    format represents it (numerator and denominator below [2 ^ prec]),
    its correct rounding otherwise. *)
Definition of_Q (q : Q) : spec_float :=
  SFdiv prec emax (of_Z (Qnum q)) (of_Z (Z.pos (Qden q))).

Definition lit (z : Z) : option spec_float := Some (of_Z z).

Definition sub : option spec_float -> option spec_float -> option spec_float :=
  lift (SFsub prec emax).
Definition mul : option spec_float -> option spec_float -> option spec_float :=
  lift (SFmul prec emax).

(** The quotient of two values. *)
Definition quot : option spec_float -> option spec_float -> option spec_float :=
  lift (SFdiv prec emax).

(** [a / b]: as [ndiv], a zero divisor raises, so that every [Ok] below
    also says that no division by zero was evaluated. *)
Definition div (a b : option spec_float) : result (option spec_float) :=
  match a, b with
  | Some x, Some y =>
      if is_zero y then Raise DivisionByZero
      else Ok (Some (SFdiv prec emax x y))
  | _, _ => Ok None
  end.

End Format.

End Ieee.

(** DOUBLE *)
Module Double.

Definition prec : Z := 53.
Definition emax : Z := 1024.

Definition dbl := option spec_float.

Definition of_Z : Z -> spec_float := Ieee.of_Z prec emax.
Definition of_Q : Q -> spec_float := Ieee.of_Q prec emax.
Definition lit : Z -> dbl := Ieee.lit prec emax.

(** A cell of a DOUBLE column, as the engine reads it. *)
Definition cell (x : num) : dbl := option_map of_Q x.

Definition sub : dbl -> dbl -> dbl := Ieee.sub prec emax.
Definition mul : dbl -> dbl -> dbl := Ieee.mul prec emax.
Definition quot : dbl -> dbl -> dbl := Ieee.quot prec emax.
Definition div : dbl -> dbl -> result dbl := Ieee.div prec emax.

Definition gt : dbl -> dbl -> tri := Ieee.gt.
Definition lt : dbl -> dbl -> tri := Ieee.lt.
Definition eq : dbl -> dbl -> tri := Ieee.eq.

(** [date_part('epoch', t)]: the microseconds since the epoch, cast to
    DOUBLE and divided by a million. *)
Definition epoch (t : option timestamp) : dbl :=
  option_map (fun t => SFdiv prec emax (of_Z (epoch_micros t)) (of_Z 1000000))
             t.



(** [SUM(...) * 100.0 / COUNT( * )] on two integers: the product is an
    exact DECIMAL, the quotient a DOUBLE. *)
Definition pct_of (part : option Z) (total : Z) : result dbl :=
  div (option_map (fun n => of_Z (n * 100)) part) (Some (of_Z total)).

End Double.

(** FLOAT *)
Module Single.

Definition prec : Z := 24.
Definition emax : Z := 128.

Definition of_Z : Z -> spec_float := Ieee.of_Z prec emax.
Definition lit : Z -> option spec_float := Ieee.lit prec emax.
Definition mul : option spec_float -> option spec_float -> option spec_float :=
  Ieee.mul prec emax.
Definition quot : option spec_float -> option spec_float -> option spec_float :=
  Ieee.quot prec emax.
Definition div
  : option spec_float -> option spec_float -> result (option spec_float) :=
  Ieee.div prec emax.

End Single.

(** ** Phase 2: fairness and fraud ([phase2_analysis.py]) *)

Module Phase2Analysis.

(** *** [analyze_fairness] *)

(** [fare > 0] *)
Definition charged (t : trip) : tri :=
  Double.gt (Double.cell (fare t)) (Double.lit 0).

(** [(total_amount - fare - congestion_surcharge) / fare] *)
Definition tip_val (t : trip) : Double.dbl :=
  Double.quot
    (Double.sub (Double.sub (Double.cell (total_amount t)) (Double.cell (fare t)))
                (Double.cell (congestion_surcharge t)))
    (Double.cell (fare t)).

(** [CASE WHEN fare > 0 THEN (total_amount - fare - congestion_surcharge) /
    fare ELSE 0 END] *)
Definition tip_expr (t : trip) : result Double.dbl :=
  if is_true (charged t)
  then Double.div
         (Double.sub
            (Double.sub (Double.cell (total_amount t)) (Double.cell (fare t)))
            (Double.cell (congestion_surcharge t)))
         (Double.cell (fare t))
  else Ok (Double.lit 0).





(** *** [analyze_fraud] *)

(** The speed expression over the rationals: what it denotes before the
    engine rounds. *)
Definition duration (t : trip) : result num :=
  ndiv (nsub (epoch (dropoff_time t)) (epoch (pickup_time t))) (lit 3600).

(** [CASE WHEN duration = 0 THEN 1 ELSE duration END] *)
Definition guarded_duration (t : trip) : result num :=
  d <- duration t ;;
  if is_true (eq3 d (lit 0)) then Ok (lit 1) else duration t.

Definition speed (t : trip) : result num :=
  g <- guarded_duration t ;; ndiv (trip_distance t) g.

(** The values of these expressions ([Phase2Facts.speed_total]). *)
Definition duration_val (t : trip) : num :=
  lift_op Qdiv (nsub (epoch (dropoff_time t)) (epoch (pickup_time t)))
          (lit 3600).

Definition guarded_val (t : trip) : num :=
  if is_true (eq3 (duration_val t) (lit 0)) then lit 1 else duration_val t.

Definition speed_val (t : trip) : num :=
  lift_op Qdiv (trip_distance t) (guarded_val t).

(** The same expression as the engine evaluates it, in binary64:
    [(date_part('epoch', dropoff_time) - date_part('epoch', pickup_time))
    / 3600.0] *)
Definition duration64 (t : trip) : result Double.dbl :=
  Double.div (Double.sub (Double.epoch (dropoff_time t))
                         (Double.epoch (pickup_time t)))
             (Double.lit 3600).

(** [CASE WHEN duration = 0 THEN 1 ELSE duration END] *)
Definition guarded_duration64 (t : trip) : result Double.dbl :=
  d <- duration64 t ;;
  if is_true (Double.eq d (Double.lit 0)) then Ok (Double.lit 1)
  else duration64 t.

(** [trip_distance / (CASE ... END)] *)
Definition speed64 (t : trip) : result Double.dbl :=
  g <- guarded_duration64 t ;; Double.div (Double.cell (trip_distance t)) g.

(** The values of these expressions ([speed64_total]). *)
Definition duration64_val (t : trip) : Double.dbl :=
  Double.quot (Double.sub (Double.epoch (dropoff_time t))
                          (Double.epoch (pickup_time t)))
              (Double.lit 3600).

Definition guarded64_val (t : trip) : Double.dbl :=
  if is_true (Double.eq (duration64_val t) (Double.lit 0)) then Double.lit 1
  else duration64_val t.

Definition speed64_val (t : trip) : Double.dbl :=
  Double.quot (Double.cell (trip_distance t)) (guarded64_val t).

(** [trip_distance = 0 AND congestion_surcharge > 0] *)
Definition stationary_charge (t : trip) : tri :=
  and3 (Double.eq (Double.cell (trip_distance t)) (Double.lit 0))
       (Double.gt (Double.cell (congestion_surcharge t)) (Double.lit 0)).

Definition violation_type (t : trip) : result string :=
  s <- speed64 t ;;
  if is_true (Double.gt s (Double.lit 100)) then Ok "Teleporter (>100mph)"%string
  else if is_true (stationary_charge t) then Ok "Stationary Charge"%string
  else Ok "Other"%string.

(** The WHERE clause. *)
Definition suspicious (t : trip) : result tri :=
  s <- speed64 t ;;
  Ok (or3 (Double.gt s (Double.lit 100)) (stationary_charge t)).

(** The two WHEN tests, on the values of their expressions. *)
Definition teleporter (t : trip) : bool :=
  is_true (Double.gt (speed64_val t) (Double.lit 100)).

Definition stationary (t : trip) : bool :=
  is_true (stationary_charge t).

(** The values of the label and of the filter ([violation_type_total],
    [suspicious_total]). *)
Definition violation_val (t : trip) : string :=
  if teleporter t then "Teleporter (>100mph)"
  else if stationary t then "Stationary Charge"
  else "Other".

Definition suspicious_val (t : trip) : tri :=
  or3 (Double.gt (speed64_val t) (Double.lit 100)) (stationary_charge t).

(** [ORDER BY 2 DESC] *)
Definition by_count_desc {K : Type} (a b : K * Z) : bool := snd b <=? snd a.

Definition analyze_fraud (clean : dir trip) : result (list (string * Z)) :=
  all <- read_parquet clean ;;
  rows <- where_ suspicious all ;;
  labels <- mapM violation_type rows ;;
  Ok (sort_by by_count_desc (group_count String.eqb labels)).

End Phase2Analysis.

(** ** Phase 2: surcharge leakage ([phase2_impact.py]) *)

Module Phase2Impact.

(** The WHERE clause of [eligible_trips]. *)
Definition eligible (t : trip) : tri :=
  and3 (and3 (ts_ge (pickup_time t) 2025 1 5)
             (not3 (in_list (pickup_loc t) CONGESTION_ZONE_IDS)))
       (in_list (dropoff_loc t) CONGESTION_ZONE_IDS).

(** [CASE WHEN congestion_surcharge > 0 THEN 1 ELSE 0 END] *)
Definition compliant (t : trip) : Z :=
  if is_true (gt3 (congestion_surcharge t) (lit 0)) then 1 else 0.

Record leakage := mkLeakage {
  total_eligible_trips : Z;
  compliant_trips : option Z;
  compliance_rate_pct : Double.dbl;
  estimated_revenue_loss : num
}.

(** The eligible records of a directory. *)
Definition eligible_trips (clean : dir trip) : list trip :=
  filter (fun t => is_true (eligible t)) (read_all clean).

(** The first query of [audit_leakage], saved as
    [audit_leakage_stats.csv].  The rate is a DOUBLE, the loss an exact
    DECIMAL. *)
Definition audit_leakage (clean : dir trip) : result leakage :=
  rows <- read_parquet clean ;;
  let trips := filter (fun t => is_true (eligible t)) rows in
  let total := sql_count trips in
  let paid := sql_sum (map compliant trips) in
  rate <- Double.pct_of paid total ;;
  Ok (mkLeakage total paid rate
        (nmul (nsub (lit total) (of_int paid)) (Some (275 # 100)))).

End Phase2Impact.

(** ** Phase 3: border effect ([phase3_visuals.py]) *)

Module Phase3.

Definition zone_eqb (a b : option Z) : bool :=
  match a, b with
  | Some x, Some y => x =? y
  | None, None => true
  | _, _ => false
  end.

(** [read_parquet([...], union_by_name=True)] of a list of named files. *)
Fixpoint read_list (names : list string) (raw : raw_dir)
  : result (list raw_row) :=
  match names with
  | [] => Ok []
  | n :: rest =>
      match find (fun f => String.eqb (fst f) n) raw with
      | Some (_, Table _ rows) =>
          more <- read_list rest raw ;; Ok (rows ++ more)
      | _ => Raise IOException
      end
  end.

Definition q1_2024_files : list string :=
  ["yellow_tripdata_2024-01.parquet"; "yellow_tripdata_2024-02.parquet";
   "yellow_tripdata_2024-03.parquet"; "green_tripdata_2024-01.parquet";
   "green_tripdata_2024-02.parquet"; "green_tripdata_2024-03.parquet"]%string.

(** [q_24]: drop-offs per border zone in the raw Q1 2024 files. *)
Definition q_24 (raw : raw_dir) : result (list (option Z * Z)) :=
  rows <- read_list q1_2024_files raw ;;
  Ok (group_count zone_eqb
        (map DOLocationID
           (filter (fun r => is_true (in_list (DOLocationID r) BORDER_ZONES))
                   rows))).

(** [q_25]: drop-offs per border zone in the clean data, months 1 to 3. *)
Definition q_25 (clean : dir trip) : result (list (option Z * Z)) :=
  rows <- read_parquet clean ;;
  Ok (group_count zone_eqb
        (map dropoff_loc
           (filter (fun t => is_true
                      (and3 (in_list (dropoff_loc t) BORDER_ZONES)
                            (in_list (month_of (pickup_time t)) [1; 2; 3])))
                   rows))).

Record border_row := mkBorder {
  ZoneID : option Z;
  pct_change : option spec_float;
  location_type : string
}.

(** [((count_2025 - count_2024) / count_2024::FLOAT) * 100] on the two
    counts: the cast makes the quotient and the product FLOAT values. *)
Definition pct (count_2024 count_2025 : Z) : option spec_float :=
  Single.mul (Single.quot (Single.lit (count_2025 - count_2024))
                          (Single.lit count_2024))
             (Single.lit 100).

(** The SELECT list over one joined pair. *)
Definition border_of (a b : option Z * Z) : result border_row :=
  q <- Single.div (Single.lit (snd b - snd a)) (Single.lit (snd a)) ;;
  Ok (mkBorder (fst a) (Single.mul q (Single.lit 100))
        (if is_true (in_list (fst a) CONGESTION_ZONE_IDS)
         then "Inside Zone" else "Outside Zone")%string).

(** The row that [border_of] returns when it does not raise
    ([border_of_total]). *)
Definition border_val (p : (option Z * Z) * (option Z * Z)) : border_row :=
  mkBorder (fst (fst p)) (pct (snd (fst p)) (snd (snd p)))
    (if is_true (in_list (fst (fst p)) CONGESTION_ZONE_IDS)
     then "Inside Zone" else "Outside Zone")%string.

(** [=] on zone identifiers: NULL when a side is NULL. *)
Definition zone_eq3 (a b : option Z) : tri :=
  match a, b with
  | Some x, Some y => Some (x =? y)
  | _, _ => None
  end.

(** [t24 JOIN t25 ON t24.ZoneID = t25.ZoneID] *)
Definition join (t24 t25 : list (option Z * Z))
  : list ((option Z * Z) * (option Z * Z)) :=
  flat_map (fun a =>
    map (fun b => (a, b))
        (filter (fun b => is_true (zone_eq3 (fst a) (fst b))) t25))
    t24.

(** [ORDER BY pct_change DESC] *)
Definition by_pct_desc (a b : border_row) : bool :=
  match pct_change a, pct_change b with
  | Some x, Some y => Ieee.ge x y
  | None, _ => false
  | Some _, None => true
  end.

(** The data frame of [plot_border_effect], saved as [border_effect.csv]. *)
Definition border_effect (raw : raw_dir) (clean : dir trip)
  : result (list border_row) :=
  t24 <- q_24 raw ;;
  t25 <- q_25 clean ;;
  rows <- mapM (fun p => border_of (fst p) (snd p)) (join t24 t25) ;;
  Ok (sort_by by_pct_desc rows).

End Phase3.

(** ** Grouped aggregates *)

(** [SUM(e)] of a nullable numeric column: NULLs are skipped, and the sum
    of no value is NULL. *)
Definition sql_sum_num (l : list num) : num :=
  match non_null l with
  | [] => None
  | xs => Some (Qsum xs)
  end.

(** [GROUP BY key]: the distinct keys, each with its rows in table order. *)
Fixpoint add_to_group {K A : Type} (eqb : K -> K -> bool) (k : K) (a : A)
  (g : list (K * list A)) : list (K * list A) :=
  match g with
  | [] => [(k, [a])]
  | (k', l) :: g' =>
      if eqb k k' then (k', a :: l) :: g'
      else (k', l) :: add_to_group eqb k a g'
  end.

Definition group_by {K A : Type} (eqb : K -> K -> bool) (key : A -> K)
  (rows : list A) : list (K * list A) :=
  fold_right (fun a g => add_to_group eqb (key a) a g) [] rows.

(** The rows recorded for [k] in a grouped table, none when it has no
    group. *)
Fixpoint rows_of {K A : Type} (eqb : K -> K -> bool) (k : K)
  (g : list (K * list A)) : list A :=
  match g with
  | [] => []
  | (k', l) :: g' => if eqb k k' then l else rows_of eqb k g'
  end.

(** ** Batches that [process_batch] accepts *)

(** A raw row with both timestamps, the distance and the fare present. *)
Definition populated (r : raw_row) : Prop :=
  raw_pickup r <> None /\ raw_dropoff r <> None
  /\ raw_trip_distance r <> None /\ fare_amount r <> None.

(** A file that can be read and has the timestamp columns its name
    announces. *)
Definition readable (f : string * parquet) : bool :=
  match snd f with
  | Corrupt => false
  | Table cols _ => dialect_eqb cols (Phase1.cols_of (fst f))
  end.

(** A source month the imputation query can read: a yellow and a green
    table among the files of the month, and no unreadable file. *)
Definition complete_month (suffix : string) (raw : raw_dir) : Prop :=
  (exists name rows, In (name, Table Yellow rows) raw
                     /\ ends_with suffix name = true)
  /\ (exists name rows, In (name, Table Green rows) raw
                        /\ ends_with suffix name = true)
  /\ (forall name, In (name, Corrupt) raw -> ends_with suffix name = false).

(** ** Phase 2: revenue and suspicious origins ([phase2_analysis.py]) *)

Module Revenue.

Record revenue := mkRevenue {
  total_revenue : num;
  total_surcharge : num;
  total_rides : Z
}.

(** [analyze_revenue]: SUM(total_amount), SUM(congestion_surcharge) and
    COUNT( * ) over the clean directory. *)
Definition analyze_revenue (clean : dir trip) : revenue :=
  let rows := read_all clean in
  mkRevenue (sql_sum_num (map total_amount rows))
            (sql_sum_num (map congestion_surcharge rows))
            (sql_count rows).

End Revenue.

Module Vendors.

(** [analyze_suspicious_vendors]: the WHERE clause of [analyze_fraud],
    grouped by pickup zone (a NULL zone is a group of its own), the five
    largest counts first. *)
Definition analyze_suspicious_vendors (clean : dir trip)
  : result (list (option Z * Z)) :=
  all <- read_parquet clean ;;
  rows <- where_ Phase2Analysis.suspicious all ;;
  Ok (firstn 5
        (sort_by Phase2Analysis.by_count_desc
           (group_count Phase3.zone_eqb (map pickup_loc rows)))).

End Vendors.

(** ** Phase 2: leaky origins and the quarter comparison ([phase2_impact.py]) *)

Module LeakyOrigins.

(** [CASE WHEN congestion_surcharge IS NULL OR congestion_surcharge = 0
    THEN 1 ELSE 0 END] *)
Definition missed (t : trip) : Z :=
  if is_true (or3 (Some (match congestion_surcharge t with
                         | None => true
                         | Some _ => false
                         end))
                  (eq3 (congestion_surcharge t) (lit 0)))
  then 1 else 0.

Record leaky := mkLeaky {
  origin : option Z;
  total_trips : Z;
  missed_surcharges : option Z;
  leakage_rate_pct : Double.dbl
}.

(** The SELECT list over one group. *)
Definition leaky_row (g : option Z * list trip) : result leaky :=
  let total := sql_count (snd g) in
  let lost := sql_sum (map missed (snd g)) in
  rate <- Double.pct_of lost total ;;
  Ok (mkLeaky (fst g) total lost rate).

(** The row that [leaky_row] returns when it does not raise
    ([leaky_row_total]). *)
Definition leaky_val (g : option Z * list trip) : leaky :=
  mkLeaky (fst g) (sql_count (snd g)) (sql_sum (map missed (snd g)))
          (Double.quot
             (option_map (fun n => Double.of_Z (n * 100))
                         (sql_sum (map missed (snd g))))
             (Some (Double.of_Z (sql_count (snd g))))).

(** [ORDER BY missed_surcharges DESC] *)
Definition by_missed_desc (a b : leaky) : bool :=
  match missed_surcharges a, missed_surcharges b with
  | Some x, Some y => y <=? x
  | None, _ => false
  | Some _, None => true
  end.

(** The second query of [audit_leakage], saved as
    [audit_top3_leakage_locs.csv]: eligible trips grouped by pickup zone,
    HAVING more than 50 trips, the three largest missed counts first. *)
Definition top3_leakage_locs (clean : dir trip) : result (list leaky) :=
  all <- read_parquet clean ;;
  let groups :=
    filter (fun g => 50 <? sql_count (snd g))
           (group_by Phase3.zone_eqb pickup_loc
                     (filter (fun t => is_true (Phase2Impact.eligible t)) all)) in
  rows <- mapM leaky_row groups ;;
  Ok (firstn 3 (sort_by by_missed_desc rows)).

End LeakyOrigins.

Module Q1Decline.

(** [q1_2024_query]: raw drop-offs in the congestion zone, six files. *)
Definition q1_2024 (raw : raw_dir) : result Z :=
  rows <- Phase3.read_list Phase3.q1_2024_files raw ;;
  Ok (sql_count
        (filter (fun r => is_true (in_list (DOLocationID r) CONGESTION_ZONE_IDS))
                rows)).

(** [q1_2025_query]: clean drop-offs in the congestion zone, months 1 to 3. *)
Definition q1_2025 (clean : dir trip) : result Z :=
  rows <- read_parquet clean ;;
  Ok (sql_count
        (filter (fun t => is_true
                   (and3 (in_list (dropoff_loc t) CONGESTION_ZONE_IDS)
                         (in_list (month_of (pickup_time t)) [1; 2; 3])))
                rows)).

(** [((vol_25 - vol_24) / vol_24) * 100] on the two counts.  With a
    baseline of 0 the quotient is not a number (infinite or NaN, with a
    warning and no exception): [None]. *)
Definition drop_pct (vol_24 vol_25 : Z) : option Q :=
  if vol_24 =? 0 then None
  else Some (inject_Z (vol_25 - vol_24) / inject_Z vol_24 * 100)%Q.

Record outcome := mkOutcome {
  csv : option (list (Z * string));  (* impact_q1_comparison.csv, if written *)
  printed : option (option Q)        (* the percentage, if one is printed *)
}.

(** [compare_q1_decline]: the whole body is inside [try ... except
    Exception]; the UNION ALL of the two counts has two rows when both
    reads succeed. *)
Definition compare_q1_decline (raw : raw_dir) (clean : dir trip) : outcome :=
  match (vol_24 <- q1_2024 raw ;; vol_25 <- q1_2025 clean ;;
         Ok (vol_24, vol_25)) with
  | Raise _ => mkOutcome None None
  | Ok (vol_24, vol_25) =>
      mkOutcome (Some [(vol_24, "2024 Q1"); (vol_25, "2025 Q1")]%string)
                (Some (drop_pct vol_24 vol_25))
  end.

(** [phase4_report.py], section 1: ['SUCCESS' if pct < 0 else 'FAILURE
    (Traffic Increased)'] on the same percentage; a comparison with a value
    that is not a number is false. *)
Definition verdict (vol_24 vol_25 : Z) : string :=
  match drop_pct vol_24 vol_25 with
  | Some pct => if Qlt_bool pct 0 then "SUCCESS"
                else "FAILURE (Traffic Increased)"
  | None => "FAILURE (Traffic Increased)"
  end.

End Q1Decline.

(** ** Phase 3: velocity and crowding out ([phase3_visuals.py]) *)

Module Velocity.

(** [isodow(t)]: 1 for Monday to 7 for Sunday. *)
Definition isodow (t : timestamp) : Z :=
  (days_from_civil (ts_year t) (ts_month t) (ts_day t) + 3) mod 7 + 1.

(** [extract(hour from t)] *)
Definition hour_of (t : timestamp) : Z := ts_micros t / 3600000000.

(** Seconds between pickup and dropoff. *)
Definition seconds (t : trip) : num :=
  nsub (epoch (dropoff_time t)) (epoch (pickup_time t)).

(** The WHERE clause of the 2025 query. *)
Definition qualifies (t : trip) : tri :=
  and3 (and3 (and3 (and3 (in_list (pickup_loc t) CONGESTION_ZONE_IDS)
                         (in_list (dropoff_loc t) CONGESTION_ZONE_IDS))
                   (in_list (month_of (pickup_time t)) [1; 2; 3]))
             (gt3 (trip_distance t) (Some (1 # 2)%Q)))
       (gt3 (seconds t) (lit 60)).

(** [trip_distance / seconds * 3600] *)
Definition mph (t : trip) : result num :=
  q <- ndiv (trip_distance t) (seconds t) ;; Ok (nmul q (lit 3600)).

(** The value of [mph] on a qualifying trip ([mph_total]). *)
Definition mph_val (t : trip) : num :=
  nmul (lift_op Qdiv (trip_distance t) (seconds t)) (lit 3600).

Definition cell_of (t : trip) : option Z * option Z :=
  (option_map isodow (pickup_time t), option_map hour_of (pickup_time t)).

Definition cell_eqb (a b : option Z * option Z) : bool :=
  Phase3.zone_eqb (fst a) (fst b) && Phase3.zone_eqb (snd a) (snd b).

Record heat := mkHeat {
  day_num : option Z;
  hour_num : option Z;
  avg_speed : num
}.

(** [q_25]: the average speed per weekday and hour of the clean trips
    inside the zone. *)
Definition q_25 (clean : dir trip) : result (list heat) :=
  all <- read_parquet clean ;;
  mapM (fun g =>
          speeds <- mapM mph (snd g) ;;
          Ok (mkHeat (fst (fst g)) (snd (fst g)) (sql_avg speeds)))
       (group_by cell_eqb cell_of
          (filter (fun t => is_true (qualifies t)) all)).

(** [_save_heatmap_img]: the frame is pivoted on [day_num] and the index
    of the pivot replaced by the seven day names.  pandas refuses a new
    index of another length (ValueError) unless the frame has no column,
    which is the pivot of a frame without rows. *)
Definition saves_heatmap (df : list heat) : bool :=
  match df with
  | [] => true
  | _ =>
      (List.length (nodup (fun a b => Z.eq_dec a b) (non_null (map day_num df)))
       =? 7)%nat
  end.

(** The three yellow files of the 2024 query, which names the [tpep_*]
    columns. *)
Fixpoint read_yellow (names : list string) (raw : raw_dir)
  : result (list raw_row) :=
  match names with
  | [] => Ok []
  | n :: rest =>
      match find (fun f => String.eqb (fst f) n) raw with
      | Some (_, Table Yellow rows) =>
          more <- read_yellow rest raw ;; Ok (rows ++ more)
      | Some (_, Table Green _) => Raise BinderException
      | _ => Raise IOException
      end
  end.

Definition yellow_q1_2024 : list string :=
  ["yellow_tripdata_2024-01.parquet"; "yellow_tripdata_2024-02.parquet";
   "yellow_tripdata_2024-03.parquet"]%string.

(** The WHERE clause of the 2024 query: no month test. *)
Definition qualifies_24 (t : trip) : tri :=
  and3 (and3 (and3 (in_list (pickup_loc t) CONGESTION_ZONE_IDS)
                   (in_list (dropoff_loc t) CONGESTION_ZONE_IDS))
             (gt3 (trip_distance t) (Some (1 # 2)%Q)))
       (gt3 (seconds t) (lit 60)).

Definition heat_of (rows : list trip) : result (list heat) :=
  mapM (fun g =>
          speeds <- mapM mph (snd g) ;;
          Ok (mkHeat (fst (fst g)) (snd (fst g)) (sql_avg speeds)))
       (group_by cell_eqb cell_of rows).

(** [q_24]: the same averages over the raw yellow files. *)
Definition q_24 (raw : raw_dir) : result (list heat) :=
  rows <- read_yellow yellow_q1_2024 raw ;;
  heat_of (filter (fun t => is_true (qualifies_24 t))
                  (map (Phase1.raw_data "yellow") rows)).

(** The row of a group when no speed raises ([heat_of_total]). *)
Definition heat_val (g : (option Z * option Z) * list trip) : heat :=
  mkHeat (fst (fst g)) (snd (fst g)) (sql_avg (map mph_val (snd g))).

(** A trip both queries can measure: picked up at a known time, longer
    than half a mile and than sixty seconds. *)
Definition measurable (t : trip) : Prop :=
  exists p x s,
    pickup_time t = Some p /\ trip_distance t = Some x /\ (1 # 2 < x)%Q
    /\ seconds t = Some s /\ (60 < s)%Q.

(** Trips picked up on each of the seven days of the week. *)
Definition covers_the_week (rows : list trip) : Prop :=
  forall d, 1 <= d <= 7 ->
    exists t p, In t rows /\ pickup_time t = Some p /\ isodow p = d.

Inductive pyexn :=
| Duck (e : exn)
| ValueError.

(** [plot_velocity_heatmaps]: the images saved, in order, and the
    exception that ended the call, if any. *)
Definition plot_velocity_heatmaps (raw : raw_dir) (clean : dir trip)
  : list string * option pyexn :=
  match q_24 raw with
  | Raise e => ([], Some (Duck e))
  | Ok df_24 =>
      if negb (saves_heatmap df_24) then ([], Some ValueError)
      else
        match q_25 clean with
        | Raise e => (["viz_velocity_2024.png"%string], Some (Duck e))
        | Ok df_25 =>
            if saves_heatmap df_25
            then (["viz_velocity_2024.png"; "viz_velocity_2025.png";
                   "viz_velocity_heatmap.png"]%string, None)
            else (["viz_velocity_2024.png"%string], Some ValueError)
        end
  end.

End Velocity.

Module CrowdingOut.

(** [t < 'yyyy-mm-dd'], the literal read as midnight of that day. *)
Definition ts_lt (t : option timestamp) (y m d : Z) : tri :=
  option_map (fun t => epoch_micros t <? days_from_civil y m d * micros_per_day)
             t.

(** The WHERE clause. *)
Definition in_window (t : trip) : tri :=
  and3 (and3 (gt3 (fare t) (lit 0)) (ts_ge (pickup_time t) 2024 1 1))
       (ts_lt (pickup_time t) 2026 1 1).

(** [COALESCE(x, d)] on a number. *)
Definition or_else (x : num) (d : Z) : num := coalesce x (lit d).

(** [CASE WHEN fare > 0 THEN (COALESCE(total_amount, 0) - COALESCE(fare, 0)
    - COALESCE(congestion_surcharge, 0)) / COALESCE(fare, 1) ELSE 0 END] *)
Definition tip_expr (t : trip) : result num :=
  if is_true (gt3 (fare t) (lit 0))
  then ndiv (nsub (nsub (or_else (total_amount t) 0) (or_else (fare t) 0))
                  (or_else (congestion_surcharge t) 0))
            (or_else (fare t) 1)
  else Ok (lit 0).

(** The value of [tip_expr] on a row of the window ([tip_expr_in_window]). *)
Definition tip_val (t : trip) : num :=
  lift_op Qdiv
    (nsub (nsub (or_else (total_amount t) 0) (or_else (fare t) 0))
          (or_else (congestion_surcharge t) 0))
    (or_else (fare t) 1).

(** A timestamp whose fields are in the range of a calendar date. *)
Definition well_formed (p : timestamp) : Prop :=
  1 <= ts_month p <= 12 /\ 1 <= ts_day p <= 31
  /\ 0 <= ts_micros p < micros_per_day.

(** [strftime(date_trunc('month', pickup_time), '%Y-%m')], as the year and
    the month. *)
Definition month_str (t : trip) : option (Z * Z) :=
  option_map (fun p => (ts_year p, ts_month p)) (pickup_time t).

Definition month_eqb (a b : option (Z * Z)) : bool :=
  match a, b with
  | Some (y, m), Some (y', m') => (y =? y') && (m =? m')
  | None, None => true
  | _, _ => false
  end.

(** [ORDER BY 1]: the order of the strings 'YYYY-MM', which for years of
    four digits is the order of the year, then of the month. *)
Definition month_le (a b : option (Z * Z)) : bool :=
  match a, b with
  | Some (y, m), Some (y', m') => (y <? y') || ((y =? y') && (m <=? m'))
  | Some _, None => true
  | None, _ => false
  end.

Record month_row := mkMonth {
  month : option (Z * Z);
  avg_surcharge : num;
  avg_tip_pct : num
}.

(** The row of a group when no tip raises ([crowding_out_total]). *)
Definition month_val (g : option (Z * Z) * list trip) : month_row :=
  mkMonth (fst g)
    (sql_avg (map (fun t => or_else (congestion_surcharge t) 0) (snd g)))
    (nmul (sql_avg (map tip_val (snd g))) (lit 100)).

(** The query of [plot_crowding_out]. *)
Definition crowding_out (clean : dir trip) : result (list month_row) :=
  all <- read_parquet clean ;;
  rows <- mapM (fun g =>
                  tips <- mapM tip_expr (snd g) ;;
                  Ok (mkMonth (fst g)
                        (sql_avg (map (fun t => or_else (congestion_surcharge t) 0)
                                      (snd g)))
                        (nmul (sql_avg tips) (lit 100))))
               (group_by month_eqb month_str
                  (filter (fun t => is_true (in_window t)) all)) ;;
  Ok (sort_by (fun a b => month_le (month a) (month b)) rows).

End CrowdingOut.

(** ** Phase 4: trips and rain ([phase4_rain.py]) *)

Module Rain.

(** [CAST(pickup_time AS DATE)], as the day number since 1970-01-01. *)
Definition date_of (t : trip) : option Z :=
  option_map (fun p => days_from_civil (ts_year p) (ts_month p) (ts_day p))
             (pickup_time t).

(** [ORDER BY 1]: ascending dates, NULL last. *)
Definition date_le (a b : option Z * Z) : bool :=
  match fst a, fst b with
  | Some x, Some y => x <=? y
  | Some _, None => true
  | None, Some _ => false
  | None, None => true
  end.

(** The daily trip counts of the clean directory. *)
Definition df_trips (clean : dir trip) : list (option Z * Z) :=
  sort_by date_le (group_count Phase3.zone_eqb (map date_of (read_all clean))).

(** [pd.date_range(start='2025-01-01', end='2025-12-31')] *)
Definition dates_2025 : list Z :=
  map (fun n => days_from_civil 2025 1 1 + Z.of_nat n) (seq 0 365).

(** [generate_weather_data]: one row per day of 2025.  The amounts come
    from numpy's seeded generator; [prcp] stands for the series it
    yields. *)
Definition df_weather (prcp : Z -> Q) : list (Z * Q) :=
  map (fun d => (d, prcp d)) dates_2025.

Record merged_row := mkMerged {
  date : Z;
  trip_count : Z;
  prcp_mm : Q
}.

(** [pd.merge(df_trips, df_weather, on='date', how='inner')]: the trip rows
    whose date has a weather row, in the order of the trip rows. *)
Definition df_merged (prcp : Z -> Q) (clean : dir trip) : list merged_row :=
  flat_map (fun r =>
              match fst r with
              | Some d =>
                  match find (fun w => fst w =? d) (df_weather prcp) with
                  | Some w => [mkMerged d (snd r) (snd w)]
                  | None => []
                  end
              | None => []
              end)
           (df_trips clean).

End Rain.

(** ** The imputation in the words of the specification *)

Module Spec.





End Spec.

(** ** Sample data used by the concrete statements below *)

Definition at_time (y m d h mi s : Z) : option timestamp :=
  Some (mkTs y m d ((h * 3600 + mi * 60 + s) * 1000000)).

(** Six minutes, no distance, fare NULL. *)
Definition null_fare_row : raw_row :=
  mkRaw (at_time 2025 1 10 8 0 0) (at_time 2025 1 10 8 6 0) (Some 1) (Some 12)
        (Some 0%Q) None (Some 5%Q) None.

(** Picked up and dropped off at the same instant, 70 miles on the meter. *)
Definition zero_duration_trip : trip :=
  mkTrip (at_time 2025 1 10 8 0 0) (at_time 2025 1 10 8 0 0) (Some 1) (Some 12)
         (Some 70%Q) (Some 5%Q) (Some 15%Q) (Some (5 # 2)%Q) "yellow".

(** A half-hour trip and one raw directory holding both dialects of
    December 2023 and of December 2024, and no 2025 batch. *)
Definition december_row (y : Z) : raw_row :=
  mkRaw (at_time y 12 24 18 0 0) (at_time y 12 24 18 30 0) (Some 1) (Some 12)
        (Some 4%Q) (Some 20%Q) (Some 25%Q) (Some (5 # 2)%Q).

Definition raw_decembers : raw_dir :=
  [("yellow_tripdata_2023-12.parquet", Table Yellow [december_row 2023]);
   ("green_tripdata_2023-12.parquet", Table Green [december_row 2023]);
   ("yellow_tripdata_2024-12.parquet", Table Yellow [december_row 2024]);
   ("green_tripdata_2024-12.parquet", Table Green [december_row 2024])]%string.

(** An ordinary 2025 trip: 4 miles in half an hour. *)
Definition january_row : raw_row :=
  mkRaw (at_time 2025 1 10 8 0 0) (at_time 2025 1 10 8 30 0) (Some 1) (Some 12)
        (Some 4%Q) (Some 20%Q) (Some 25%Q) (Some (5 # 2)%Q).

(** Three 2025 batches, the second of which cannot be read. *)
Definition raw_with_corrupt_batch : raw_dir :=
  [("yellow_tripdata_2025-01.parquet", Table Yellow [january_row]);
   ("green_tripdata_2025-02.parquet", Corrupt);
   ("green_tripdata_2025-01.parquet", Table Green [january_row])]%string.

(** The December sources and one batch of January 2025. *)
Definition raw_without_december_2025 : raw_dir :=
  raw_decembers
  ++ [("yellow_tripdata_2025-01.parquet"%string, Table Yellow [january_row])].

(** One mile in thirty seconds (120 mph), fare 5. *)
Definition fast_short_row : raw_row :=
  mkRaw (at_time 2025 2 3 9 0 0) (at_time 2025 2 3 9 0 30) (Some 1) (Some 12)
        (Some 1%Q) (Some 5%Q) (Some 8%Q) (Some (5 # 2)%Q).

(** The yellow December sources only, and one batch of January 2025. *)
Definition raw_without_green_december : raw_dir :=
  [("yellow_tripdata_2023-12.parquet", Table Yellow [december_row 2023]);
   ("yellow_tripdata_2024-12.parquet", Table Yellow [december_row 2024]);
   ("yellow_tripdata_2025-01.parquet", Table Yellow [january_row])]%string.

(** 57 miles in 2052 seconds: 100 mph over the rationals. *)
Definition threshold_trip : trip :=
  mkTrip (at_time 2025 2 3 9 0 0) (at_time 2025 2 3 9 34 12) (Some 1) (Some 12)
         (Some 57%Q) (Some 150%Q) (Some 160%Q) (Some (5 # 2)%Q) "yellow".


(** A clean directory of 100 trips entering the zone after the cutover, 80
    of them with a surcharge of 2.50 and 20 with none. *)
Definition entering_trip (surcharge : num) : trip :=
  mkTrip (at_time 2025 1 10 8 0 0) (at_time 2025 1 10 8 30 0) (Some 1) (Some 12)
         (Some 4%Q) (Some 20%Q) (Some 25%Q) surcharge "yellow".

Definition clean_80_of_100 : dir trip :=
  [("yellow_tripdata_2025-01.parquet"%string,
    repeat (entering_trip (Some (5 # 2)%Q)) 80
    ++ repeat (entering_trip (Some 0%Q)) 20)].

(** A clean directory whose only trip starts inside the zone. *)
Definition clean_without_eligible : dir trip :=
  [("yellow_tripdata_2025-01.parquet"%string,
    [mkTrip (at_time 2025 1 10 8 0 0) (at_time 2025 1 10 8 30 0) (Some 12)
            (Some 13) (Some 4%Q) (Some 20%Q) (Some 25%Q) (Some (5 # 2)%Q)
            "yellow"])].

(** One mile in half an hour into the zone, at no fare. *)
Definition free_short_row : raw_row :=
  mkRaw (at_time 2025 1 10 9 0 0) (at_time 2025 1 10 9 30 0) (Some 1) (Some 12)
        (Some 1%Q) (Some 0%Q) (Some 0%Q) (Some 0%Q).

(** Drop-offs in three border zones in the first quarter of 2024 (74, 75,
    142) and in three in the first quarter of 2025 (75, 142, 143). *)
Definition dropoff_2024 (zone : Z) : raw_row :=
  mkRaw (at_time 2024 2 1 8 0 0) (at_time 2024 2 1 8 30 0) (Some 1) (Some zone)
        (Some 4%Q) (Some 20%Q) (Some 25%Q) (Some 0%Q).

Definition dropoff_2025 (zone : Z) : trip :=
  mkTrip (at_time 2025 2 1 8 0 0) (at_time 2025 2 1 8 30 0) (Some 1) (Some zone)
         (Some 4%Q) (Some 20%Q) (Some 25%Q) (Some (5 # 2)%Q) "yellow".

Definition raw_q1_2024 : raw_dir :=
  [("yellow_tripdata_2024-01.parquet",
    Table Yellow [dropoff_2024 74; dropoff_2024 75; dropoff_2024 75]);
   ("yellow_tripdata_2024-02.parquet", Table Yellow [dropoff_2024 142]);
   ("yellow_tripdata_2024-03.parquet", Table Yellow []);
   ("green_tripdata_2024-01.parquet", Table Green []);
   ("green_tripdata_2024-02.parquet", Table Green []);
   ("green_tripdata_2024-03.parquet", Table Green [])]%string.

Definition clean_q1_2025 : dir trip :=
  [("yellow_tripdata_2025-02.parquet"%string,
    [dropoff_2025 75; dropoff_2025 142; dropoff_2025 142; dropoff_2025 142;
     dropoff_2025 143])].

(** A December 2023 trip that the classifier would send to the audit file:
    ten minutes, no distance, fare 9. *)
Definition stationary_december_row : raw_row :=
  mkRaw (at_time 2023 12 24 18 0 0) (at_time 2023 12 24 18 10 0) (Some 1)
        (Some 12) (Some 0%Q) (Some 9%Q) (Some 9%Q) (Some 0%Q).

(** * Properties *)

(** ** Arithmetic and three-valued logic *)

Lemma Qlt_bool_iff (x y : Q) : Qlt_bool x y = true <-> (x < y)%Q.
Proof.
  unfold Qlt_bool. rewrite negb_true_iff.
  split; intro H.
  - apply Qnot_le_lt. intro L. apply Qle_bool_iff in L. congruence.
  - destruct (Qle_bool y x) eqn:E; [|reflexivity].
    apply Qle_bool_iff in E. exfalso. exact (Qlt_not_le _ _ H E).
Qed.

Lemma Qlt_bool_false_iff (x y : Q) : Qlt_bool x y = false <-> (y <= x)%Q.
Proof.
  unfold Qlt_bool. rewrite negb_false_iff. apply Qle_bool_iff.
Qed.

Lemma Qeq_bool_false_neq (x y : Q) : Qeq_bool x y = false -> ~ (x == y)%Q.
Proof.
  intros E H. apply Qeq_bool_iff in H. congruence.
Qed.

Lemma ndiv_nonzero (a : num) (y : Q) :
  Qeq_bool y 0 = false -> ndiv a (Some y) = Ok (lift_op Qdiv a (Some y)).
Proof.
  intro E. destruct a as [x|]; simpl; [rewrite E|]; reflexivity.
Qed.

Lemma ndiv_null (a : num) : ndiv a None = Ok None.
Proof. destruct a; reflexivity. Qed.

Lemma gt3_true_nonzero (d : num) :
  is_true (gt3 d (lit 0)) = true -> exists y, d = Some y /\ Qeq_bool y 0 = false.
Proof.
  destruct d as [y|]; simpl; [|discriminate].
  destruct (Qlt_bool (inject_Z 0) y) eqn:E; [|discriminate].
  intros _. exists y. split; [reflexivity|].
  apply Qlt_bool_iff in E.
  destruct (Qeq_bool y 0) eqn:Z0; [|reflexivity].
  apply Qeq_bool_iff in Z0. rewrite Z0 in E. exfalso. exact (Qlt_irrefl _ E).
Qed.

(** ** Queries whose row expressions never raise *)

Lemma where_total {A : Type} (c : A -> result tri) (c' : A -> tri) (t : list A) :
  (forall r, c r = Ok (c' r)) ->
  where_ c t = Ok (filter (fun r => is_true (c' r)) t).
Proof.
  intro H. induction t as [|r t IH]; simpl; [reflexivity|].
  rewrite H, IH. simpl. reflexivity.
Qed.

Lemma mapM_total {A B : Type} (f : A -> result B) (f' : A -> B) (l : list A) :
  (forall a, f a = Ok (f' a)) -> mapM f l = Ok (map f' l).
Proof.
  intro H. induction l as [|a l IH]; simpl; [reflexivity|].
  rewrite H, IH. reflexivity.
Qed.

Lemma mapM_total_on {A B : Type} (f : A -> result B) (f' : A -> B) (l : list A) :
  (forall a, In a l -> f a = Ok (f' a)) -> mapM f l = Ok (map f' l).
Proof.
  induction l as [|a l IH]; simpl; intro H; [reflexivity|].
  rewrite (H a (or_introl Logic.eq_refl)), IH; [reflexivity|].
  intros b Hb. apply H. right. exact Hb.
Qed.

(** ** The classifier *)

Module Phase1Facts.
Import Phase1.

Lemma duration_hrs_total (t : trip) : duration_hrs t = Ok (duration_val t).
Proof. unfold duration_hrs, lit. apply ndiv_nonzero. reflexivity. Qed.

Lemma speed_mph_total (t : trip) : speed_mph t = Ok (speed_val t).
Proof.
  unfold speed_mph, speed_val. rewrite duration_hrs_total. simpl.
  destruct (is_true (gt3 (duration_val t) (lit 0))) eqn:G; [|reflexivity].
  destruct (gt3_true_nonzero _ G) as [y [-> Hy]].
  apply ndiv_nonzero. exact Hy.
Qed.

Lemma flagged_total (t : trip) : flagged t = Ok (flags_val t).
Proof.
  unfold flagged. rewrite duration_hrs_total, speed_mph_total. reflexivity.
Qed.

(** A readable batch of the expected dialect is split by two filters. *)
Lemma query_total (logic : flags -> tri) (name : string) (rows : list raw_row) :
  query logic name (Table (cols_of name) rows)
  = Ok (filter (fun t => is_true (logic (flags_val t)))
               (map (raw_data (taxi_of name)) rows)).
Proof.
  unfold query.
  replace (dialect_eqb (cols_of name) (cols_of name)) with true
    by (destruct (cols_of name); reflexivity).
  apply where_total. intro r. rewrite flagged_total. reflexivity.
Qed.

(** What [process_batch] writes for such a batch: nothing is raised, and
    the two files are the two filters of the same rows. *)
Lemma process_batch_readable (out : out_dir) (name : string)
  (rows : list raw_row) :
  process_batch out name (Table (cols_of name) rows)
  = (mkOut
       (write_file name
          (filter (fun t => is_true (clean_logic (flags_val t)))
                  (map (raw_data (taxi_of name)) rows))
          (clean_data out))
       (write_file name
          (filter (fun t => is_true (audit_logic (flags_val t)))
                  (map (raw_data (taxi_of name)) rows))
          (audit_log out)),
     None).
Proof. unfold process_batch. rewrite !query_total. reflexivity. Qed.

(** Never both: no record passes the clean and the audit filter. *)
Lemma never_both (f : flags) :
  is_true (clean_logic f) && is_true (audit_logic f) = false.
Proof.
  unfold clean_logic, audit_logic.
  destruct (any_flag f) as [[|]|]; reflexivity.
Qed.

(** Exactly one, as long as the disjunction of the flags is not NULL. *)
Lemma exactly_one_when_decided (f : flags) (b : bool) :
  any_flag f = Some b ->
  is_true (clean_logic f) = negb b /\ is_true (audit_logic f) = b.
Proof.
  unfold clean_logic, audit_logic. intros ->. destruct b; split; reflexivity.
Qed.

(** Neither, when it is NULL. *)
Lemma neither_when_null (f : flags) :
  any_flag f = None ->
  is_true (clean_logic f) = false /\ is_true (audit_logic f) = false.
Proof.
  unfold clean_logic, audit_logic. intros ->. split; reflexivity.
Qed.

End Phase1Facts.

(** C1 (the code departs from the claim): a record whose fare is NULL and
    whose distance is 0 makes [is_stationary] NULL, hence the disjunction of
    the flags NULL; [process_batch] then writes it neither to the clean file
    nor to the audit file: both outputs of the one-row batch are empty. *)
Theorem C1_null_flag_row_is_in_neither_output :
  Phase1.process_batch Phase1.empty_out "yellow_tripdata_2025-01.parquet"
    (Table Yellow [null_fare_row])
  = (Phase1.mkOut [("yellow_tripdata_2025-01.parquet"%string, [])]
                  [("yellow_tripdata_2025-01.parquet"%string, [])],
     None).
Proof. vm_compute. reflexivity. Qed.

(** ** The fraud categorizer's speed *)

Module Phase2Facts.
Import Phase2Analysis.

Lemma duration_total (t : trip) : duration t = Ok (duration_val t).
Proof. unfold duration, lit. apply ndiv_nonzero. reflexivity. Qed.

Lemma guarded_duration_total (t : trip) :
  guarded_duration t = Ok (guarded_val t).
Proof.
  unfold guarded_duration, guarded_val. rewrite duration_total. simpl.
  destruct (is_true (eq3 (duration_val t) (lit 0))); reflexivity.
Qed.

(** The divisor of the speed is NULL or a non-zero number. *)
Lemma guarded_val_nonzero (t : trip) (y : Q) :
  guarded_val t = Some y -> Qeq_bool y 0 = false.
Proof.
  unfold guarded_val.
  destruct (duration_val t) as [q|] eqn:D; simpl.
  - destruct (Qeq_bool q (inject_Z 0)) eqn:E; simpl; intro H;
      injection H as <-; [reflexivity | exact E].
  - discriminate.
Qed.

Lemma speed_total (t : trip) : speed t = Ok (speed_val t).
Proof.
  unfold speed, speed_val. rewrite guarded_duration_total. simpl.
  destruct (guarded_val t) as [y|] eqn:G.
  - apply ndiv_nonzero. exact (guarded_val_nonzero t y G).
  - rewrite ndiv_null. destruct (trip_distance t); reflexivity.
Qed.

End Phase2Facts.

(** A duration of exactly zero, as the queries compute it. *)
Lemma zero_duration_value (t : trip) (p d : timestamp) :
  pickup_time t = Some p -> dropoff_time t = Some d ->
  epoch_micros d = epoch_micros p ->
  exists q, Phase1.duration_val t = Some q /\ (q == 0)%Q.
Proof.
  intros Hp Hd E. unfold Phase1.duration_val. rewrite Hp, Hd.
  unfold epoch, nsub, lift_op, lit, option_map. rewrite E.
  eexists. split; [reflexivity|].
  unfold Qminus, Qdiv. rewrite Qplus_opp_r. apply Qmult_0_l.
Qed.

(** C2 (counterexample): the classifier does not use a one-hour floor.  On
    a zero-duration trip of 70 miles its speed is 0, not 70. *)
Lemma C2_classifier_speed_is_not_the_distance :
  pickup_time zero_duration_trip = dropoff_time zero_duration_trip
  /\ trip_distance zero_duration_trip = Some 70%Q
  /\ Phase1.speed_mph zero_duration_trip = Ok (Some 0%Q)
  /\ ~ (exists v, Phase1.speed_mph zero_duration_trip = Ok v
                  /\ same v (trip_distance zero_duration_trip)).
Proof.
  repeat split.
  intros [v [H S]]. vm_compute in H. injection H as <-.
  vm_compute in S. discriminate S.
Qed.

(** C2 (amended): on a trip whose duration is exactly zero, the classifier's
    speed is 0 (its CASE takes the ELSE branch), the fraud categorizer's
    speed is the trip distance (its divisor is replaced by 1 hour), and
    neither evaluation raises a division error. *)
Theorem C2_zero_duration_speed (t : trip) (p d : timestamp) :
  pickup_time t = Some p -> dropoff_time t = Some d ->
  epoch_micros d = epoch_micros p ->
  Phase1.speed_mph t = Ok (lit 0)
  /\ exists v, Phase2Analysis.speed t = Ok v /\ same v (trip_distance t).
Proof.
  intros Hp Hd E.
  destruct (zero_duration_value t p d Hp Hd E) as [q [Dq Zq]].
  split.
  - rewrite Phase1Facts.speed_mph_total. unfold Phase1.speed_val.
    rewrite Dq. simpl.
    replace (Qlt_bool (inject_Z 0) q) with false; [reflexivity|].
    symmetry. apply Qlt_bool_false_iff. rewrite Zq. apply Qle_refl.
  - rewrite Phase2Facts.speed_total. eexists. split; [reflexivity|].
    unfold Phase2Analysis.speed_val, Phase2Analysis.guarded_val.
    change (Phase2Analysis.duration_val t) with (Phase1.duration_val t).
    rewrite Dq. simpl.
    replace (Qeq_bool q (inject_Z 0)) with true
      by (symmetry; apply Qeq_bool_iff; exact Zq).
    simpl. destruct (trip_distance t) as [x|]; simpl; [|exact I].
    unfold Qdiv. change (/ inject_Z 1)%Q with 1%Q. apply Qmult_1_r.
Qed.

Lemma C2_zero_duration_speed_witness :
  Phase1.speed_mph zero_duration_trip = Ok (lit 0)
  /\ exists v, Phase2Analysis.speed zero_duration_trip = Ok v
               /\ same v (trip_distance zero_duration_trip).
Proof.
  apply (C2_zero_duration_speed zero_duration_trip
           (mkTs 2025 1 10 28800000000) (mkTs 2025 1 10 28800000000));
    reflexivity.
Defined.

(** ** Imputation: what the output depends on *)

Lemma using_sample_ext {A : Type} (pct : Q) (d d' : nat -> Q) (rows : list A) :
  (forall i, Qlt_bool (d i) (pct / 100) = Qlt_bool (d' i) (pct / 100)) ->
  forall i, Phase1.using_sample pct d i rows = Phase1.using_sample pct d' i rows.
Proof.
  intro H. induction rows as [|r rows IH]; intro i; simpl; [reflexivity|].
  rewrite (H i), (IH (S i)). reflexivity.
Qed.

(** C3 (counterexample): the query gives the sampler no seed, so the output
    follows the engine's draws.  Over the same raw directory, a run whose
    draws are all 0 keeps the four source rows and a run whose draws are all
    1/2 keeps the two rows of 2024 only: the record counts differ. *)
Lemma C3_two_runs_over_the_same_sources_differ :
  let run1 := Phase1.impute_december "raw_data" raw_decembers
                (fun _ => 0%Q) (fun _ => 0%Q) Phase1.empty_out in
  let run2 := Phase1.impute_december "raw_data" raw_decembers
                (fun _ => (1 # 2)%Q) (fun _ => (1 # 2)%Q) Phase1.empty_out in
  List.length (read_all (Phase1.clean_data run1)) = 4%nat
  /\ List.length (read_all (Phase1.clean_data run2)) = 2%nat
  /\ run1 <> run2.
Proof.
  repeat split. intro H.
  apply (f_equal (fun o => List.length (read_all (Phase1.clean_data o)))) in H.
  vm_compute in H. discriminate H.
Qed.

(** C3 (amended): the synthesized file depends on the engine's draws only
    through the keep-or-drop decision taken for each row.  Two runs over
    the same raw directory whose decisions agree row by row (30% threshold
    for 2023-12, 70% for 2024-12) write the same records, in the same
    number. *)
Theorem C3_same_decisions_same_output
  (input_dir : string) (raw : raw_dir) (d23 d23' d24 d24' : nat -> Q)
  (out : Phase1.out_dir) :
  (forall i, Qlt_bool (d23 i) (30 / 100) = Qlt_bool (d23' i) (30 / 100)) ->
  (forall i, Qlt_bool (d24 i) (70 / 100) = Qlt_bool (d24' i) (70 / 100)) ->
  Phase1.impute_december input_dir raw d23 d24 out
  = Phase1.impute_december input_dir raw d23' d24' out.
Proof.
  intros H23 H24. unfold Phase1.impute_december, Phase1.impute_sql.
  destruct (Phase1.read_period input_dir _ raw) as [a|e]; simpl; [|reflexivity].
  destruct (Phase1.read_period input_dir _ raw) as [b|e]; simpl; [|reflexivity].
  rewrite (using_sample_ext 30 d23 d23' a H23 0).
  rewrite (using_sample_ext 70 d24 d24' b H24 0).
  reflexivity.
Qed.

Lemma C3_same_decisions_same_output_witness :
  Phase1.impute_december "raw_data" raw_decembers
    (fun _ => 0%Q) (fun _ => 0%Q) Phase1.empty_out
  = Phase1.impute_december "raw_data" raw_decembers
      (fun _ => (1 # 10)%Q) (fun _ => (1 # 2)%Q) Phase1.empty_out.
Proof.
  apply (C3_same_decisions_same_output "raw_data" raw_decembers
           (fun _ => 0%Q) (fun _ => (1 # 10)%Q) (fun _ => 0%Q)
           (fun _ => (1 # 2)%Q) Phase1.empty_out);
    intro i; reflexivity.
Defined.

(** ** The batch loop *)

Lemma process_files_app (pre rest : raw_dir) (o out : Phase1.out_dir) :
  Phase1.process_files pre o = (out, None) ->
  Phase1.process_files (pre ++ rest) o = Phase1.process_files rest out.
Proof.
  revert o. induction pre as [|f pre IH]; intros o H; simpl in *.
  - injection H as ->. reflexivity.
  - destruct (Phase1.process_batch o (fst f) (snd f)) as [o' [e|]].
    + discriminate H.
    + apply IH. exact H.
Qed.

(** A batch that raises has written nothing: its clean query is the one
    that raised, on an unreadable file or on a file of the other dialect. *)
Lemma failing_batch_writes_nothing
  (out out' : Phase1.out_dir) (name : string) (file : parquet) (e : exn) :
  Phase1.process_batch out name file = (out', Some e) ->
  out' = out
  /\ ((file = Corrupt /\ e = IOException)
      \/ (exists cols rows, file = Table cols rows
                            /\ cols <> Phase1.cols_of name
                            /\ e = BinderException)).
Proof.
  unfold Phase1.process_batch. destruct file as [|cols rows].
  - simpl. intro H. injection H as <- <-. split; [reflexivity|]. left. split; reflexivity.
  - destruct (dialect_eqb cols (Phase1.cols_of name)) eqn:D.
    + assert (cols = Phase1.cols_of name) as ->
        by (destruct cols, (Phase1.cols_of name); (reflexivity || discriminate D)).
      rewrite !Phase1Facts.query_total. discriminate.
    + unfold Phase1.query. rewrite D. intro H. injection H as <- <-.
      split; [reflexivity|]. right. exists cols, rows.
      repeat split. intros ->.
      destruct (Phase1.cols_of name); discriminate D.
Qed.

(** C5 (counterexample): of three 2025 batches the second in sorted order is
    unreadable.  [run] raises its IOException: the first batch has been
    written, the third, readable, has not been processed. *)
Lemma C5_unreadable_batch_aborts_the_others :
  Phase1.files_2025 raw_with_corrupt_batch
  = [("green_tripdata_2025-01.parquet", Table Green [january_row]);
     ("green_tripdata_2025-02.parquet", Corrupt);
     ("yellow_tripdata_2025-01.parquet", Table Yellow [january_row])]%string
  /\ (exists out,
        Phase1.run "raw_data" raw_with_corrupt_batch (fun _ => 0%Q) (fun _ => 0%Q)
        = (out, Some IOException)
        /\ map fst (Phase1.clean_data out) = ["green_tripdata_2025-01.parquet"%string]
        /\ map fst (Phase1.audit_log out) = ["green_tripdata_2025-01.parquet"%string])
  /\ (exists out,
        Phase1.process_batch Phase1.empty_out "yellow_tripdata_2025-01.parquet"
          (Table Yellow [january_row]) = (out, None)).
Proof.
  split; [vm_compute; reflexivity|].
  split; eexists; [split; [vm_compute; reflexivity|split; reflexivity]|].
  vm_compute. reflexivity.
Qed.

(** C5 (amended): [run] has no handler around [process_batch].  When a batch
    raises, the exception leaves [run] at once: the batches sorted before
    it have been written, the failing batch has written nothing, and
    neither the batches sorted after it nor the imputation are run, so the
    result does not depend on them. *)
Theorem C5_failing_batch_ends_the_run
  (input_dir : string) (raw : raw_dir) (d23 d24 : nat -> Q)
  (pre post : raw_dir) (f : string * parquet)
  (out out' : Phase1.out_dir) (e : exn) :
  Phase1.files_2025 raw = pre ++ f :: post ->
  Phase1.process_files pre Phase1.empty_out = (out, None) ->
  Phase1.process_batch out (fst f) (snd f) = (out', Some e) ->
  Phase1.run input_dir raw d23 d24 = (out, Some e).
Proof.
  intros Hfiles Hpre Hf.
  destruct (failing_batch_writes_nothing _ _ _ _ _ Hf) as [-> _].
  unfold Phase1.run. rewrite Hfiles.
  rewrite (process_files_app pre (f :: post) _ out Hpre).
  simpl. rewrite Hf. reflexivity.
Qed.

Lemma C5_failing_batch_ends_the_run_witness :
  exists out,
    Phase1.run "raw_data" raw_with_corrupt_batch (fun _ => 0%Q) (fun _ => 0%Q)
    = (out, Some IOException).
Proof.
  eexists.
  eapply (C5_failing_batch_ends_the_run "raw_data" raw_with_corrupt_batch
           (fun _ => 0%Q) (fun _ => 0%Q)
           [("green_tripdata_2025-01.parquet"%string, Table Green [january_row])]
           [("yellow_tripdata_2025-01.parquet"%string, Table Yellow [january_row])]
           ("green_tripdata_2025-02.parquet"%string, Corrupt)).
  - vm_compute. reflexivity.
  - vm_compute. reflexivity.
  - vm_compute. reflexivity.
Defined.

(** ** The imputation query *)


Lemma existsb_false_iff {A : Type} (p : A -> bool) (l : list A) :
  existsb p l = false <-> forall x, In x l -> p x = false.
Proof.
  induction l as [|a l IH]; simpl.
  - split; [intros _ x []|reflexivity].
  - rewrite orb_false_iff, IH. split.
    + intros [Ha Hl] x [<-|Hx]; [exact Ha|exact (Hl x Hx)].
    + intro H. split; [apply H; left; reflexivity|].
      intros x Hx. apply H. right. exact Hx.
Qed.

Lemma file_rows_own_timestamps (input_dir : string) (f : string * parquet)
  (rows : list Phase1.union_row) :
  Phase1.file_rows input_dir f = Ok rows -> Forall Phase1.own_timestamps rows.
Proof.
  unfold Phase1.file_rows. destruct (snd f) as [|[|] rs]; intro H;
    [discriminate H| |]; injection H as <-; apply Forall_forall;
    intros u Hu; apply in_map_iff in Hu; destruct Hu as [r [<- _]];
    unfold Phase1.own_timestamps; simpl; split;
    try reflexivity.
  - destruct (raw_pickup r); reflexivity.
  - destruct (raw_dropoff r); reflexivity.
Qed.

Lemma read_files_own_timestamps (input_dir : string) (files : raw_dir) :
  forall rows, Phase1.read_files input_dir files = Ok rows ->
               Forall Phase1.own_timestamps rows.
Proof.
  induction files as [|f files IH]; simpl; intros rows H.
  - injection H as <-. constructor.
  - destruct (Phase1.file_rows input_dir f) as [a|] eqn:Fa; [|discriminate H].
    destruct (Phase1.read_files input_dir files) as [b|]; [|discriminate H].
    simpl in H. injection H as <-. apply Forall_app. split.
    + exact (file_rows_own_timestamps _ _ _ Fa).
    + apply IH. reflexivity.
Qed.

Lemma read_period_own_timestamps (input_dir suffix : string) (raw : raw_dir)
  (rows : list Phase1.union_row) :
  Phase1.read_period input_dir suffix raw = Ok rows ->
  Forall Phase1.own_timestamps rows.
Proof.
  unfold Phase1.read_period.
  destruct (sort_by Phase1.le_name _) as [|f files]; [discriminate|].
  destruct (Phase1.read_files input_dir (f :: files)) as [a|] eqn:R;
    [|discriminate].
  simpl. destruct (_ && _); [|discriminate].
  intro H. injection H as <-. exact (read_files_own_timestamps _ _ _ R).
Qed.

(** [+ INTERVAL n YEAR] moves the year by [n] and nothing else, except that
    a 29 February lands on the 28th of a common year. *)
Lemma add_years_spec (n : Z) (t : timestamp) :
  ts_year (add_years n t) = ts_year t + n
  /\ ts_month (add_years n t) = ts_month t
  /\ ts_micros (add_years n t) = ts_micros t
  /\ (ts_day t <= days_in_month (ts_year t + n) (ts_month t) ->
      ts_day (add_years n t) = ts_day t).
Proof.
  unfold add_years. simpl. repeat split. intro H. apply Z.min_l. exact H.
Qed.

(** ** ORDER BY and GROUP BY *)

Section Sorting.
Context {A : Type} (le : A -> A -> bool).

Lemma insert_by_In (x y : A) (l : list A) :
  In x (insert_by le y l) <-> x = y \/ In x l.
Proof.
  induction l as [|z l IH]; simpl.
  - intuition congruence.
  - destruct (le y z); simpl; rewrite ?IH; intuition congruence.
Qed.

Lemma sort_by_In (x : A) (l : list A) : In x (sort_by le l) <-> In x l.
Proof.
  unfold sort_by. induction l as [|y l IH]; simpl; [reflexivity|].
  rewrite insert_by_In, IH. intuition congruence.
Qed.

End Sorting.

Section Grouping.
Context {K : Type} (eqb : K -> K -> bool).
Hypothesis eqb_eq : forall a b, eqb a b = true <-> a = b.

Lemma eqb_refl (k : K) : eqb k k = true.
Proof. apply eqb_eq. reflexivity. Qed.

Lemma eqb_sym (a b : K) : eqb a b = eqb b a.
Proof.
  destruct (eqb a b) eqn:E, (eqb b a) eqn:F; try reflexivity.
  - apply eqb_eq in E. subst. rewrite eqb_refl in F. discriminate.
  - apply eqb_eq in F. subst. rewrite eqb_refl in E. discriminate.
Qed.

Lemma count_of_bump (k k0 : K) (g : list (K * Z)) :
  count_of eqb k (bump eqb k0 g)
  = count_of eqb k g + (if eqb k k0 then 1 else 0).
Proof.
  induction g as [|[k' n] g IH]; simpl.
  - destruct (eqb k k0); reflexivity.
  - destruct (eqb k0 k') eqn:E0; simpl.
    + apply eqb_eq in E0. subst k'.
      destruct (eqb k k0); lia.
    + destruct (eqb k k') eqn:E1.
      * destruct (eqb k k0) eqn:E2; [|lia].
        apply eqb_eq in E1, E2. subst. rewrite eqb_refl in E0. discriminate.
      * exact IH.
Qed.

Lemma count_of_group_count (k : K) (keys : list K) :
  count_of eqb k (group_count eqb keys) = occurrences eqb k keys.
Proof.
  unfold group_count, occurrences. induction keys as [|k0 keys IH]; simpl.
  - reflexivity.
  - rewrite count_of_bump, IH. destruct (eqb k k0); simpl; lia.
Qed.

Lemma bump_keys (k0 : K) (g : list (K * Z)) (k : K) :
  In k (map fst (bump eqb k0 g)) <-> k = k0 \/ In k (map fst g).
Proof.
  induction g as [|[k' n] g IH]; simpl.
  - intuition congruence.
  - destruct (eqb k0 k') eqn:E; simpl.
    + apply eqb_eq in E. subst. intuition congruence.
    + rewrite IH. intuition congruence.
Qed.

Lemma bump_NoDup (k0 : K) (g : list (K * Z)) :
  NoDup (map fst g) -> NoDup (map fst (bump eqb k0 g)).
Proof.
  induction g as [|[k' n] g IH]; simpl; intro H.
  - constructor; [intros []|constructor].
  - inversion H as [|? ? Hnotin Hnd]; subst.
    destruct (eqb k0 k') eqn:E; simpl.
    + constructor; assumption.
    + constructor; [|apply IH; exact Hnd].
      rewrite bump_keys. intros [->|Hin]; [|exact (Hnotin Hin)].
      rewrite eqb_refl in E. discriminate.
Qed.

Lemma bump_positive (k0 : K) (g : list (K * Z)) :
  Forall (fun p => 0 < snd p) g -> Forall (fun p => 0 < snd p) (bump eqb k0 g).
Proof.
  induction g as [|[k' n] g IH]; simpl; intro H.
  - constructor; [simpl; lia|constructor].
  - inversion H as [|? ? Hn Hg]; subst. simpl in Hn.
    destruct (eqb k0 k'); constructor; simpl; auto; lia.
Qed.

Lemma group_count_NoDup (keys : list K) :
  NoDup (map fst (group_count eqb keys)).
Proof.
  unfold group_count. induction keys as [|k keys IH]; simpl.
  - constructor.
  - apply bump_NoDup. exact IH.
Qed.

Lemma group_count_positive (keys : list K) :
  Forall (fun p => 0 < snd p) (group_count eqb keys).
Proof.
  unfold group_count. induction keys as [|k keys IH]; simpl.
  - constructor.
  - apply bump_positive. exact IH.
Qed.

Lemma group_count_keys (keys : list K) (k : K) :
  In k (map fst (group_count eqb keys)) <-> In k keys.
Proof.
  unfold group_count. induction keys as [|k0 keys IH]; simpl.
  - reflexivity.
  - rewrite bump_keys, IH. intuition congruence.
Qed.

Lemma count_of_In (g : list (K * Z)) (k : K) (n : Z) :
  NoDup (map fst g) -> In (k, n) g -> count_of eqb k g = n.
Proof.
  induction g as [|[k' n'] g IH]; simpl; intros Hnd Hin; [contradiction|].
  inversion Hnd as [|? ? Hnotin Hnd']; subst.
  destruct Hin as [E|Hin].
  - injection E as -> ->. rewrite eqb_refl. reflexivity.
  - destruct (eqb k k') eqn:E.
    + apply eqb_eq in E. subst. exfalso. apply Hnotin.
      apply in_map_iff. exists (k', n). split; [reflexivity|exact Hin].
    + apply IH; assumption.
Qed.

(** A grouped table has one row per key that occurs, holding the number of
    its occurrences. *)
Lemma group_count_spec (keys : list K) (k : K) (n : Z) :
  In (k, n) (group_count eqb keys)
  <-> In k keys /\ n = occurrences eqb k keys.
Proof.
  split.
  - intro H. split.
    + apply group_count_keys. apply in_map_iff.
      exists (k, n). split; [reflexivity|exact H].
    + rewrite <- count_of_group_count. symmetry.
      apply count_of_In; [apply group_count_NoDup|exact H].
  - intros [Hk ->]. apply group_count_keys in Hk.
    apply in_map_iff in Hk. destruct Hk as [[k' n'] [E Hin]].
    simpl in E. subst k'.
    rewrite <- count_of_group_count.
    rewrite (count_of_In _ _ _ (group_count_NoDup keys) Hin). exact Hin.
Qed.

End Grouping.

(** ** Truth of three-valued conditions *)

Lemma is_true_and3 (a b : tri) :
  is_true (and3 a b) = is_true a && is_true b.
Proof. destruct a as [[|]|], b as [[|]|]; reflexivity. Qed.

Lemma is_true_or3 (a b : tri) :
  is_true (or3 a b) = is_true a || is_true b.
Proof. destruct a as [[|]|], b as [[|]|]; reflexivity. Qed.

Lemma gt3_true_iff (a : num) (z : Z) :
  is_true (gt3 a (lit z)) = true <-> exists q, a = Some q /\ (inject_Z z < q)%Q.
Proof.
  destruct a as [x|]; simpl.
  - destruct (Qlt_bool (inject_Z z) x) eqn:E; split.
    + intros _. exists x. split; [reflexivity|]. apply Qlt_bool_iff. exact E.
    + reflexivity.
    + discriminate.
    + intros [q [Hq Hlt]]. injection Hq as <-.
      apply Qlt_bool_iff in Hlt. congruence.
  - split; [discriminate|]. intros [q [Hq _]]. discriminate Hq.
Qed.

Lemma lt3_true_iff (a : num) (z : Z) :
  is_true (lt3 a (lit z)) = true <-> exists q, a = Some q /\ (q < inject_Z z)%Q.
Proof.
  destruct a as [x|]; simpl.
  - destruct (Qlt_bool x (inject_Z z)) eqn:E; split.
    + intros _. exists x. split; [reflexivity|]. apply Qlt_bool_iff. exact E.
    + reflexivity.
    + discriminate.
    + intros [q [Hq Hlt]]. injection Hq as <-.
      apply Qlt_bool_iff in Hlt. congruence.
  - split; [discriminate|]. intros [q [Hq _]]. discriminate Hq.
Qed.

Lemma eq3_true_iff (a : num) (z : Z) :
  is_true (eq3 a (lit z)) = true <-> exists q, a = Some q /\ (q == inject_Z z)%Q.
Proof.
  destruct a as [x|]; simpl.
  - destruct (Qeq_bool x (inject_Z z)) eqn:E; split.
    + intros _. exists x. split; [reflexivity|]. apply Qeq_bool_iff. exact E.
    + reflexivity.
    + discriminate.
    + intros [q [Hq Heq]]. injection Hq as <-.
      apply Qeq_bool_iff in Heq. congruence.
  - split; [discriminate|]. intros [q [Hq _]]. discriminate Hq.
Qed.

Lemma in_list_true_iff (x : option Z) (l : list Z) :
  is_true (in_list x l) = true <-> exists z, x = Some z /\ In z l.
Proof.
  destruct x as [z|]; simpl.
  - destruct (existsb (Z.eqb z) l) eqn:E; split.
    + intros _. exists z. split; [reflexivity|].
      apply existsb_exists in E. destruct E as [y [Hy Hzy]].
      apply Z.eqb_eq in Hzy. subst. exact Hy.
    + reflexivity.
    + discriminate.
    + intros [y [Hy Hin]]. injection Hy as <-.
      assert (existsb (Z.eqb z) l = true) as T; [|congruence].
      apply existsb_exists. exists z. split; [exact Hin|apply Z.eqb_refl].
  - split; [discriminate|]. intros [z [Hz _]]. discriminate Hz.
Qed.

(** ** Binary floating point *)

Section Rounding.
Variables prec emax : Z.
Hypothesis prec_pos : 0 < prec.
Hypothesis emin_neg : 3 - emax - prec <= 0.

Lemma iter_pos_nat {A : Type} (f : A -> A) (p : positive) (x : A) :
  iter_pos f p x = Nat.iter (Pos.to_nat p) f x.
Proof.
  revert x. induction p as [p IH|p IH|]; intro x; cbn [iter_pos].
  - rewrite !IH. rewrite Pos2Nat.inj_xI.
    replace (S (2 * Pos.to_nat p))%nat
      with (Pos.to_nat p + (Pos.to_nat p + 1))%nat by lia.
    rewrite !Nat.iter_add. simpl. reflexivity.
  - rewrite !IH. rewrite Pos2Nat.inj_xO.
    replace (2 * Pos.to_nat p)%nat with (Pos.to_nat p + Pos.to_nat p)%nat
      by lia.
    rewrite Nat.iter_add. reflexivity.
  - reflexivity.
Qed.

Lemma shr_1_m (r : shr_record) : 0 <= shr_m r -> shr_m (shr_1 r) = shr_m r / 2.
Proof.
  destruct r as [m b s]. simpl. intro H.
  destruct m as [|[p|p|]|p]; simpl; try reflexivity; try lia.
  - rewrite Pos2Z.inj_xI. apply Z.div_unique with 1; lia.
  - rewrite Pos2Z.inj_xO. apply Z.div_unique with 0; lia.
Qed.

Lemma shr_n_m (n : nat) (r : shr_record) :
  0 <= shr_m r -> shr_m (Nat.iter n shr_1 r) = shr_m r / 2 ^ Z.of_nat n.
Proof.
  intro H. induction n as [|n IH].
  - simpl. symmetry. apply Z.div_1_r.
  - rewrite Nat2Z.inj_succ, Z.pow_succ_r by lia.
    change (Nat.iter (S n) shr_1 r) with (shr_1 (Nat.iter n shr_1 r)).
    assert (0 < 2 ^ Z.of_nat n) as P by (apply Z.pow_pos_nonneg; lia).
    assert (0 <= shr_m (Nat.iter n shr_1 r)) as N
      by (rewrite IH; apply Z.div_pos; [exact H|exact P]).
    rewrite (shr_1_m _ N), IH, Z.div_div by lia.
    f_equal. lia.
Qed.

Lemma digits2_pos_le (p : positive) :
  2 ^ (Z.pos (digits2_pos p) - 1) <= Z.pos p.
Proof.
  induction p as [p IH|p IH|]; cbn [digits2_pos].
  - rewrite Pos2Z.inj_succ.
    replace (Z.succ (Z.pos (digits2_pos p)) - 1)
      with (Z.succ (Z.pos (digits2_pos p) - 1)) by lia.
    rewrite Z.pow_succ_r by lia. lia.
  - rewrite Pos2Z.inj_succ.
    replace (Z.succ (Z.pos (digits2_pos p)) - 1)
      with (Z.succ (Z.pos (digits2_pos p) - 1)) by lia.
    rewrite Z.pow_succ_r by lia. lia.
  - simpl. lia.
Qed.

(** Shifting a mantissa right by fewer bits than it has leaves it
    positive. *)
Lemma shr_positive (m : positive) (l : location) (e k : Z) :
  k < Z.pos (digits2_pos m) ->
  0 < shr_m (fst (shr (shr_record_of_loc (Z.pos m) l) e k)).
Proof.
  intro H. unfold shr.
  assert (shr_m (shr_record_of_loc (Z.pos m) l) = Z.pos m) as Hm
    by (destruct l as [|[| |]]; reflexivity).
  destruct k as [|p|p]; cbn [fst]; try (rewrite Hm; lia).
  rewrite iter_pos_nat, shr_n_m by (rewrite Hm; lia).
  rewrite Hm, positive_nat_Z.
  apply Z.div_str_pos. split; [apply Z.pow_pos_nonneg; lia|].
  pose proof (digits2_pos_le m) as D.
  apply Z.le_trans with (2 ^ (Z.pos (digits2_pos m) - 1)); [|exact D].
  apply Z.pow_le_mono_r; lia.
Qed.

Lemma shr_e (r : shr_record) (e k : Z) : e <= snd (shr r e k).
Proof. unfold shr. destruct k; simpl; lia. Qed.

Lemma shr_fexp_positive (m : positive) (l : location) (e : Z) :
  emin prec emax <= e ->
  0 < shr_m (fst (shr_fexp prec emax (Z.pos m) e l))
  /\ emin prec emax <= snd (shr_fexp prec emax (Z.pos m) e l).
Proof.
  intro He. unfold shr_fexp. split.
  - apply shr_positive. unfold fexp. cbn [Zdigits2]. lia.
  - pose proof (shr_e (shr_record_of_loc (Z.pos m) l) e
                  (fexp prec emax (Zdigits2 (Z.pos m) + e) - e)). lia.
Qed.

Lemma round_nearest_even_positive (m : Z) (l : location) :
  0 < m -> 0 < round_nearest_even m l.
Proof.
  intro H. destruct l as [|[| |]]; simpl; try lia.
  destruct (Z.even m); lia.
Qed.

(** Rounding a positive mantissa gives a finite number or an infinity. *)
Lemma binary_round_aux_nonzero (s : bool) (m : positive) (e : Z) (l : location) :
  emin prec emax <= e ->
  Ieee.is_zero (binary_round_aux prec emax s (Z.pos m) e l) = false
  /\ Ieee.is_nan (binary_round_aux prec emax s (Z.pos m) e l) = false.
Proof.
  intro He. unfold binary_round_aux.
  destruct (shr_fexp_positive m l e He) as [P1 E1].
  destruct (shr_fexp prec emax (Z.pos m) e l) as [r1 e1].
  cbn [fst] in P1. cbn [snd] in E1.
  pose proof (round_nearest_even_positive _ (loc_of_shr_record r1) P1) as P2.
  destruct (round_nearest_even (shr_m r1) (loc_of_shr_record r1)) as [|m2|m2];
    try lia.
  destruct (shr_fexp_positive m2 loc_Exact e1 E1) as [P3 _].
  destruct (shr_fexp prec emax (Z.pos m2) e1 loc_Exact) as [r3 e3].
  cbn [fst] in P3.
  destruct (shr_m r3) as [|m3|m3]; try lia.
  destruct (e3 <=? emax - prec); split; reflexivity.
Qed.

(** The cast of an integer other than 0 is not a zero and not a NaN. *)
Lemma of_Z_nonzero (z : Z) :
  z <> 0 ->
  Ieee.is_zero (Ieee.of_Z prec emax z) = false
  /\ Ieee.is_nan (Ieee.of_Z prec emax z) = false.
Proof.
  intro Hz. unfold Ieee.of_Z, binary_normalize.
  assert (forall s p,
            Ieee.is_zero (binary_round prec emax s p 0) = false
            /\ Ieee.is_nan (binary_round prec emax s p 0) = false) as R.
  { intros s p. unfold binary_round.
    destruct (shl_align p 0 (fexp prec emax (Z.pos (digits2_pos p) + 0)))
      as [mz ez] eqn:S.
    assert (emin prec emax <= ez) as He.
    { unfold shl_align in S. rewrite Z.add_0_r in S.
      pose proof (Z.le_max_r (Z.pos (digits2_pos p) - prec) (emin prec emax))
        as M.
      fold (fexp prec emax (Z.pos (digits2_pos p))) in M.
      destruct (fexp prec emax (Z.pos (digits2_pos p)) - 0) eqn:K;
        injection S as <- <-; unfold emin in *; lia. }
    exact (binary_round_aux_nonzero s mz ez loc_Exact He). }
  destruct z as [|p|p]; [congruence|apply R|apply R].
Qed.

Lemma div_nonzero (a : option spec_float) (y : spec_float) :
  Ieee.is_zero y = false ->
  Ieee.div prec emax a (Some y) = Ok (Ieee.quot prec emax a (Some y)).
Proof.
  intro H. destruct a as [x|]; simpl; [rewrite H|]; reflexivity.
Qed.

Lemma div_null (a : option spec_float) : Ieee.div prec emax a None = Ok None.
Proof. destruct a; reflexivity. Qed.

End Rounding.

(** A value is equal to 0 exactly when it is one of the two zeros. *)
Lemma eqb_zero (x : spec_float) (s : bool) :
  SFeqb x (S754_zero s) = Ieee.is_zero x.
Proof. destruct x as [|[|]| |[|] m e]; reflexivity. Qed.


(** Nothing of a distance of 0 is above a positive bound: the quotient of
    a zero is a zero or a NaN. *)
Lemma zero_quotient_is_small (x y b : spec_float) :
  Ieee.is_zero x = true -> SFltb (S754_zero false) b = true ->
  SFltb b (SFdiv Double.prec Double.emax x y) = false.
Proof.
  intros Hx Hb. destruct x as [sx| | |]; try discriminate Hx.
  destruct b as [sb|[|]| |[|] mb eb]; try discriminate Hb;
    destruct y as [sy|sy| |sy my ey]; try reflexivity;
    destruct sx, sy; reflexivity.
Qed.

Lemma double_of_Z_nonzero (z : Z) :
  z <> 0 -> Ieee.is_zero (Double.of_Z z) = false.
Proof.
  intro H. apply (of_Z_nonzero Double.prec Double.emax); [reflexivity| |exact H].
  unfold Double.prec, Double.emax. lia.
Qed.

Lemma single_of_Z_nonzero (z : Z) :
  z <> 0 -> Ieee.is_zero (Single.of_Z z) = false.
Proof.
  intro H. apply (of_Z_nonzero Single.prec Single.emax); [reflexivity| |exact H].
  unfold Single.prec, Single.emax. lia.
Qed.

Lemma double_div_nonzero (a : Double.dbl) (y : spec_float) :
  Ieee.is_zero y = false ->
  Double.div a (Some y) = Ok (Double.quot a (Some y)).
Proof. apply div_nonzero. Qed.

Lemma double_div_null (a : Double.dbl) : Double.div a None = Ok None.
Proof. apply div_null. Qed.

(** The percentage of a part in a total that is not 0. *)
Lemma pct_of_total (part : option Z) (total : Z) :
  total <> 0 ->
  Double.pct_of part total
  = Ok (Double.quot (option_map (fun n => Double.of_Z (n * 100)) part)
                    (Some (Double.of_Z total))).
Proof.
  intro H. unfold Double.pct_of. apply double_div_nonzero.
  apply double_of_Z_nonzero. exact H.
Qed.

(** The glob of a directory: an error without a file, its rows otherwise. *)
Lemma read_parquet_nonempty {A : Type} (d : dir A) :
  d <> [] -> read_parquet d = Ok (read_all d).
Proof. destruct d; [congruence|reflexivity]. Qed.

Lemma read_parquet_Ok {A : Type} (d : dir A) (rows : list A) :
  read_parquet d = Ok rows -> d <> [] /\ rows = read_all d.
Proof.
  destruct d; simpl; intro H; [discriminate H|].
  injection H as <-. split; [discriminate|reflexivity].
Qed.

(** ** The fraud categorizer *)

Lemma filter_map_length {A B : Type} (p : B -> bool) (f : A -> B) (l : list A) :
  List.length (filter p (map f l))
  = List.length (filter (fun a => p (f a)) l).
Proof.
  induction l as [|a l IH]; simpl; [reflexivity|].
  destruct (p (f a)); simpl; rewrite IH; reflexivity.
Qed.

Lemma filter_filter_length {A : Type} (p q r : A -> bool) (l : list A) :
  (forall a, In a l -> p a && q a = r a) ->
  List.length (filter p (filter q l)) = List.length (filter r l).
Proof.
  induction l as [|a l IH]; intro H; simpl; [reflexivity|].
  rewrite <- (H a (or_introl Logic.eq_refl)).
  assert (List.length (filter p (filter q l)) = List.length (filter r l)) as E
    by (apply IH; intros b Hb; apply H; right; exact Hb).
  destruct (q a); simpl.
  - destruct (p a); simpl; rewrite E; reflexivity.
  - rewrite andb_false_r. exact E.
Qed.

Lemma duration64_total (t : trip) :
  Phase2Analysis.duration64 t = Ok (Phase2Analysis.duration64_val t).
Proof.
  unfold Phase2Analysis.duration64. apply double_div_nonzero. reflexivity.
Qed.

Lemma guarded_duration64_total (t : trip) :
  Phase2Analysis.guarded_duration64 t = Ok (Phase2Analysis.guarded64_val t).
Proof.
  unfold Phase2Analysis.guarded_duration64, Phase2Analysis.guarded64_val.
  rewrite duration64_total. cbn [bind].
  destruct (is_true (Double.eq (Phase2Analysis.duration64_val t) (Double.lit 0)));
    reflexivity.
Qed.

(** The divisor of the speed is NULL or a number other than 0. *)
Lemma guarded64_nonzero (t : trip) (y : spec_float) :
  Phase2Analysis.guarded64_val t = Some y -> Ieee.is_zero y = false.
Proof.
  unfold Phase2Analysis.guarded64_val.
  destruct (Phase2Analysis.duration64_val t) as [d|]; [|discriminate].
  change (Double.eq (Some d) (Double.lit 0))
    with (Some (SFeqb d (S754_zero false))).
  rewrite eqb_zero. cbn [is_true].
  destruct (Ieee.is_zero d) eqn:E; intro H; injection H as <-;
    [reflexivity|exact E].
Qed.

Lemma speed64_total (t : trip) :
  Phase2Analysis.speed64 t = Ok (Phase2Analysis.speed64_val t).
Proof.
  unfold Phase2Analysis.speed64, Phase2Analysis.speed64_val.
  rewrite guarded_duration64_total. cbn [bind].
  destruct (Phase2Analysis.guarded64_val t) as [y|] eqn:G.
  - apply double_div_nonzero. exact (guarded64_nonzero t y G).
  - rewrite double_div_null.
    destruct (Double.cell (trip_distance t)); reflexivity.
Qed.

Lemma teleporter_iff (t : trip) :
  Phase2Analysis.teleporter t = true
  <-> exists s, Phase2Analysis.speed64_val t = Some s
                /\ SFltb (Double.of_Z 100) s = true.
Proof.
  unfold Phase2Analysis.teleporter.
  destruct (Phase2Analysis.speed64_val t) as [s|].
  - change (Double.gt (Some s) (Double.lit 100))
      with (Some (SFltb (Double.of_Z 100) s)).
    cbn [is_true]. destruct (SFltb (Double.of_Z 100) s) eqn:E; split.
    + intros _. exists s. auto.
    + reflexivity.
    + discriminate.
    + intros [s' [Es H]]. injection Es as <-. congruence.
  - split; [discriminate|]. intros [s [E _]]. discriminate E.
Qed.

Lemma stationary_iff (t : trip) :
  Phase2Analysis.stationary t = true
  <-> exists x g, Double.cell (trip_distance t) = Some x
                  /\ Ieee.is_zero x = true
                  /\ Double.cell (congestion_surcharge t) = Some g
                  /\ SFltb (Double.of_Z 0) g = true.
Proof.
  unfold Phase2Analysis.stationary, Phase2Analysis.stationary_charge.
  rewrite is_true_and3, andb_true_iff.
  destruct (Double.cell (trip_distance t)) as [x|];
    destruct (Double.cell (congestion_surcharge t)) as [g|].
  - change (Double.eq (Some x) (Double.lit 0))
      with (Some (SFeqb x (S754_zero false))).
    change (Double.gt (Some g) (Double.lit 0))
      with (Some (SFltb (S754_zero false) g)).
    change (Double.of_Z 0) with (S754_zero false).
    rewrite eqb_zero. cbn [is_true]. split.
    + intros [Hx Hg]. exists x, g.
      destruct (Ieee.is_zero x); [|discriminate Hx].
      destruct (SFltb _ g); [|discriminate Hg]. auto.
    + intros [x' [g' [Ex [Hx [Eg Hg]]]]].
      injection Ex as <-. injection Eg as <-. rewrite Hx, Hg. auto.
  - split; [intros [_ H]; discriminate H|].
    intros [x' [g' [_ [_ [E _]]]]]. discriminate E.
  - split; [intros [H _]; discriminate H|].
    intros [x' [g' [E _]]]. discriminate E.
  - split; [intros [H _]; discriminate H|].
    intros [x' [g' [E _]]]. discriminate E.
Qed.

(** With no distance on the meter the speed is a zero, a NaN or NULL: a
    stationary charge is never a teleporter. *)
Lemma stationary_is_not_teleporter (t : trip) :
  Phase2Analysis.stationary t = true -> Phase2Analysis.teleporter t = false.
Proof.
  intro H. apply stationary_iff in H. destruct H as [x [g [Hx [Zx _]]]].
  unfold Phase2Analysis.teleporter, Phase2Analysis.speed64_val. rewrite Hx.
  destruct (Phase2Analysis.guarded64_val t) as [y|]; [|reflexivity].
  change (Double.gt (Double.quot (Some x) (Some y)) (Double.lit 100))
    with (Some (SFltb (Double.of_Z 100) (SFdiv Double.prec Double.emax x y))).
  rewrite (zero_quotient_is_small x y (Double.of_Z 100) Zx); reflexivity.
Qed.

Lemma violation_type_total (t : trip) :
  Phase2Analysis.violation_type t = Ok (Phase2Analysis.violation_val t).
Proof.
  unfold Phase2Analysis.violation_type, Phase2Analysis.violation_val,
    Phase2Analysis.teleporter, Phase2Analysis.stationary.
  rewrite speed64_total. cbn [bind].
  destruct (is_true (Double.gt _ _)); [reflexivity|].
  destruct (is_true (Phase2Analysis.stationary_charge t)); reflexivity.
Qed.

Lemma suspicious_total (t : trip) :
  Phase2Analysis.suspicious t = Ok (Phase2Analysis.suspicious_val t).
Proof.
  unfold Phase2Analysis.suspicious. rewrite speed64_total. reflexivity.
Qed.

(** The filter and the label of a record, by the two WHEN tests. *)
Lemma violation_val_cases (t : trip) :
  is_true (Phase2Analysis.suspicious_val t)
  = Phase2Analysis.teleporter t || Phase2Analysis.stationary t
  /\ (Phase2Analysis.teleporter t = true ->
      Phase2Analysis.violation_val t = "Teleporter (>100mph)"%string)
  /\ (Phase2Analysis.teleporter t = false ->
      Phase2Analysis.stationary t = true ->
      Phase2Analysis.violation_val t = "Stationary Charge"%string)
  /\ (Phase2Analysis.teleporter t = false ->
      Phase2Analysis.stationary t = false ->
      Phase2Analysis.violation_val t = "Other"%string).
Proof.
  split; [apply is_true_or3|].
  unfold Phase2Analysis.violation_val.
  repeat split; intros; repeat match goal with E : _ = _ |- _ => rewrite E end;
    reflexivity.
Qed.

(** Without a file in the clean directory the query raises. *)
Lemma analyze_fraud_no_file :
  Phase2Analysis.analyze_fraud [] = Raise IOException.
Proof. reflexivity. Qed.

(** The report: the labels of the records the filter keeps, counted. *)
Lemma analyze_fraud_total (clean : dir trip) :
  clean <> [] ->
  Phase2Analysis.analyze_fraud clean
  = Ok (sort_by Phase2Analysis.by_count_desc
          (group_count String.eqb
             (map Phase2Analysis.violation_val
                (filter (fun t => is_true (Phase2Analysis.suspicious_val t))
                        (read_all clean))))).
Proof.
  intro NE. unfold Phase2Analysis.analyze_fraud.
  rewrite (read_parquet_nonempty clean NE). cbn [bind].
  rewrite (where_total _ _ _ suspicious_total). cbn [bind].
  rewrite (mapM_total _ _ _ violation_type_total). reflexivity.
Qed.

(** The rows of the report: a label with the number of kept records that
    carry it, for each label a kept record carries. *)
Lemma fraud_report_rows (rows : list trip) (label : string) (n : Z) :
  In (label, n)
     (sort_by Phase2Analysis.by_count_desc
        (group_count String.eqb
           (map Phase2Analysis.violation_val
              (filter (fun t => is_true (Phase2Analysis.suspicious_val t))
                      rows))))
  <-> 0 < n
      /\ ((label = "Teleporter (>100mph)"%string
           /\ n = Z.of_nat (List.length (filter Phase2Analysis.teleporter rows)))
          \/ (label = "Stationary Charge"%string
              /\ n = Z.of_nat
                       (List.length (filter Phase2Analysis.stationary rows)))).
Proof.
  set (kept := filter (fun t => is_true (Phase2Analysis.suspicious_val t)) rows).
  rewrite sort_by_In, (group_count_spec String.eqb String.eqb_eq).
  unfold occurrences. rewrite filter_map_length.
  assert (List.length
            (filter (fun t => ("Teleporter (>100mph)"
                               =? Phase2Analysis.violation_val t)%string) kept)
          = List.length (filter Phase2Analysis.teleporter rows)) as ET.
  { apply filter_filter_length. intros t _.
    destruct (violation_val_cases t) as [Hs [HT [HS HO]]]. rewrite Hs.
    destruct (Phase2Analysis.teleporter t) eqn:T.
    - rewrite (HT Logic.eq_refl). reflexivity.
    - destruct (Phase2Analysis.stationary t) eqn:S.
      + rewrite (HS Logic.eq_refl Logic.eq_refl). reflexivity.
      + rewrite (HO Logic.eq_refl Logic.eq_refl). reflexivity. }
  assert (List.length
            (filter (fun t => ("Stationary Charge"
                               =? Phase2Analysis.violation_val t)%string) kept)
          = List.length (filter Phase2Analysis.stationary rows)) as ES.
  { apply filter_filter_length. intros t _.
    destruct (violation_val_cases t) as [Hs [HT [HS HO]]]. rewrite Hs.
    pose proof (stationary_is_not_teleporter t) as N.
    destruct (Phase2Analysis.teleporter t) eqn:T.
    - rewrite (HT Logic.eq_refl).
      destruct (Phase2Analysis.stationary t); [|reflexivity].
      discriminate (N Logic.eq_refl).
    - destruct (Phase2Analysis.stationary t) eqn:S.
      + rewrite (HS Logic.eq_refl Logic.eq_refl). reflexivity.
      + rewrite (HO Logic.eq_refl Logic.eq_refl). reflexivity. }
  assert (forall l, In l (map Phase2Analysis.violation_val kept) ->
            (0 < List.length
                   (filter (fun t => (l =? Phase2Analysis.violation_val t)%string)
                           kept))%nat
            /\ (l = "Teleporter (>100mph)"%string
                \/ l = "Stationary Charge"%string)) as Hin.
  { intros l Hl. apply in_map_iff in Hl. destruct Hl as [t [<- Ht]]. split.
    - assert (In t (filter (fun t' => (Phase2Analysis.violation_val t
                                       =? Phase2Analysis.violation_val t')%string)
                           kept)) as Hf
        by (apply filter_In; split; [exact Ht|apply String.eqb_refl]).
      match goal with |- (0 < List.length ?l)%nat =>
        revert Hf; generalize l end.
      intros [|x f] Hf; [destruct Hf|simpl; lia].
    - apply filter_In in Ht. destruct Ht as [_ Hs].
      destruct (violation_val_cases t) as [Es [HT [HS _]]]. rewrite Es in Hs.
      destruct (Phase2Analysis.teleporter t); [left; auto|].
      destruct (Phase2Analysis.stationary t); [right; auto|discriminate Hs]. }
  assert (forall l, (0 < List.length
                     (filter (fun t => (l =? Phase2Analysis.violation_val t)%string)
                             kept))%nat ->
                    In l (map Phase2Analysis.violation_val kept)) as Hout.
  { intros l Hl.
    destruct (filter (fun t => (l =? Phase2Analysis.violation_val t)%string) kept)
      as [|t f] eqn:F; [simpl in Hl; lia|].
    assert (In t (t :: f)) as Ht by (left; reflexivity).
    rewrite <- F in Ht. apply filter_In in Ht. destruct Ht as [Ht E].
    apply String.eqb_eq in E. subst l. apply in_map. exact Ht. }
  split.
  - intros [Hl ->]. destruct (Hin label Hl) as [P [-> | ->]].
    + rewrite <- ET. split; [lia|]. left. auto.
    + rewrite <- ES. split; [lia|]. right. auto.
  - intros [P [[-> ->] | [-> ->]]].
    + rewrite <- ET in *. split; [apply Hout; lia|reflexivity].
    + rewrite <- ES in *. split; [apply Hout; lia|reflexivity].
Qed.

(** The speed is rounded: 57 miles in 2052 seconds are 100 mph over the
    rationals, and a little more in binary64, so that the record is a
    teleporter. *)
Lemma speed_is_rounded :
  (exists q, Phase2Analysis.speed threshold_trip = Ok (Some q) /\ (q == 100)%Q)
  /\ Phase2Analysis.speed64 threshold_trip
     = Ok (Some (S754_finite false 7036874417766401 (-46)))
  /\ Double.of_Z 100 = S754_finite false 7036874417766400 (-46)
  /\ Phase2Analysis.teleporter threshold_trip = true.
Proof.
  split; [eexists; split; [vm_compute; reflexivity|reflexivity]|].
  repeat split; vm_compute; reflexivity.
Qed.

(** C4: the fraud categorizer reads the clean directory only, and raises
    when it holds no file.  Its report has a row "Teleporter (>100mph)"
    with the number of clean records whose speed, computed in binary64
    with the zero-duration guard, is above 100, and a row "Stationary
    Charge" with the number of clean records whose distance is 0 and whose
    congestion surcharge is above 0 (such a record is never above 100);
    a count of 0 has no row, and no other record is counted.  The speed is
    the rounded one: 57 miles in 2052 seconds, 100 mph over the rationals,
    are a little more in binary64 and a teleporter.  And the two
    thresholds differ observably: a one-mile trip of thirty seconds
    (120 mph) is written to the clean file by [process_batch], nothing to
    the audit file, and the fraud report over that clean directory counts
    it as a teleporter. *)
Theorem C4_fraud_categorizer :
  Phase2Analysis.analyze_fraud [] = Raise IOException
  /\ (forall clean : dir trip, clean <> [] ->
      exists report,
        Phase2Analysis.analyze_fraud clean = Ok report
        /\ forall label n,
             In (label, n) report
             <-> 0 < n
                 /\ ((label = "Teleporter (>100mph)"%string
                      /\ n = Z.of_nat
                               (List.length
                                  (filter Phase2Analysis.teleporter
                                          (read_all clean))))
                     \/ (label = "Stationary Charge"%string
                         /\ n = Z.of_nat
                                  (List.length
                                     (filter Phase2Analysis.stationary
                                             (read_all clean))))))
  /\ (forall t : trip,
        Phase2Analysis.speed64 t = Ok (Phase2Analysis.speed64_val t)
        /\ (Phase2Analysis.teleporter t = true
            <-> exists s, Phase2Analysis.speed64_val t = Some s
                          /\ SFltb (Double.of_Z 100) s = true)
        /\ (Phase2Analysis.stationary t = true
            <-> exists x g, Double.cell (trip_distance t) = Some x
                            /\ Ieee.is_zero x = true
                            /\ Double.cell (congestion_surcharge t) = Some g
                            /\ SFltb (Double.of_Z 0) g = true)
        /\ (Phase2Analysis.stationary t = true ->
            Phase2Analysis.teleporter t = false))
  /\ (Phase2Analysis.speed64 zero_duration_trip = Ok (Double.lit 70)
      /\ Phase2Analysis.teleporter zero_duration_trip = false)
  /\ (Phase2Analysis.speed64 threshold_trip
      = Ok (Some (S754_finite false 7036874417766401 (-46)))
      /\ Double.of_Z 100 = S754_finite false 7036874417766400 (-46)
      /\ Phase2Analysis.teleporter threshold_trip = true)
  /\ (exists out,
        Phase1.process_batch Phase1.empty_out "yellow_tripdata_2025-02.parquet"
          (Table Yellow [fast_short_row]) = (out, None)
        /\ read_all (Phase1.clean_data out)
           = [Phase1.raw_data "yellow" fast_short_row]
        /\ read_all (Phase1.audit_log out) = []
        /\ trip_distance (Phase1.raw_data "yellow" fast_short_row) = Some 1%Q
        /\ Phase2Analysis.speed64 (Phase1.raw_data "yellow" fast_short_row)
           = Ok (Double.lit 120)
        /\ Phase2Analysis.analyze_fraud (Phase1.clean_data out)
           = Ok [("Teleporter (>100mph)"%string, 1)]).
Proof.
  split; [reflexivity|]. split; [|split; [|split; [|split]]].
  - intros clean NE. rewrite (analyze_fraud_total clean NE).
    eexists. split; [reflexivity|]. apply fraud_report_rows.
  - intro t. split; [apply speed64_total|].
    split; [apply teleporter_iff|].
    split; [apply stationary_iff|apply stationary_is_not_teleporter].
  - split; vm_compute; reflexivity.
  - repeat split; vm_compute; reflexivity.
  - eexists. repeat split; vm_compute; reflexivity.
Qed.

(** C10: the fraud summary never has an "Other" row.  Each row of a report
    that is produced is labelled "Teleporter (>100mph)" or "Stationary
    Charge", and a report is produced whenever the clean directory holds a
    file: the WHERE clause keeps a record exactly when the speed test or
    the stationary test is TRUE, which are the two WHEN tests of the CASE.
    The speed test comes first, so a kept record that passes it is
    labelled a teleporter whatever the stationary test says. *)
Theorem C10_other_is_unreachable :
  (forall (clean : dir trip) report,
      Phase2Analysis.analyze_fraud clean = Ok report ->
      forall row, In row report ->
        fst row = "Teleporter (>100mph)"%string
        \/ fst row = "Stationary Charge"%string)
  /\ (forall clean : dir trip,
        (clean = [] -> Phase2Analysis.analyze_fraud clean = Raise IOException)
        /\ (clean <> [] ->
            exists report, Phase2Analysis.analyze_fraud clean = Ok report))
  /\ (forall t : trip, exists s c l,
        Phase2Analysis.speed64 t = Ok s
        /\ Phase2Analysis.suspicious t = Ok c
        /\ Phase2Analysis.violation_type t = Ok l
        /\ (is_true c = true
            <-> is_true (Double.gt s (Double.lit 100)) = true
                \/ is_true (Phase2Analysis.stationary_charge t) = true)
        /\ (is_true c = true ->
            l = "Teleporter (>100mph)"%string \/ l = "Stationary Charge"%string)
        /\ (is_true (Double.gt s (Double.lit 100)) = true ->
            l = "Teleporter (>100mph)"%string)).
Proof.
  split; [|split].
  - intros clean report H [k n] Hrow. cbn [fst].
    destruct clean as [|f clean]; [discriminate H|].
    rewrite analyze_fraud_total in H by discriminate. injection H as <-.
    apply fraud_report_rows in Hrow. tauto.
  - intro clean. split; [intros ->; reflexivity|].
    intro NE. rewrite (analyze_fraud_total clean NE). eexists. reflexivity.
  - intro t.
    exists (Phase2Analysis.speed64_val t), (Phase2Analysis.suspicious_val t),
           (Phase2Analysis.violation_val t).
    split; [apply speed64_total|].
    split; [apply suspicious_total|].
    split; [apply violation_type_total|].
    destruct (violation_val_cases t) as [Hc [HT [HS HO]]].
    rewrite Hc, orb_true_iff.
    change (is_true (Double.gt (Phase2Analysis.speed64_val t) (Double.lit 100)))
      with (Phase2Analysis.teleporter t).
    change (is_true (Phase2Analysis.stationary_charge t))
      with (Phase2Analysis.stationary t).
    split; [reflexivity|]. split; [|exact HT].
    destruct (Phase2Analysis.teleporter t); [left; auto|].
    destruct (Phase2Analysis.stationary t); [right; auto|].
    intros [H|H]; discriminate H.
Qed.

(** ** The leakage audit *)

Lemma inject_Z_nonzero (z : Z) : z <> 0 -> Qeq_bool (inject_Z z) 0 = false.
Proof.
  intro H. destruct (Qeq_bool (inject_Z z) 0) eqn:E; [|reflexivity].
  apply Qeq_bool_iff in E. unfold Qeq in E. simpl in E. lia.
Qed.

Lemma Zsum_indicator {A : Type} (p : A -> bool) (l : list A) :
  Zsum (map (fun a => if p a then 1 else 0) l)
  = Z.of_nat (List.length (filter p l)).
Proof.
  induction l as [|a l IH]; simpl; [reflexivity|].
  unfold Zsum in *. simpl. rewrite IH.
  destruct (p a); simpl List.length; lia.
Qed.

Lemma sql_sum_nonempty {A : Type} (f : A -> Z) (l : list A) :
  l <> [] -> sql_sum (map f l) = Some (Zsum (map f l)).
Proof. destruct l; [congruence|reflexivity]. Qed.

Lemma existsb_eqb_iff (z : Z) (l : list Z) :
  existsb (Z.eqb z) l = true <-> In z l.
Proof.
  rewrite existsb_exists. split.
  - intros [y [Hy E]]. apply Z.eqb_eq in E. subst. exact Hy.
  - intro H. exists z. split; [exact H|apply Z.eqb_refl].
Qed.

Lemma not_in_list_true_iff (x : option Z) (l : list Z) :
  is_true (not3 (in_list x l)) = true <-> exists z, x = Some z /\ ~ In z l.
Proof.
  destruct x as [z|]; unfold in_list, not3, option_map, is_true.
  - destruct (existsb (Z.eqb z) l) eqn:E; cbn [negb]; split.
    + discriminate.
    + intros [y [Hy Hn]]. injection Hy as <-.
      apply existsb_eqb_iff in E. contradiction.
    + intros _. exists z. split; [reflexivity|].
      intro H. apply existsb_eqb_iff in H. congruence.
    + reflexivity.
  - split; [discriminate|]. intros [z [Hz _]]. discriminate Hz.
Qed.

Lemma ts_ge_true_iff (t : option timestamp) (y m d : Z) :
  is_true (ts_ge t y m d) = true
  <-> exists p, t = Some p /\ epoch_micros (mkTs y m d 0) <= epoch_micros p.
Proof.
  assert (epoch_micros (mkTs y m d 0)
          = days_from_civil y m d * micros_per_day) as ->
    by (unfold epoch_micros; cbn [ts_year ts_month ts_day ts_micros];
        apply Z.add_0_r).
  destruct t as [p|]; unfold ts_ge, option_map, is_true.
  - destruct (_ <=? epoch_micros p) eqn:Le; split.
    + intros _. exists p. split; [reflexivity|]. apply Z.leb_le. exact Le.
    + reflexivity.
    + discriminate.
    + intros [q [Hq H]]. injection Hq as <-. apply Z.leb_le in H. congruence.
  - split; [discriminate|]. intros [p [Hp _]]. discriminate Hp.
Qed.

(** The eligible set: clean records picked up on or after 2025-01-05
    outside the congestion zone and dropped off inside it. *)
Lemma eligible_iff (t : trip) :
  is_true (Phase2Impact.eligible t) = true
  <-> exists p pz dz,
        pickup_time t = Some p
        /\ epoch_micros (mkTs 2025 1 5 0) <= epoch_micros p
        /\ pickup_loc t = Some pz /\ ~ In pz CONGESTION_ZONE_IDS
        /\ dropoff_loc t = Some dz /\ In dz CONGESTION_ZONE_IDS.
Proof.
  unfold Phase2Impact.eligible.
  rewrite !is_true_and3, !andb_true_iff.
  rewrite ts_ge_true_iff, not_in_list_true_iff, in_list_true_iff.
  split.
  - intros [[[p [Hp Le]] [pz [Hpz Hout]]] [dz [Hdz Hin]]].
    exists p, pz, dz. auto 10.
  - intros [p [pz [dz [Hp [Le [Hpz [Hout [Hdz Hin]]]]]]]].
    split; [split|]; eauto.
Qed.

(** The first query of [audit_leakage] over a directory that holds a
    file. *)
Lemma audit_leakage_value (clean : dir trip) :
  clean <> [] ->
  Phase2Impact.audit_leakage clean
  = (let trips := Phase2Impact.eligible_trips clean in
     let total := sql_count trips in
     let paid := sql_sum (map Phase2Impact.compliant trips) in
     rate <- Double.pct_of paid total ;;
     Ok (Phase2Impact.mkLeakage total paid rate
           (nmul (nsub (lit total) (of_int paid)) (Some (275 # 100))))).
Proof.
  intro NE. unfold Phase2Impact.audit_leakage.
  rewrite (read_parquet_nonempty clean NE). reflexivity.
Qed.

(** C6 (counterexample): when no clean record is eligible the audit does
    not return a compliant count of 0 and a revenue loss of 0: SUM over no
    row is NULL, and so are the rate and the loss computed from it. *)
Lemma C6_no_eligible_trip_gives_nulls :
  Phase2Impact.eligible_trips clean_without_eligible = []
  /\ Phase2Impact.audit_leakage clean_without_eligible
     = Ok (Phase2Impact.mkLeakage 0 None None None)
  /\ ~ (exists r, Phase2Impact.audit_leakage clean_without_eligible = Ok r
                  /\ Phase2Impact.compliant_trips r = Some 0
                  /\ same (Phase2Impact.estimated_revenue_loss r) (Some 0%Q)).
Proof.
  split; [reflexivity|]. split; [reflexivity|].
  intros [r [H [Hc _]]]. vm_compute in H. injection H as <-.
  discriminate Hc.
Qed.

(** C6 (amended): the eligible set is the set of clean records picked up on
    or after 2025-01-05 outside the congestion zone and dropped off inside
    it.  When it is not empty the audit returns its size, the number of its
    records with a surcharge above 0, the binary64 quotient of that number
    times 100 by the size, and the number of the others times 2.75; for
    100 eligible records of which 80 have a surcharge this is 80.0 and
    55.  When the clean directory holds a file and no record is eligible,
    the audit returns a size of 0 and NULL in the three other columns;
    when it holds no file the query raises. *)
Theorem C6_leakage_audit (clean : dir trip) :
  let trips := Phase2Impact.eligible_trips clean in
  let total := Z.of_nat (List.length trips) in
  let paid :=
    Z.of_nat (List.length
                (filter (fun t => is_true (gt3 (congestion_surcharge t) (lit 0)))
                        trips)) in
  (forall t, In t trips
             <-> In t (read_all clean)
                 /\ exists p pz dz,
                      pickup_time t = Some p
                      /\ epoch_micros (mkTs 2025 1 5 0) <= epoch_micros p
                      /\ pickup_loc t = Some pz
                      /\ ~ In pz CONGESTION_ZONE_IDS
                      /\ dropoff_loc t = Some dz
                      /\ In dz CONGESTION_ZONE_IDS)
  /\ (clean = [] -> Phase2Impact.audit_leakage clean = Raise IOException)
  /\ (clean <> [] -> trips = [] ->
      Phase2Impact.audit_leakage clean
      = Ok (Phase2Impact.mkLeakage 0 None None None))
  /\ (trips <> [] ->
      exists loss,
        Phase2Impact.audit_leakage clean
        = Ok (Phase2Impact.mkLeakage total (Some paid)
                (Some (SFdiv Double.prec Double.emax
                         (Double.of_Z (paid * 100)) (Double.of_Z total)))
                (Some loss))
        /\ 0 <= paid <= total
        /\ (loss == (inject_Z total - inject_Z paid) * 2.75)%Q
        /\ (total = 100 -> paid = 80 ->
            SFdiv Double.prec Double.emax
              (Double.of_Z (paid * 100)) (Double.of_Z total)
            = Double.of_Z 80
            /\ (loss == 55)%Q)).
Proof.
  intros trips total paid. split; [|split; [|split]].
  - intro t. unfold trips, Phase2Impact.eligible_trips.
    rewrite filter_In, eligible_iff. reflexivity.
  - intros ->. reflexivity.
  - intros NE E. rewrite (audit_leakage_value clean NE). fold trips.
    rewrite E. reflexivity.
  - intro NE.
    assert (clean <> []) as NC by (intros ->; apply NE; reflexivity).
    assert (total <> 0) as Tnz.
    { unfold total. destruct trips; [congruence|simpl; lia]. }
    rewrite (audit_leakage_value clean NC). fold trips. cbv zeta.
    rewrite (sql_sum_nonempty _ _ NE).
    unfold Phase2Impact.compliant.
    rewrite (Zsum_indicator
               (fun t => is_true (gt3 (congestion_surcharge t) (lit 0))) trips).
    fold paid. unfold sql_count. fold total.
    rewrite (pct_of_total _ _ Tnz). cbn [bind].
    eexists. split; [reflexivity|]. split.
    { unfold paid, total. split; [lia|]. apply inj_le. apply filter_length_le. }
    split.
    { unfold of_int, option_map, nmul, nsub, lift_op, lit. reflexivity. }
    intros -> ->. split; [vm_compute; reflexivity|reflexivity].
Qed.

Lemma C6_leakage_audit_witness :
  exists loss,
    Phase2Impact.audit_leakage clean_80_of_100
    = Ok (Phase2Impact.mkLeakage 100 (Some 80) (Some (Double.of_Z 80))
            (Some loss))
    /\ (loss == 55)%Q.
Proof.
  destruct (C6_leakage_audit clean_80_of_100) as [_ [_ [_ H]]].
  destruct H as [loss [Ha [_ [_ Hn]]]].
  - vm_compute. discriminate.
  - exists loss. destruct Hn as [Hr Hl]; [reflexivity|reflexivity|].
    split; [|exact Hl]. rewrite Ha. reflexivity.
Defined.

(** ** The fairness aggregation *)






(** ** The border effect *)

Lemma zone_eqb_eq (a b : option Z) : Phase3.zone_eqb a b = true <-> a = b.
Proof.
  destruct a as [x|], b as [y|]; simpl; try (split; congruence).
  rewrite Z.eqb_eq. split; congruence.
Qed.

Lemma zone_eq3_true_iff (a b : option Z) :
  is_true (Phase3.zone_eq3 a b) = true <-> exists z, a = Some z /\ b = Some z.
Proof.
  destruct a as [x|], b as [y|]; simpl;
    try (split; [discriminate|intros [z [H1 H2]]; discriminate]).
  destruct (x =? y) eqn:E; split.
  - intros _. apply Z.eqb_eq in E. subst. exists y. split; reflexivity.
  - reflexivity.
  - discriminate.
  - intros [z [H1 H2]]. injection H1 as <-. injection H2 as <-.
    rewrite Z.eqb_refl in E. discriminate E.
Qed.

(** The inner join pairs the rows of the two tables that carry the same,
    non-NULL, zone. *)
Lemma join_In (t24 t25 : list (option Z * Z)) (a b : option Z * Z) :
  In (a, b) (Phase3.join t24 t25)
  <-> In a t24 /\ In b t25 /\ exists z, fst a = Some z /\ fst b = Some z.
Proof.
  unfold Phase3.join. rewrite in_flat_map. split.
  - intros [a' [Ha Hb]]. apply in_map_iff in Hb.
    destruct Hb as [b' [E Hb]]. injection E as -> ->.
    apply filter_In in Hb. destruct Hb as [Hb Hz].
    apply zone_eq3_true_iff in Hz. auto.
  - intros [Ha [Hb Hz]]. exists a. split; [exact Ha|].
    apply in_map_iff. exists b. split; [reflexivity|].
    apply filter_In. split; [exact Hb|]. apply zone_eq3_true_iff. exact Hz.
Qed.

Lemma border_of_total (a b : option Z * Z) :
  0 < snd a -> Phase3.border_of a b = Ok (Phase3.border_val (a, b)).
Proof.
  intro H. unfold Phase3.border_of, Phase3.border_val, Phase3.pct.
  cbn [fst snd]. unfold Single.lit at 2, Ieee.lit.
  unfold Single.div. rewrite div_nonzero; [reflexivity|].
  apply single_of_Z_nonzero. lia.
Qed.

(** The border-effect table, once both sides are read. *)
Lemma border_effect_value (raw : raw_dir) (clean : dir trip)
  (rows24 : list raw_row) :
  Phase3.read_list Phase3.q1_2024_files raw = Ok rows24 ->
  clean <> [] ->
  Phase3.border_effect raw clean
  = Ok (sort_by Phase3.by_pct_desc
          (map Phase3.border_val
             (Phase3.join
                (group_count Phase3.zone_eqb
                   (map DOLocationID
                      (filter (fun r => is_true
                                 (in_list (DOLocationID r) BORDER_ZONES))
                              rows24)))
                (group_count Phase3.zone_eqb
                   (map dropoff_loc
                      (filter (fun t => is_true
                                 (and3 (in_list (dropoff_loc t) BORDER_ZONES)
                                       (in_list (month_of (pickup_time t))
                                                [1; 2; 3])))
                              (read_all clean))))))).
Proof.
  intros Hread NE. unfold Phase3.border_effect, Phase3.q_24, Phase3.q_25.
  rewrite Hread, (read_parquet_nonempty clean NE).
  cbn [bind]. rewrite (mapM_total_on _ Phase3.border_val); [reflexivity|].
  intros [a b] Hp. apply join_In in Hp. destruct Hp as [Ha _].
  cbn [fst snd]. apply border_of_total.
  match type of Ha with In _ (group_count _ ?k) =>
    pose proof (group_count_positive Phase3.zone_eqb k) as Hpos end.
  rewrite Forall_forall in Hpos. exact (Hpos a Ha).
Qed.

(** C8: the border-effect table is an inner join on the zone.  Once the six
    raw files of the first quarter of 2024 and the clean directory are
    read, the table is produced; a zone is in it exactly when it is among
    the border-zone drop-offs of the baseline files and among those of
    the clean records of months 1 to 3; the row of such a zone holds
    (count_2025 - count_2024) / count_2024 times 100, computed in single
    precision (the query casts the divisor to FLOAT), where the counts are
    the numbers of these drop-offs, and the location type "Inside Zone"
    when the zone is in the congestion zone, "Outside Zone" when it is
    not.  A zone of one period only has no row. *)
Theorem C8_border_effect (raw : raw_dir) (clean : dir trip)
  (rows24 : list raw_row) :
  Phase3.read_list Phase3.q1_2024_files raw = Ok rows24 ->
  clean <> [] ->
  let keys24 :=
    map DOLocationID
      (filter (fun r => is_true (in_list (DOLocationID r) BORDER_ZONES)) rows24) in
  let keys25 :=
    map dropoff_loc
      (filter (fun t => is_true
                 (and3 (in_list (dropoff_loc t) BORDER_ZONES)
                       (in_list (month_of (pickup_time t)) [1; 2; 3])))
              (read_all clean)) in
  exists rows,
    Phase3.border_effect raw clean = Ok rows
    /\ (forall z, (exists row, In row rows /\ Phase3.ZoneID row = Some z)
                  <-> In (Some z) keys24 /\ In (Some z) keys25)
    /\ (forall row, In row rows ->
          exists z,
            Phase3.ZoneID row = Some z
            /\ In (Some z) keys24 /\ In (Some z) keys25
            /\ 0 < occurrences Phase3.zone_eqb (Some z) keys24
            /\ Phase3.pct_change row
               = Single.mul
                   (Single.quot
                      (Single.lit (occurrences Phase3.zone_eqb (Some z) keys25
                                   - occurrences Phase3.zone_eqb (Some z) keys24))
                      (Single.lit (occurrences Phase3.zone_eqb (Some z) keys24)))
                   (Single.lit 100)
            /\ (Phase3.location_type row = "Inside Zone"%string
                <-> In z CONGESTION_ZONE_IDS)
            /\ (Phase3.location_type row = "Outside Zone"%string
                <-> ~ In z CONGESTION_ZONE_IDS)).
Proof.
  intros Hread NE keys24 keys25.
  set (t24 := group_count Phase3.zone_eqb keys24).
  set (t25 := group_count Phase3.zone_eqb keys25).
  assert (Phase3.border_effect raw clean
          = Ok (sort_by Phase3.by_pct_desc
                  (map Phase3.border_val (Phase3.join t24 t25)))) as Heff
    by exact (border_effect_value raw clean rows24 Hread NE).
  assert (forall row,
            In row (sort_by Phase3.by_pct_desc
                      (map Phase3.border_val (Phase3.join t24 t25)))
            <-> exists z c24 c25,
                  row = Phase3.border_val ((Some z, c24), (Some z, c25))
                  /\ In (Some z) keys24 /\ c24 = occurrences Phase3.zone_eqb (Some z) keys24
                  /\ In (Some z) keys25 /\ c25 = occurrences Phase3.zone_eqb (Some z) keys25)
    as Hrow.
  { intro row. rewrite sort_by_In, in_map_iff. split.
    - intros [[[k24 c24] [k25 c25]] [<- Hp]].
      apply join_In in Hp. destruct Hp as [Ha [Hb [z [Hz1 Hz2]]]].
      simpl in Hz1, Hz2. subst k24 k25.
      apply (group_count_spec _ zone_eqb_eq) in Ha, Hb.
      exists z, c24, c25. tauto.
    - intros [z [c24 [c25 [-> [H24 [E24 [H25 E25]]]]]]].
      exists ((Some z, c24), (Some z, c25)). split; [reflexivity|].
      apply join_In. repeat split.
      + apply (group_count_spec _ zone_eqb_eq). auto.
      + apply (group_count_spec _ zone_eqb_eq). auto.
      + exists z. split; reflexivity. }
  eexists. split; [exact Heff|]. split.
  - intro z. split.
    + intros [row [Hin Hz]]. apply Hrow in Hin.
      destruct Hin as [z' [c24 [c25 [-> [H24 [_ [H25 _]]]]]]].
      simpl in Hz. injection Hz as ->. auto.
    + intros [H24 H25]. eexists. split.
      * apply Hrow. exists z. eexists. eexists.
        split; [reflexivity|]. auto.
      * reflexivity.
  - intros row Hin. apply Hrow in Hin.
    destruct Hin as [z [c24 [c25 [-> [H24 [E24 [H25 E25]]]]]]].
    exists z. subst c24 c25.
    split; [reflexivity|]. split; [exact H24|]. split; [exact H25|].
    split.
    { pose proof (group_count_positive Phase3.zone_eqb keys24) as Hpos.
      rewrite Forall_forall in Hpos.
      apply (Hpos (Some z, occurrences Phase3.zone_eqb (Some z) keys24)).
      apply (group_count_spec _ zone_eqb_eq). auto. }
    split; [reflexivity|].
    unfold Phase3.border_val. cbn [Phase3.location_type fst snd].
    destruct (is_true (in_list (Some z) CONGESTION_ZONE_IDS)) eqn:T.
    + assert (In z CONGESTION_ZONE_IDS) as Hz.
      { apply in_list_true_iff in T. destruct T as [y [Hy Hyin]].
        injection Hy as <-. exact Hyin. }
      split; split; auto; try discriminate. intro Hn. contradiction.
    + assert (~ In z CONGESTION_ZONE_IDS) as Hz.
      { intro Hz.
        assert (is_true (in_list (Some z) CONGESTION_ZONE_IDS) = true) as T'
          by (apply in_list_true_iff; exists z; auto).
        congruence. }
      split; split; auto; try discriminate. intro Hin. contradiction.
Qed.

Lemma C8_border_effect_witness :
  exists rows,
    Phase3.border_effect raw_q1_2024 clean_q1_2025 = Ok rows
    /\ map Phase3.ZoneID rows = [Some 142; Some 75]
    /\ map Phase3.pct_change rows = [Single.lit 200; Single.lit (-50)]
    /\ map Phase3.location_type rows = ["Inside Zone"; "Outside Zone"]%string
    /\ forall z, (exists row, In row rows /\ Phase3.ZoneID row = Some z)
                 <-> z = 75 \/ z = 142.
Proof.
  destruct (C8_border_effect raw_q1_2024 clean_q1_2025 _ Logic.eq_refl)
    as [rows [Heff [Hzone _]]]; [discriminate|].
  exists rows. split; [exact Heff|].
  assert (map Phase3.ZoneID rows = [Some 142; Some 75]
          /\ map Phase3.pct_change rows = [Single.lit 200; Single.lit (-50)]
          /\ map Phase3.location_type rows
             = ["Inside Zone"; "Outside Zone"]%string) as [H1 [H2 H3]].
  { vm_compute in Heff. injection Heff as <-.
    repeat split; vm_compute; reflexivity. }
  split; [exact H1|]. split; [exact H2|]. split; [exact H3|].
  intro z. rewrite Hzone. simpl. split.
  - intros [H K].
    assert (z = 74 \/ z = 75 \/ z = 142) as H'
      by (destruct H as [H|[H|[H|[H|[]]]]]; injection H; auto).
    assert (z = 75 \/ z = 142 \/ z = 143) as K'
      by (destruct K as [K|[K|[K|[K|[K|[]]]]]]; injection K; auto).
    lia.
  - intros [-> | ->]; split; auto 10.
Defined.

(** A baseline of 3 drop-offs and 4 in 2025: a third more, in single
    precision. *)
Lemma pct_is_single_precision :
  Phase3.pct 3 4 = Some (S754_finite false 8738134 (-18)).
Proof. vm_compute. reflexivity. Qed.

(** * Further properties of the pipeline *)

(** ** Insertion sort: order and content *)

Section SortingMore.
Context {A : Type} (le : A -> A -> bool).
Hypothesis le_total : forall a b, le a b = true \/ le b a = true.

Lemma insert_by_Permutation (x : A) (l : list A) :
  Permutation (insert_by le x l) (x :: l).
Proof.
  induction l as [|y l IH]; simpl; [reflexivity|].
  destruct (le x y); [reflexivity|].
  rewrite IH. apply perm_swap.
Qed.

Lemma sort_by_Permutation (l : list A) : Permutation (sort_by le l) l.
Proof.
  unfold sort_by. induction l as [|x l IH]; simpl; [reflexivity|].
  rewrite insert_by_Permutation. apply perm_skip. exact IH.
Qed.

Lemma insert_by_HdRel (a x : A) (l : list A) :
  le a x = true -> HdRel (fun u v => le u v = true) a l ->
  HdRel (fun u v => le u v = true) a (insert_by le x l).
Proof.
  intros Hax H. destruct l as [|y l]; simpl.
  - constructor. exact Hax.
  - destruct (le x y); constructor; [exact Hax|].
    inversion H; assumption.
Qed.

Lemma insert_by_Sorted (x : A) (l : list A) :
  Sorted (fun u v => le u v = true) l ->
  Sorted (fun u v => le u v = true) (insert_by le x l).
Proof.
  induction l as [|y l IH]; simpl; intro H.
  - repeat constructor.
  - destruct (le x y) eqn:E.
    + constructor; [exact H|constructor; exact E].
    + inversion H as [|? ? Hs Hh]; subst.
      constructor; [apply IH; exact Hs|].
      apply insert_by_HdRel; [|exact Hh].
      destruct (le_total x y) as [T|T]; congruence.
Qed.

Lemma sort_by_Sorted (l : list A) :
  Sorted (fun u v => le u v = true) (sort_by le l).
Proof.
  unfold sort_by. induction l as [|x l IH]; simpl; [constructor|].
  apply insert_by_Sorted. exact IH.
Qed.

Hypothesis le_trans : forall a b c, le a b = true -> le b c = true -> le a c = true.

Lemma sort_by_StronglySorted (l : list A) :
  StronglySorted (fun u v => le u v = true) (sort_by le l).
Proof.
  apply Sorted_StronglySorted; [|apply sort_by_Sorted].
  intros a b c. apply le_trans.
Qed.

(** What LIMIT cuts off comes after what it keeps. *)
Lemma firstn_dominates (n : nat) (l : list A) :
  StronglySorted (fun u v => le u v = true) l ->
  forall x y, In x (firstn n l) -> In y (skipn n l) -> le x y = true.
Proof.
  revert l. induction n as [|n IH]; intros l H x y Hx Hy; [destruct Hx|].
  destruct l as [|a l]; [destruct Hx|].
  simpl in Hx, Hy. apply StronglySorted_inv in H. destruct H as [Hs Ha].
  destruct Hx as [<-|Hx].
  - rewrite Forall_forall in Ha. apply Ha.
    rewrite <- (firstn_skipn n l). apply in_or_app. right. exact Hy.
  - exact (IH l Hs x y Hx Hy).
Qed.

End SortingMore.

(** ** GROUP BY: the rows of each group *)

Section GroupingRows.
Context {K A : Type} (eqb : K -> K -> bool) (key : A -> K).
Hypothesis eqb_eq : forall a b, eqb a b = true <-> a = b.

Lemma rows_of_add (k k0 : K) (a : A) (g : list (K * list A)) :
  rows_of eqb k (add_to_group eqb k0 a g)
  = if eqb k k0 then a :: rows_of eqb k g else rows_of eqb k g.
Proof.
  induction g as [|[k' l] g IH]; simpl.
  - destruct (eqb k k0); reflexivity.
  - destruct (eqb k0 k') eqn:E0; simpl.
    + apply eqb_eq in E0. subst k'. destruct (eqb k k0); reflexivity.
    + destruct (eqb k k') eqn:E1; [|exact IH].
      destruct (eqb k k0) eqn:E2; [|reflexivity].
      apply eqb_eq in E1, E2. subst.
      rewrite (proj2 (eqb_eq k' k') Logic.eq_refl) in E0. discriminate.
Qed.

Lemma rows_of_group_by (k : K) (rows : list A) :
  rows_of eqb k (group_by eqb key rows)
  = filter (fun a => eqb k (key a)) rows.
Proof.
  unfold group_by. induction rows as [|a rows IH]; simpl; [reflexivity|].
  rewrite rows_of_add, IH. destruct (eqb k (key a)); reflexivity.
Qed.

Lemma add_to_group_keys (k0 : K) (a : A) (g : list (K * list A)) (k : K) :
  In k (map fst (add_to_group eqb k0 a g)) <-> k = k0 \/ In k (map fst g).
Proof.
  induction g as [|[k' l] g IH]; simpl.
  - intuition congruence.
  - destruct (eqb k0 k') eqn:E; simpl.
    + apply eqb_eq in E. subst. intuition congruence.
    + rewrite IH. intuition congruence.
Qed.

Lemma add_to_group_NoDup (k0 : K) (a : A) (g : list (K * list A)) :
  NoDup (map fst g) -> NoDup (map fst (add_to_group eqb k0 a g)).
Proof.
  induction g as [|[k' l] g IH]; simpl; intro H.
  - constructor; [intros []|constructor].
  - inversion H as [|? ? Hnotin Hnd]; subst.
    destruct (eqb k0 k') eqn:E; simpl.
    + constructor; assumption.
    + constructor; [|apply IH; exact Hnd].
      rewrite add_to_group_keys. intros [->|Hin]; [|exact (Hnotin Hin)].
      rewrite (proj2 (eqb_eq k0 k0) Logic.eq_refl) in E. discriminate.
Qed.

Lemma group_by_NoDup (rows : list A) :
  NoDup (map fst (group_by eqb key rows)).
Proof.
  unfold group_by. induction rows as [|a rows IH]; simpl.
  - constructor.
  - apply add_to_group_NoDup. exact IH.
Qed.

Lemma group_by_keys (rows : list A) (k : K) :
  In k (map fst (group_by eqb key rows)) <-> In k (map key rows).
Proof.
  unfold group_by. induction rows as [|a rows IH]; simpl; [reflexivity|].
  rewrite add_to_group_keys, IH. intuition congruence.
Qed.

Lemma rows_of_In (g : list (K * list A)) (k : K) (l : list A) :
  NoDup (map fst g) -> In (k, l) g -> rows_of eqb k g = l.
Proof.
  induction g as [|[k' l'] g IH]; simpl; intros Hnd Hin; [contradiction|].
  inversion Hnd as [|? ? Hnotin Hnd']; subst.
  destruct Hin as [E|Hin].
  - injection E as -> ->.
    rewrite (proj2 (eqb_eq k k) Logic.eq_refl). reflexivity.
  - destruct (eqb k k') eqn:E.
    + apply eqb_eq in E. subst. exfalso. apply Hnotin.
      apply in_map_iff. exists (k', l). split; [reflexivity|exact Hin].
    + apply IH; assumption.
Qed.

(** A group holds the rows of its key, in table order, and there is one
    group per key that occurs. *)
Lemma group_by_spec (rows : list A) (k : K) (l : list A) :
  In (k, l) (group_by eqb key rows)
  <-> In k (map key rows) /\ l = filter (fun a => eqb k (key a)) rows.
Proof.
  split.
  - intro H. split.
    + apply group_by_keys. apply in_map_iff.
      exists (k, l). split; [reflexivity|exact H].
    + rewrite <- rows_of_group_by. symmetry.
      apply rows_of_In; [apply group_by_NoDup|exact H].
  - intros [Hk ->]. apply group_by_keys in Hk.
    apply in_map_iff in Hk. destruct Hk as [[k' l'] [E Hin]].
    simpl in E. subst k'.
    rewrite <- rows_of_group_by.
    rewrite (rows_of_In _ _ _ (group_by_NoDup rows) Hin). exact Hin.
Qed.

Lemma group_by_nonempty (rows : list A) (k : K) (l : list A) :
  In (k, l) (group_by eqb key rows) -> l <> [].
Proof.
  intro H. apply group_by_spec in H. destruct H as [Hk ->].
  apply in_map_iff in Hk. destruct Hk as [a [<- Ha]].
  intro E.
  assert (In a (filter (fun a0 => eqb (key a) (key a0)) rows)) as Hin.
  { apply filter_In. split; [exact Ha|]. apply eqb_eq. reflexivity. }
  rewrite E in Hin. destruct Hin.
Qed.

End GroupingRows.

(** ** [process_batch]: what it writes and when it raises *)

Lemma and3_Some (a b : bool) : and3 (Some a) (Some b) = Some (a && b).
Proof. destruct a, b; reflexivity. Qed.

Lemma or3_Some (a b : bool) : or3 (Some a) (Some b) = Some (a || b).
Proof. destruct a, b; reflexivity. Qed.

(** With the four fields the flags read present, no flag is NULL. *)
Lemma populated_decided (taxi : string) (r : raw_row) :
  populated r ->
  exists b, Phase1.any_flag (Phase1.flags_val (Phase1.raw_data taxi r)) = Some b.
Proof.
  intros [Hp [Hd [Hx Hf]]].
  unfold Phase1.any_flag, Phase1.flags_val, Phase1.speed_val,
    Phase1.duration_val, Phase1.raw_data.
  cbn [pickup_time dropoff_time trip_distance fare Phase1.is_physics_fail
       Phase1.is_teleporter Phase1.is_stationary].
  destruct (raw_pickup r) as [p|]; [|congruence].
  destruct (raw_dropoff r) as [d|]; [|congruence].
  destruct (raw_trip_distance r) as [x|]; [|congruence].
  destruct (fare_amount r) as [f|]; [|congruence].
  unfold epoch, nsub, lift_op, lit, option_map, gt3, lt3, eq3, lift_cmp.
  cbn [is_true].
  destruct (Qlt_bool (inject_Z 0) _);
    rewrite !and3_Some, !or3_Some; eexists; reflexivity.
Qed.

Lemma filter_split_Permutation {A : Type} (p q : A -> bool) (l : list A) :
  (forall x, In x l -> q x = negb (p x)) ->
  Permutation (filter p l ++ filter q l) l.
Proof.
  induction l as [|a l IH]; intro H; simpl; [reflexivity|].
  rewrite (H a (or_introl Logic.eq_refl)).
  assert (Permutation (filter p l ++ filter q l) l) as P
    by (apply IH; intros x Hx; apply H; right; exact Hx).
  destruct (p a); simpl.
  - apply perm_skip. exact P.
  - rewrite <- Permutation_middle. apply perm_skip. exact P.
Qed.

(** X1: A batch whose rows have both timestamps, the distance and the fare is
    split without loss: the clean file and the audit file together hold
    each of its records once, and no record is in both. *)
Theorem populated_batch_is_partitioned
  (out : Phase1.out_dir) (name : string) (rows : list raw_row) :
  Forall populated rows ->
  exists clean audit,
    Phase1.process_batch out name (Table (Phase1.cols_of name) rows)
    = (Phase1.mkOut (write_file name clean (Phase1.clean_data out))
                    (write_file name audit (Phase1.audit_log out)), None)
    /\ Permutation (clean ++ audit)
                   (map (Phase1.raw_data (Phase1.taxi_of name)) rows)
    /\ (forall t, In t clean -> ~ In t audit).
Proof.
  intro Hpop. rewrite Phase1Facts.process_batch_readable.
  eexists. eexists. split; [reflexivity|]. split.
  - apply filter_split_Permutation. intros t Ht.
    apply in_map_iff in Ht. destruct Ht as [r [<- Hr]].
    rewrite Forall_forall in Hpop.
    destruct (populated_decided (Phase1.taxi_of name) r (Hpop r Hr)) as [b Hb].
    destruct (Phase1Facts.exactly_one_when_decided _ _ Hb) as [-> ->].
    symmetry. apply negb_involutive.
  - intros t Hc Ha. apply filter_In in Hc, Ha.
    destruct Hc as [_ Hc]. destruct Ha as [_ Ha].
    pose proof (Phase1Facts.never_both (Phase1.flags_val t)) as N.
    rewrite Hc, Ha in N. discriminate N.
Qed.

Lemma populated_batch_is_partitioned_witness :
  exists clean audit,
    Phase1.process_batch Phase1.empty_out "yellow_tripdata_2025-01.parquet"
      (Table Yellow [january_row; fast_short_row; free_short_row])
    = (Phase1.mkOut [("yellow_tripdata_2025-01.parquet"%string, clean)]
                    [("yellow_tripdata_2025-01.parquet"%string, audit)], None)
    /\ Permutation (clean ++ audit)
         (map (Phase1.raw_data "yellow")
              [january_row; fast_short_row; free_short_row])
    /\ (forall t, In t clean -> ~ In t audit).
Proof.
  apply (populated_batch_is_partitioned Phase1.empty_out
           "yellow_tripdata_2025-01.parquet"
           [january_row; fast_short_row; free_short_row]).
  repeat constructor; discriminate.
Defined.

Lemma dialect_eqb_eq (a b : dialect) : dialect_eqb a b = true <-> a = b.
Proof. destruct a, b; simpl; split; congruence. Qed.

(** X2: [process_batch] writes a batch only when its file is read and has
    the timestamp columns its name announces.  An unreadable file and a
    file of the other dialect both make it raise; a call that raises has
    written nothing, and what it raises is never a division error. *)
Theorem process_batch_needs_its_dialect
  (out : Phase1.out_dir) (name : string) (file : parquet) :
  (forall out', Phase1.process_batch out name file = (out', None) ->
     exists rows, file = Table (Phase1.cols_of name) rows)
  /\ (forall out' e, Phase1.process_batch out name file = (out', Some e) ->
        out' = out /\ e <> DivisionByZero)
  /\ (file = Corrupt ->
      exists e, Phase1.process_batch out name file = (out, Some e))
  /\ (forall cols rows, file = Table cols rows ->
        cols <> Phase1.cols_of name ->
        exists e, Phase1.process_batch out name file = (out, Some e)).
Proof.
  split; [|split; [|split]].
  - intros out' H. destruct file as [|cols rows]; [discriminate H|].
    exists rows. f_equal.
    unfold Phase1.process_batch, Phase1.query in H.
    destruct (dialect_eqb cols (Phase1.cols_of name)) eqn:D;
      [|discriminate H].
    apply dialect_eqb_eq. exact D.
  - intros out' e H.
    destruct (failing_batch_writes_nothing _ _ _ _ _ H)
      as [-> [[_ ->]|[c [r [_ [_ ->]]]]]]; split; (reflexivity || discriminate).
  - intros ->. eexists. reflexivity.
  - intros cols rows -> Hne. exists BinderException.
    unfold Phase1.process_batch, Phase1.query.
    destruct (dialect_eqb cols (Phase1.cols_of name)) eqn:D; [|reflexivity].
    apply dialect_eqb_eq in D. contradiction.
Qed.

(** ** [run]: which batches, in which order, and when it raises *)

Lemma readable_batch (out : Phase1.out_dir) (f : string * parquet) :
  readable f = true ->
  exists out', Phase1.process_batch out (fst f) (snd f) = (out', None).
Proof.
  unfold readable. destruct f as [name [|cols rows]]; simpl; [discriminate|].
  intro D. apply dialect_eqb_eq in D. subst cols.
  rewrite Phase1Facts.process_batch_readable. eexists. reflexivity.
Qed.

Lemma unreadable_batch (out : Phase1.out_dir) (f : string * parquet) :
  readable f = false ->
  exists e, Phase1.process_batch out (fst f) (snd f) = (out, Some e).
Proof.
  unfold readable. destruct f as [name [|cols rows]]; simpl.
  - intros _. exists IOException. reflexivity.
  - intro D. exists BinderException.
    unfold Phase1.process_batch, Phase1.query. rewrite D. reflexivity.
Qed.

Lemma process_files_succeeds_iff (files : raw_dir) (out : Phase1.out_dir) :
  (exists out', Phase1.process_files files out = (out', None))
  <-> forallb readable files = true.
Proof.
  revert out. induction files as [|f files IH]; intro out; simpl.
  - split; [reflexivity|]. intros _. exists out. reflexivity.
  - destruct (readable f) eqn:R; simpl.
    + destruct (readable_batch out f R) as [o Ho]. rewrite Ho. apply IH.
    + destruct (unreadable_batch out f R) as [e He]. rewrite He.
      split; [intros [o H]; discriminate H|discriminate].
Qed.

(** X4: [run] returns normally only when every 2025 batch is readable and
    of the dialect its name announces: the first batch that is not makes
    the run raise.  The imputation never does, its errors are swallowed:
    once the batches are processed, [run] returns normally. *)
Theorem run_needs_readable_batches
  (input_dir : string) (raw : raw_dir) (d23 d24 : nat -> Q) :
  ((exists out, Phase1.run input_dir raw d23 d24 = (out, None)) ->
   forallb readable (Phase1.files_2025 raw) = true)
  /\ (forall f, In f (Phase1.files_2025 raw) -> readable f = false ->
        exists out e, Phase1.run input_dir raw d23 d24 = (out, Some e))
  /\ (forall out,
        Phase1.process_files (Phase1.files_2025 raw) Phase1.empty_out
        = (out, None) ->
        exists out', Phase1.run input_dir raw d23 d24 = (out', None)).
Proof.
  assert ((exists out, Phase1.run input_dir raw d23 d24 = (out, None))
          <-> forallb readable (Phase1.files_2025 raw) = true) as Hiff.
  { rewrite <- (process_files_succeeds_iff _ Phase1.empty_out).
    unfold Phase1.run.
    destruct (Phase1.process_files _ _) as [out [e|]].
    - split; intros [o H]; discriminate H.
    - split; intros _; [exists out; reflexivity|].
      destruct (existsb _ _); eexists; reflexivity. }
  split; [apply Hiff|]. split.
  - intros f Hin R.
    destruct (Phase1.run input_dir raw d23 d24) as [out [e|]] eqn:E;
      [exists out, e; reflexivity|].
    assert (forallb readable (Phase1.files_2025 raw) = true) as A
      by (apply Hiff; exists out; reflexivity).
    rewrite forallb_forall in A. rewrite (A f Hin) in R. discriminate R.
  - intros out H. unfold Phase1.run. rewrite H.
    destruct (existsb _ _); eexists; reflexivity.
Qed.


(** ** The output directories after [run] *)

Lemma write_file_names {A : Type} (name : string) (rows : list A) (d : dir A) :
  forall n, In n (map fst (write_file name rows d))
            <-> n = name \/ In n (map fst d).
Proof.
  intro n. unfold write_file. simpl. rewrite !in_map_iff. split.
  - intros [E|[f [<- Hf]]]; [left; congruence|].
    apply filter_In in Hf. right. exists f. tauto.
  - intros [->|[f [<- Hf]]]; [left; reflexivity|].
    destruct (String.eqb (fst f) name) eqn:E.
    + left. apply String.eqb_eq in E. congruence.
    + right. exists f. split; [reflexivity|].
      apply filter_In. rewrite E. auto.
Qed.

Lemma process_files_names (files : raw_dir) :
  forall out0 out,
    Phase1.process_files files out0 = (out, None) ->
    (forall n, In n (map fst (Phase1.clean_data out))
               <-> In n (map fst files) \/ In n (map fst (Phase1.clean_data out0)))
    /\ (forall n, In n (map fst (Phase1.audit_log out))
                  <-> In n (map fst files) \/ In n (map fst (Phase1.audit_log out0))).
Proof.
  induction files as [|f files IH]; intros out0 out H; simpl in H.
  - injection H as <-. simpl. split; intro n; tauto.
  - destruct (Phase1.process_batch out0 (fst f) (snd f)) as [o [e|]] eqn:B;
      [discriminate H|].
    destruct (IH o out H) as [Hc Ha].
    assert (readable f = true) as R.
    { destruct (readable f) eqn:R; [reflexivity|].
      destruct (unreadable_batch out0 f R) as [e He]. congruence. }
    unfold readable in R. destruct f as [name [|cols rows]]; [discriminate R|].
    cbn [fst snd] in *. apply dialect_eqb_eq in R. subst cols.
    rewrite Phase1Facts.process_batch_readable in B. injection B as <-.
    cbn [Phase1.clean_data Phase1.audit_log] in Hc, Ha. split; intro n.
    + rewrite Hc, write_file_names. simpl. intuition congruence.
    + rewrite Ha, write_file_names. simpl. intuition congruence.
Qed.

Lemma glob_2025_not_imputed (name : string) :
  Phase1.glob_2025 name = true -> name <> "imputed_dec_2025.parquet"%string.
Proof. intros H ->. vm_compute in H. discriminate H. Qed.

Lemma files_2025_In (raw : raw_dir) (f : string * parquet) :
  In f (Phase1.files_2025 raw) <-> In f raw /\ Phase1.glob_2025 (fst f) = true.
Proof.
  unfold Phase1.files_2025. rewrite sort_by_In, filter_In. reflexivity.
Qed.

(** X6: When [run] returns normally, the audit directory holds one file per
    2025 batch, under the batch's name, and nothing else; the clean
    directory holds the same names and at most one more,
    [imputed_dec_2025.parquet], which has no audit counterpart. *)
Theorem run_output_names
  (input_dir : string) (raw : raw_dir) (d23 d24 : nat -> Q)
  (out : Phase1.out_dir) :
  Phase1.run input_dir raw d23 d24 = (out, None) ->
  (forall n, In n (map fst (Phase1.audit_log out))
             <-> In n (map fst (Phase1.files_2025 raw)))
  /\ (forall n, In n (map fst (Phase1.files_2025 raw)) ->
                In n (map fst (Phase1.clean_data out)))
  /\ (forall n, In n (map fst (Phase1.clean_data out)) ->
                In n (map fst (Phase1.files_2025 raw))
                \/ n = "imputed_dec_2025.parquet"%string)
  /\ ~ In "imputed_dec_2025.parquet"%string (map fst (Phase1.audit_log out)).
Proof.
  unfold Phase1.run.
  destruct (Phase1.process_files _ _) as [o [e|]] eqn:P; [discriminate|].
  destruct (process_files_names _ _ _ P) as [Hc Ha]. simpl in Hc, Ha.
  assert (~ In "imputed_dec_2025.parquet"%string
            (map fst (Phase1.files_2025 raw))) as Hfresh.
  { intro H. apply in_map_iff in H. destruct H as [f [E Hf]].
    apply files_2025_In in Hf. destruct Hf as [_ G].
    exact (glob_2025_not_imputed _ G E). }
  assert (forall o', Phase1.audit_log o' = Phase1.audit_log o ->
            (forall n, In n (map fst (Phase1.clean_data o')) <->
                       In n (map fst (Phase1.clean_data o))
                       \/ (n = "imputed_dec_2025.parquet"%string
                           /\ o' <> o)) ->
            (o', @None exn) = (out, None) ->
            (forall n, In n (map fst (Phase1.audit_log out))
                       <-> In n (map fst (Phase1.files_2025 raw)))
            /\ (forall n, In n (map fst (Phase1.files_2025 raw)) ->
                          In n (map fst (Phase1.clean_data out)))
            /\ (forall n, In n (map fst (Phase1.clean_data out)) ->
                          In n (map fst (Phase1.files_2025 raw))
                          \/ n = "imputed_dec_2025.parquet"%string)
            /\ ~ In "imputed_dec_2025.parquet"%string
                    (map fst (Phase1.audit_log out))) as Close.
  { intros o' Ea Hn E. injection E as <-. rewrite Ea.
    split; [intro n; rewrite Ha; tauto|].
    split; [intros n Hin; apply Hn; left; apply Hc; tauto|].
    split; [intros n Hin; apply Hn in Hin; rewrite Hc in Hin; tauto|].
    rewrite Ha. tauto. }
  destruct (existsb _ _).
  - apply Close; [reflexivity|]. intro n. tauto.
  - apply Close.
    + unfold Phase1.impute_december.
      destruct (Phase1.impute_sql _ _ _ _); reflexivity.
    + intro n. unfold Phase1.impute_december.
      destruct (Phase1.impute_sql _ _ _ _) as [rows|]; [|tauto].
      cbn [Phase1.clean_data]. rewrite write_file_names.
      split; [|tauto]. intros [->|H]; [|tauto].
      right. split; [reflexivity|]. intro E.
      apply (f_equal (fun x => map fst (Phase1.clean_data x))) in E.
      cbn [Phase1.clean_data] in E.
      assert (In "imputed_dec_2025.parquet"%string
                 (map fst (Phase1.clean_data o))) as Hin.
      { rewrite <- E. apply write_file_names. left. reflexivity. }
      apply Hc in Hin. tauto.
Qed.

Lemma run_output_names_witness :
  exists out,
    Phase1.run "raw_data" raw_without_december_2025 (fun _ => 0%Q) (fun _ => 0%Q)
    = (out, None)
    /\ (forall n, In n (map fst (Phase1.audit_log out))
                  <-> In n (map fst (Phase1.files_2025 raw_without_december_2025)))
    /\ ~ In "imputed_dec_2025.parquet"%string (map fst (Phase1.audit_log out)).
Proof.
  eexists. split; [vm_compute; reflexivity|].
  destruct (run_output_names "raw_data" raw_without_december_2025
              (fun _ => 0%Q) (fun _ => 0%Q) _ Logic.eq_refl) as [H1 [_ [_ H4]]].
  split; [exact H1|exact H4].
Defined.

(** ** When December is imputed, and what the imputed records are *)

Lemma read_files_succeeds_iff (input_dir : string) (files : raw_dir) :
  (exists rows, Phase1.read_files input_dir files = Ok rows)
  <-> forall name, ~ In (name, Corrupt) files.
Proof.
  induction files as [|[name file] files IH]; simpl.
  - split; [intros _ n []|]. intros _. eexists. reflexivity.
  - unfold Phase1.file_rows. cbn [fst snd]. destruct file as [|[|] rows].
    + split; [intros [r H]; discriminate H|].
      intro H. exfalso. apply (H name). left. reflexivity.
    + simpl bind. split.
      * intros [r H] n [E|Hin]; [discriminate E|].
        destruct (Phase1.read_files input_dir files) as [b|]; [|discriminate H].
        apply (proj1 IH (ex_intro _ b Logic.eq_refl) n Hin).
      * intro H. destruct (proj2 IH) as [b Hb].
        { intros n Hin. apply (H n). right. exact Hin. }
        rewrite Hb. eexists. reflexivity.
    + simpl bind. split.
      * intros [r H] n [E|Hin]; [discriminate E|].
        destruct (Phase1.read_files input_dir files) as [b|]; [|discriminate H].
        apply (proj1 IH (ex_intro _ b Logic.eq_refl) n Hin).
      * intro H. destruct (proj2 IH) as [b Hb].
        { intros n Hin. apply (H n). right. exact Hin. }
        rewrite Hb. eexists. reflexivity.
Qed.

Lemma has_cols_iff (c : dialect) (files : raw_dir) :
  Phase1.has_cols c files = true
  <-> exists name rows, In (name, Table c rows) files.
Proof.
  unfold Phase1.has_cols. rewrite existsb_exists. split.
  - intros [[name [|c' rows]] [Hin H]]; simpl in H; [discriminate H|].
    apply dialect_eqb_eq in H. subst. exists name, rows. exact Hin.
  - intros [name [rows Hin]]. exists (name, Table c rows).
    split; [exact Hin|]. simpl. apply dialect_eqb_eq. reflexivity.
Qed.

Lemma read_period_succeeds_iff (input_dir suffix : string) (raw : raw_dir) :
  (exists rows, Phase1.read_period input_dir suffix raw = Ok rows)
  <-> complete_month suffix raw.
Proof.
  unfold Phase1.read_period, complete_month.
  set (files := sort_by Phase1.le_name
                  (filter (fun f => ends_with suffix (fst f)) raw)).
  assert (forall name file, In (name, file) files
                            <-> In (name, file) raw /\ ends_with suffix name = true)
    as Hin by (intros; unfold files; rewrite sort_by_In, filter_In;
               reflexivity).
  assert ((exists rows,
             (rows <- Phase1.read_files input_dir files ;;
              if Phase1.has_cols Yellow files && Phase1.has_cols Green files
              then Ok rows else Raise BinderException) = Ok rows)
          <-> (forall name, ~ In (name, Corrupt) files)
              /\ Phase1.has_cols Yellow files = true
              /\ Phase1.has_cols Green files = true) as Hbody.
  { rewrite <- (read_files_succeeds_iff input_dir). split.
    - intros [rows H].
      destruct (Phase1.read_files input_dir files) as [r|]; [|discriminate H].
      simpl in H.
      destruct (Phase1.has_cols Yellow files), (Phase1.has_cols Green files);
        try discriminate H.
      split; [eexists; reflexivity|split; reflexivity].
    - intros [[r Hr] [Hy Hg]]. rewrite Hr, Hy, Hg. eexists. reflexivity. }
  assert ((forall name, ~ In (name, Corrupt) files)
          /\ Phase1.has_cols Yellow files = true
          /\ Phase1.has_cols Green files = true
          <-> (exists name rows, In (name, Table Yellow rows) raw
                                 /\ ends_with suffix name = true)
              /\ (exists name rows, In (name, Table Green rows) raw
                                    /\ ends_with suffix name = true)
              /\ (forall name, In (name, Corrupt) raw ->
                               ends_with suffix name = false)) as Hspec.
  { rewrite !has_cols_iff. split.
    - intros [Hc [[ny [ry Hy]] [ng [rg Hg]]]].
      apply Hin in Hy, Hg.
      split; [exists ny, ry; exact Hy|]. split; [exists ng, rg; exact Hg|].
      intros name Hraw. destruct (ends_with suffix name) eqn:E; [|reflexivity].
      exfalso. apply (Hc name). apply Hin. auto.
    - intros [[ny [ry Hy]] [[ng [rg Hg]] Hc]].
      split; [|split].
      + intros name H. apply Hin in H. destruct H as [Hraw E].
        rewrite (Hc name Hraw) in E. discriminate E.
      + exists ny, ry. apply Hin. exact Hy.
      + exists ng, rg. apply Hin. exact Hg. }
  rewrite <- Hspec. destruct files as [|f files'] eqn:Ef.
  - split; [intros [r H]; discriminate H|].
    intros [_ [Hy _]]. discriminate Hy.
  - exact Hbody.
Qed.


Lemma using_sample_sub {A : Type} (pct : Q) (draw : nat -> Q) (l : list A) :
  forall i,
    (List.length (Phase1.using_sample pct draw i l) <= List.length l)%nat
    /\ forall x, In x (Phase1.using_sample pct draw i l) -> In x l.
Proof.
  induction l as [|y l IH]; intro i; simpl; [split; [lia|tauto]|].
  destruct (IH (S i)) as [L I].
  destruct (Qlt_bool _ _); simpl; split; try lia.
  - intros x [->|H]; [left; reflexivity|right; exact (I x H)].
  - intros x H. right. exact (I x H).
Qed.



(** Nothing is imputed from a source month that is not complete. *)
Lemma incomplete_month_imputes_nothing (input_dir : string) (raw : raw_dir)
  (d23 d24 : nat -> Q) (out : Phase1.out_dir) :
  ~ (complete_month "_tripdata_2023-12.parquet" raw
     /\ complete_month "_tripdata_2024-12.parquet" raw) ->
  Phase1.impute_december input_dir raw d23 d24 out = out.
Proof.
  intro H. unfold Phase1.impute_december, Phase1.impute_sql.
  destruct (Phase1.read_period input_dir "_tripdata_2023-12.parquet" raw)
    as [a|] eqn:Ea; [|reflexivity].
  destruct (Phase1.read_period input_dir "_tripdata_2024-12.parquet" raw)
    as [b|] eqn:Eb; [|reflexivity].
  exfalso. apply H. split; apply (read_period_succeeds_iff input_dir);
    eexists; eassumption.
Qed.




(** X7: December is imputed only from two complete source months.  When
    the imputation query returns rows, each source month has a yellow and
    a green table and no unreadable file; when a month is not complete,
    [impute_december] returns normally and leaves both directories as
    they were. *)
Theorem december_needs_two_complete_months
  (input_dir : string) (raw : raw_dir) (d23 d24 : nat -> Q)
  (out : Phase1.out_dir) :
  (forall rows,
     Phase1.impute_sql input_dir raw d23 d24 = Ok rows ->
     complete_month "_tripdata_2023-12.parquet" raw
     /\ complete_month "_tripdata_2024-12.parquet" raw)
  /\ (~ (complete_month "_tripdata_2023-12.parquet" raw
         /\ complete_month "_tripdata_2024-12.parquet" raw) ->
      Phase1.impute_december input_dir raw d23 d24 out = out).
Proof.
  split; [|apply incomplete_month_imputes_nothing].
  intros rows H. unfold Phase1.impute_sql in H.
  destruct (Phase1.read_period input_dir "_tripdata_2023-12.parquet" raw)
    as [a|] eqn:Ea; [|discriminate H].
  destruct (Phase1.read_period input_dir "_tripdata_2024-12.parquet" raw)
    as [b|] eqn:Eb; [|discriminate H].
  split; apply (read_period_succeeds_iff input_dir); eexists; eassumption.
Qed.

Lemma december_needs_two_complete_months_witness :
  (complete_month "_tripdata_2023-12.parquet" raw_decembers
   /\ complete_month "_tripdata_2024-12.parquet" raw_decembers)
  /\ Phase1.impute_december "raw_data" raw_without_green_december
       (fun _ => 0%Q) (fun _ => 0%Q) Phase1.empty_out = Phase1.empty_out.
Proof.
  destruct (december_needs_two_complete_months "raw_data" raw_decembers
              (fun _ => 0%Q) (fun _ => 0%Q) Phase1.empty_out) as [H _].
  split; [eapply H; vm_compute; reflexivity|].
  apply (december_needs_two_complete_months "raw_data"
           raw_without_green_december (fun _ => 0%Q) (fun _ => 0%Q)
           Phase1.empty_out).
  intros [[_ [[name [rows [Hin E]]] _]] _]. simpl in Hin.
  destruct Hin as [Hin|[Hin|[Hin|[]]]]; discriminate Hin.
Defined.

Lemma days_within_a_month (y m d d' : Z) :
  days_from_civil y m d - days_from_civil y m d' = d - d'.
Proof. unfold days_from_civil. cbv zeta. lia. Qed.

(** A year shift keeps the length of a trip that starts and ends in the
    same calendar month, 29 February aside. *)
Lemma shift_keeps_duration (n : Z) (p d : timestamp) :
  ts_year p = ts_year d -> ts_month p = ts_month d ->
  ts_day p <= days_in_month (ts_year p + n) (ts_month p) ->
  ts_day d <= days_in_month (ts_year d + n) (ts_month d) ->
  epoch_micros (add_years n d) - epoch_micros (add_years n p)
  = epoch_micros d - epoch_micros p.
Proof.
  intros Hy Hm Hp Hd. unfold epoch_micros, add_years.
  cbn [ts_year ts_month ts_day ts_micros].
  rewrite (Z.min_l _ _ Hp), (Z.min_l _ _ Hd). rewrite Hy, Hm.
  pose proof (days_within_a_month (ts_year d + n) (ts_month d)
                (ts_day d) (ts_day p)) as E1.
  pose proof (days_within_a_month (ts_year d) (ts_month d)
                (ts_day d) (ts_day p)) as E2.
  unfold micros_per_day. lia.
Qed.

Lemma duration_val_of_difference (t t' : trip) (p d p' d' : timestamp) :
  pickup_time t = Some p -> dropoff_time t = Some d ->
  pickup_time t' = Some p' -> dropoff_time t' = Some d' ->
  epoch_micros d - epoch_micros p = epoch_micros d' - epoch_micros p' ->
  Phase1.duration_val t = Phase1.duration_val t'.
Proof.
  intros Hp Hd Hp' Hd' E. unfold Phase1.duration_val.
  rewrite Hp, Hd, Hp', Hd'.
  unfold epoch, nsub, lift_op, lit, option_map. do 2 f_equal.
  unfold Qminus, Qplus, Qopp. cbn [Qnum Qden]. f_equal. lia.
Qed.

(** X9: The imputed records are not classified.  A source row kept by the
    sample is written to the clean directory with the anomaly flags of the
    source trip (for a trip within one calendar month): when the
    classifier would audit the source row, the clean directory holds a
    record that it would audit. *)
Theorem imputation_bypasses_the_classifier
  (input_dir : string) (raw : raw_dir) (d23 d24 : nat -> Q)
  (out : Phase1.out_dir) (a b : list Phase1.union_row)
  (u : Phase1.union_row) (p d : timestamp) (taxi : string) :
  Phase1.read_period input_dir "_tripdata_2023-12.parquet" raw = Ok a ->
  Phase1.read_period input_dir "_tripdata_2024-12.parquet" raw = Ok b ->
  In u (Phase1.using_sample 30 d23 0 a) ->
  raw_pickup (Phase1.columns u) = Some p ->
  raw_dropoff (Phase1.columns u) = Some d ->
  ts_year p = ts_year d -> ts_month p = ts_month d ->
  ts_day p <= days_in_month (ts_year p + 2) (ts_month p) ->
  ts_day d <= days_in_month (ts_year d + 2) (ts_month d) ->
  exists t,
    In t (read_all (Phase1.clean_data
                      (Phase1.impute_december input_dir raw d23 d24 out)))
    /\ Phase1.flagged t
       = Phase1.flagged (Phase1.raw_data taxi (Phase1.columns u)).
Proof.
  intros Ha Hb Hu Hp Hd Hy Hm Hdp Hdd.
  assert (forall (A : Type) pct draw i (l : list A) x,
            In x (Phase1.using_sample pct draw i l) -> In x l) as Hsub.
  { intros A pct draw i l. revert i.
    induction l as [|y l IH]; intros i x; simpl; [tauto|].
    destruct (Qlt_bool _ _); simpl; intros H.
    - destruct H as [->|H]; [left; reflexivity|right; exact (IH _ _ H)].
    - right. exact (IH _ _ H). }
  assert (Phase1.own_timestamps u) as [Op Od].
  { pose proof (read_period_own_timestamps _ _ _ _ Ha) as F.
    rewrite Forall_forall in F. apply F. exact (Hsub _ _ _ _ _ _ Hu). }
  exists (Phase1.shifted 2 u). split.
  - unfold Phase1.impute_december, Phase1.impute_sql. rewrite Ha, Hb.
    simpl bind. cbn [Phase1.clean_data]. unfold write_file, read_all.
    cbn [map snd List.concat]. apply in_or_app. left.
    apply in_or_app. left. apply in_map. exact Hu.
  - rewrite !Phase1Facts.flagged_total. f_equal.
    unfold Phase1.flags_val, Phase1.speed_val.
    assert (Phase1.duration_val (Phase1.shifted 2 u)
            = Phase1.duration_val (Phase1.raw_data taxi (Phase1.columns u)))
      as ->.
    { apply (duration_val_of_difference _ _ (add_years 2 p) (add_years 2 d) p d).
      - unfold Phase1.shifted. cbn [pickup_time]. rewrite Op, Hp. reflexivity.
      - unfold Phase1.shifted. cbn [dropoff_time]. rewrite Od, Hd. reflexivity.
      - exact Hp.
      - exact Hd.
      - apply shift_keeps_duration; assumption. }
    reflexivity.
Qed.

Lemma imputation_bypasses_the_classifier_witness :
  exists t f,
    In t (read_all
            (Phase1.clean_data
               (Phase1.impute_december "raw_data"
                  (("yellow_tripdata_2023-12.parquet"%string,
                    Table Yellow [stationary_december_row]) :: raw_decembers)
                  (fun _ => 0%Q) (fun _ => 0%Q) Phase1.empty_out)))
    /\ Phase1.flagged t = Ok f
    /\ is_true (Phase1.audit_logic f) = true.
Proof.
  destruct (imputation_bypasses_the_classifier "raw_data"
              (("yellow_tripdata_2023-12.parquet"%string,
                Table Yellow [stationary_december_row]) :: raw_decembers)
              (fun _ => 0%Q) (fun _ => 0%Q) Phase1.empty_out _ _
              (Phase1.mkUnion "raw_data/yellow_tripdata_2023-12.parquet"
                 (at_time 2023 12 24 18 0 0) (at_time 2023 12 24 18 10 0)
                 None None stationary_december_row)
              (mkTs 2023 12 24 64800000000) (mkTs 2023 12 24 65400000000)
              "yellow" Logic.eq_refl Logic.eq_refl)
    as [t [Hin Hf]]; try reflexivity.
  - first [left; reflexivity | right; left; reflexivity
          | right; right; left; reflexivity].
  - vm_compute. discriminate.
  - vm_compute. discriminate.
  - exists t. eexists. split; [exact Hin|]. split.
    + rewrite Hf. vm_compute. reflexivity.
    + reflexivity.
Defined.

(** ** Revenue over a directory that holds imputed trips *)

Lemma write_file_fresh {A : Type} (name : string) (rows : list A) (d : dir A) :
  ~ In name (map fst d) -> write_file name rows d = (name, rows) :: d.
Proof.
  intro H. unfold write_file. f_equal.
  induction d as [|f d IH]; simpl; [reflexivity|].
  destruct (String.eqb (fst f) name) eqn:E.
  - exfalso. apply H. left. apply String.eqb_eq. exact E.
  - simpl. f_equal. apply IH. intro Hin. apply H. right. exact Hin.
Qed.

(** X10: [analyze_revenue] counts the imputed trips with the observed ones.
    After a run that imputes December, [total_rides] is the number of
    records the classifier wrote to the clean files plus the number of
    sampled source rows; the audit directory is that of the batches. *)
Theorem revenue_counts_imputed_trips
  (input_dir : string) (raw : raw_dir) (d23 d24 : nat -> Q)
  (out0 : Phase1.out_dir) (rows : list trip) :
  Phase1.process_files (Phase1.files_2025 raw) Phase1.empty_out = (out0, None) ->
  (forall f, In f (Phase1.files_2025 raw) ->
             contains "2025-12" (Phase1.path input_dir (fst f)) = false) ->
  Phase1.impute_sql input_dir raw d23 d24 = Ok rows ->
  exists out,
    Phase1.run input_dir raw d23 d24 = (out, None)
    /\ Revenue.total_rides (Revenue.analyze_revenue (Phase1.clean_data out))
       = Revenue.total_rides (Revenue.analyze_revenue (Phase1.clean_data out0))
         + Z.of_nat (List.length rows)
    /\ Phase1.audit_log out = Phase1.audit_log out0.
Proof.
  intros Hfiles Hno Hsql. unfold Phase1.run. rewrite Hfiles.
  apply existsb_false_iff in Hno. rewrite Hno.
  unfold Phase1.impute_december. rewrite Hsql.
  eexists. split; [reflexivity|]. split; [|reflexivity].
  cbn [Phase1.clean_data].
  rewrite write_file_fresh.
  - unfold Revenue.analyze_revenue, sql_count, read_all.
    cbn [Revenue.total_rides map snd List.concat].
    rewrite length_app. lia.
  - intro Hin.
    destruct (process_files_names _ _ _ Hfiles) as [Hc _].
    apply Hc in Hin. simpl in Hin. destruct Hin as [Hin|[]].
    apply in_map_iff in Hin. destruct Hin as [f [E Hf]].
    apply files_2025_In in Hf. destruct Hf as [_ G].
    exact (glob_2025_not_imputed _ G E).
Qed.

Lemma revenue_counts_imputed_trips_witness :
  exists out,
    Phase1.run "raw_data" raw_without_december_2025 (fun _ => 0%Q) (fun _ => 0%Q)
    = (out, None)
    /\ Revenue.total_rides (Revenue.analyze_revenue (Phase1.clean_data out))
       = 1 + 4.
Proof.
  destruct (revenue_counts_imputed_trips "raw_data" raw_without_december_2025
              (fun _ => 0%Q) (fun _ => 0%Q)
              (fst (Phase1.process_files
                      (Phase1.files_2025 raw_without_december_2025)
                      Phase1.empty_out))
              (map (Phase1.shifted 2)
                 (Phase1.using_sample 30 (fun _ => 0%Q) 0
                    [Phase1.mkUnion "raw_data/green_tripdata_2023-12.parquet"
                       None None
                       (at_time 2023 12 24 18 0 0) (at_time 2023 12 24 18 30 0)
                       (december_row 2023);
                     Phase1.mkUnion "raw_data/yellow_tripdata_2023-12.parquet"
                       (at_time 2023 12 24 18 0 0) (at_time 2023 12 24 18 30 0)
                       None None (december_row 2023)])
               ++ map (Phase1.shifted 1)
                    (Phase1.using_sample 70 (fun _ => 0%Q) 0
                       [Phase1.mkUnion "raw_data/green_tripdata_2024-12.parquet"
                          None None
                          (at_time 2024 12 24 18 0 0) (at_time 2024 12 24 18 30 0)
                          (december_row 2024);
                        Phase1.mkUnion "raw_data/yellow_tripdata_2024-12.parquet"
                          (at_time 2024 12 24 18 0 0) (at_time 2024 12 24 18 30 0)
                          None None (december_row 2024)])))
    as [out [Hrun [Hrides _]]].
  - vm_compute. reflexivity.
  - intros f Hf. vm_compute in Hf. destruct Hf as [<-|[]]. reflexivity.
  - vm_compute. reflexivity.
  - exists out. split; [exact Hrun|]. rewrite Hrides. reflexivity.
Defined.

(** ** The fraud report and the suspicious origins *)

Lemma Zsum_bump {K : Type} (eqb : K -> K -> bool) (k : K) (g : list (K * Z)) :
  Zsum (map snd (bump eqb k g)) = Zsum (map snd g) + 1.
Proof.
  induction g as [|[k' n] g IH]; simpl; [reflexivity|].
  destruct (eqb k k'); unfold Zsum in *; simpl in *; lia.
Qed.

Lemma Zsum_group_count {K : Type} (eqb : K -> K -> bool) (keys : list K) :
  Zsum (map snd (group_count eqb keys)) = Z.of_nat (List.length keys).
Proof.
  unfold group_count. induction keys as [|k keys IH]; [reflexivity|].
  cbn [fold_right]. rewrite Zsum_bump, IH. simpl List.length. lia.
Qed.

Lemma Zsum_Permutation (l l' : list Z) : Permutation l l' -> Zsum l = Zsum l'.
Proof.
  unfold Zsum. induction 1; simpl; lia.
Qed.

Lemma Zsum_app (l l' : list Z) : Zsum (l ++ l') = Zsum l + Zsum l'.
Proof. unfold Zsum. induction l; simpl; lia. Qed.

Lemma Zsum_nonneg (l : list Z) : Forall (fun n => 0 <= n) l -> 0 <= Zsum l.
Proof. unfold Zsum. induction 1; simpl; lia. Qed.

Lemma by_count_desc_total {K : Type} (a b : K * Z) :
  Phase2Analysis.by_count_desc a b = true
  \/ Phase2Analysis.by_count_desc b a = true.
Proof. unfold Phase2Analysis.by_count_desc. rewrite !Z.leb_le. lia. Qed.

Lemma by_count_desc_trans {K : Type} (a b c : K * Z) :
  Phase2Analysis.by_count_desc a b = true ->
  Phase2Analysis.by_count_desc b c = true ->
  Phase2Analysis.by_count_desc a c = true.
Proof. unfold Phase2Analysis.by_count_desc. rewrite !Z.leb_le. lia. Qed.

Lemma StronglySorted_weaken {A : Type} (R R' : A -> A -> Prop) (l : list A) :
  (forall a b, R a b -> R' a b) -> StronglySorted R l -> StronglySorted R' l.
Proof.
  intros H S. induction S as [|a l S IH F]; constructor; [exact IH|].
  rewrite Forall_forall in *. intros x Hx. apply H. exact (F x Hx).
Qed.

(** A grouped and ordered count table: distinct keys, exact positive
    counts, largest first. *)
Lemma ordered_counts {K : Type} (eqb : K -> K -> bool)
  (eqb_eq : forall a b, eqb a b = true <-> a = b) (keys : list K) :
  let table := sort_by Phase2Analysis.by_count_desc (group_count eqb keys) in
  NoDup (map fst table)
  /\ StronglySorted (fun a b => snd b <= snd a) table
  /\ (forall k n, In (k, n) table
                  <-> In k keys /\ n = occurrences eqb k keys)
  /\ Forall (fun p => 0 < snd p) table
  /\ Zsum (map snd table) = Z.of_nat (List.length keys).
Proof.
  intro table.
  assert (Permutation table (group_count eqb keys)) as P
    by apply sort_by_Permutation.
  split; [|split; [|split; [|split]]].
  - apply (Permutation_NoDup (Permutation_sym (Permutation_map fst P))).
    apply (group_count_NoDup eqb eqb_eq).
  - apply (StronglySorted_weaken
             (fun u v => Phase2Analysis.by_count_desc u v = true)).
    + intros a b H. apply Z.leb_le. exact H.
    + apply sort_by_StronglySorted;
        [apply by_count_desc_total|apply by_count_desc_trans].
  - intros k n. unfold table. rewrite sort_by_In.
    apply (group_count_spec eqb eqb_eq).
  - apply (Permutation_Forall (Permutation_sym P)).
    apply group_count_positive.
  - rewrite (Zsum_Permutation _ _ (Permutation_map snd P)).
    apply Zsum_group_count.
Qed.

(** The records the WHERE clause of the two fraud queries keeps. *)
Lemma suspicious_rows (rows : list trip) :
  where_ Phase2Analysis.suspicious rows
  = Ok (filter (fun t => Phase2Analysis.teleporter t
                         || Phase2Analysis.stationary t) rows).
Proof.
  rewrite (where_total _ _ _ suspicious_total). f_equal.
  apply filter_ext. intro t. apply violation_val_cases.
Qed.

(** X11: The fraud report adds up.  Over a clean directory that holds a
    file, its counts sum to the number of records the filter keeps, those
    above 100 mph or stationary with a surcharge; its rows come largest
    first (so the first row is the most common type), and it has at most
    two rows.  Without a file the query raises. *)
Theorem fraud_report_adds_up (clean : dir trip) :
  (clean = [] -> Phase2Analysis.analyze_fraud clean = Raise IOException)
  /\ (clean <> [] ->
      exists report,
        Phase2Analysis.analyze_fraud clean = Ok report
        /\ Zsum (map snd report)
           = Z.of_nat (List.length
                         (filter (fun t => Phase2Analysis.teleporter t
                                           || Phase2Analysis.stationary t)
                                 (read_all clean)))
        /\ StronglySorted (fun a b => snd b <= snd a) report
        /\ (List.length report <= 2)%nat).
Proof.
  split; [intros ->; reflexivity|]. intro NE.
  rewrite (analyze_fraud_total clean NE).
  eexists. split; [reflexivity|].
  set (kept := filter _ (read_all clean)).
  destruct (ordered_counts String.eqb String.eqb_eq
              (map Phase2Analysis.violation_val kept))
    as [Hnd [Hs [Hspec [_ Hsum]]]].
  split.
  { rewrite Hsum, length_map. unfold kept. do 2 f_equal.
    apply filter_ext. intro t. apply violation_val_cases. }
  split; [exact Hs|].
  rewrite <- (length_map fst).
  apply (NoDup_incl_length
           (l' := ["Teleporter (>100mph)"; "Stationary Charge"]%string) Hnd).
  intros k Hk. apply in_map_iff in Hk. destruct Hk as [[k' n] [<- Hin]].
  apply fraud_report_rows in Hin. cbn [fst].
  destruct Hin as [_ [[-> _]|[-> _]]]; [left|right; left]; reflexivity.
Qed.

Lemma Zsum_firstn_le (n : nat) (l : list Z) :
  Forall (fun x => 0 <= x) l -> Zsum (firstn n l) <= Zsum l.
Proof.
  intro H. rewrite <- (firstn_skipn n l) at 2. rewrite Zsum_app.
  assert (0 <= Zsum (skipn n l)); [|lia].
  apply Zsum_nonneg. rewrite Forall_forall in *.
  intros x Hx. apply H. rewrite <- (firstn_skipn n l).
  apply in_or_app. right. exact Hx.
Qed.

Lemma occurrences_absent {K : Type} (eqb : K -> K -> bool)
  (eqb_eq : forall a b, eqb a b = true <-> a = b) (k : K) (keys : list K) :
  ~ In k keys -> occurrences eqb k keys = 0.
Proof.
  unfold occurrences. induction keys as [|a keys IH]; intro H; [reflexivity|].
  simpl. destruct (eqb k a) eqn:E.
  - apply eqb_eq in E. subst. exfalso. apply H. left. reflexivity.
  - apply IH. intro Hin. apply H. right. exact Hin.
Qed.

(** What a LIMIT leaves out exists only when the limit is reached. *)
Lemma firstn_full {A : Type} (n : nat) (l : list A) (x : A) :
  In x (skipn n l) -> List.length (firstn n l) = n.
Proof.
  intro H. apply firstn_length_le.
  assert (List.length (skipn n l) <> 0)%nat as NE
    by (destruct (skipn n l); [destruct H|discriminate]).
  rewrite length_skipn in NE. lia.
Qed.

Lemma firstn_StronglySorted {A : Type} (R : A -> A -> Prop) (n : nat)
  (l : list A) :
  StronglySorted R l -> StronglySorted R (firstn n l).
Proof.
  intro Hs. rewrite <- (firstn_skipn n l) in Hs.
  induction (firstn n l) as [|a f IH]; [constructor|].
  simpl in Hs. apply StronglySorted_inv in Hs. destruct Hs as [Hs Ha].
  constructor; [exact (IH Hs)|].
  rewrite Forall_forall in *. intros x Hx. apply Ha.
  apply in_or_app. left. exact Hx.
Qed.

(** X12: The suspicious origins are a top five.  Over a clean directory
    that holds a file the report has at most five distinct pickup zones,
    largest count first; each count is the number of suspicious records
    picked up in the zone; a zone with a suspicious record is left out
    only when five are listed, and then has no more suspicious records
    than any zone listed.  Without a file the query raises. *)
Theorem suspicious_vendors_are_the_top_five (clean : dir trip) :
  let kept := filter (fun t => Phase2Analysis.teleporter t
                               || Phase2Analysis.stationary t)
                     (read_all clean) in
  (clean = [] ->
   Vendors.analyze_suspicious_vendors clean = Raise IOException)
  /\ (clean <> [] ->
      exists report,
        Vendors.analyze_suspicious_vendors clean = Ok report
        /\ (List.length report <= 5)%nat
        /\ NoDup (map fst report)
        /\ StronglySorted (fun a b => snd b <= snd a) report
        /\ (forall z n, In (z, n) report ->
              0 < n
              /\ n = Z.of_nat (List.length
                                 (filter (fun t => Phase3.zone_eqb z (pickup_loc t))
                                         kept)))
        /\ (forall z, In z (map pickup_loc kept) -> ~ In z (map fst report) ->
              List.length report = 5%nat)
        /\ (forall z, ~ In z (map fst report) ->
              forall row, In row report ->
                Z.of_nat (List.length
                            (filter (fun t => Phase3.zone_eqb z (pickup_loc t))
                                    kept))
                <= snd row)).
Proof.
  intro kept. split; [intros ->; reflexivity|]. intro NE.
  unfold Vendors.analyze_suspicious_vendors.
  rewrite (read_parquet_nonempty clean NE). cbn [bind].
  rewrite suspicious_rows. cbn [bind]. fold kept.
  set (table := sort_by Phase2Analysis.by_count_desc
                  (group_count Phase3.zone_eqb (map pickup_loc kept))).
  destruct (ordered_counts Phase3.zone_eqb zone_eqb_eq (map pickup_loc kept))
    as [Hnd [Hs [Hspec [Hpos _]]]]. fold table in Hnd, Hs, Hspec, Hpos.
  assert (forall z, occurrences Phase3.zone_eqb z (map pickup_loc kept)
                    = Z.of_nat (List.length
                                  (filter (fun t => Phase3.zone_eqb z (pickup_loc t))
                                          kept))) as Hocc.
  { intro z. unfold occurrences. f_equal. apply filter_map_length. }
  assert (forall x, In x (firstn 5 table) -> In x table) as Hsub.
  { intros x Hx. rewrite <- (firstn_skipn 5 table).
    apply in_or_app. left. exact Hx. }
  assert (forall z, In z (map pickup_loc kept) ->
            ~ In z (map fst (firstn 5 table)) ->
            In (z, occurrences Phase3.zone_eqb z (map pickup_loc kept))
               (skipn 5 table)) as Hskip.
  { intros z Hin Hout.
    assert (In (z, occurrences Phase3.zone_eqb z (map pickup_loc kept)) table)
      as Ht by (apply Hspec; auto).
    rewrite <- (firstn_skipn 5 table) in Ht. apply in_app_or in Ht.
    destruct Ht as [Ht|Ht]; [|exact Ht].
    exfalso. apply Hout. apply in_map_iff.
    eexists. split; [|exact Ht]. reflexivity. }
  exists (firstn 5 table).
  split; [reflexivity|]. split; [apply firstn_le_length|].
  split.
  { rewrite <- (firstn_skipn 5 table) in Hnd. rewrite map_app in Hnd.
    exact (NoDup_app_remove_r _ _ Hnd). }
  split; [apply firstn_StronglySorted; exact Hs|].
  split; [|split].
  - intros z n Hin. apply Hsub in Hin. split.
    + rewrite Forall_forall in Hpos. exact (Hpos _ Hin).
    + apply Hspec in Hin. destruct Hin as [_ ->]. apply Hocc.
  - intros z Hin Hout. exact (firstn_full 5 table _ (Hskip z Hin Hout)).
  - intros z Hout row Hrow. rewrite <- Hocc.
    assert (forall a b : option Z, {a = b} + {a <> b}) as dec
      by (decide equality; apply Z.eq_dec).
    destruct (in_dec dec z (map pickup_loc kept)) as [Hin|Hnin].
    + assert (StronglySorted
                (fun u v => Phase2Analysis.by_count_desc u v = true) table)
        as Hs'.
      { apply sort_by_StronglySorted;
          [apply by_count_desc_total|apply by_count_desc_trans]. }
      pose proof (firstn_dominates _ 5 table Hs' _ _ Hrow (Hskip z Hin Hout))
        as D.
      unfold Phase2Analysis.by_count_desc in D. apply Z.leb_le in D.
      exact D.
    + assert (occurrences Phase3.zone_eqb z (map pickup_loc kept) = 0) as ->.
      { apply (occurrences_absent _ zone_eqb_eq). exact Hnin. }
      apply Hsub in Hrow. rewrite Forall_forall in Hpos.
      specialize (Hpos _ Hrow). lia.
Qed.

(** X13: The two fraud reports agree: over a clean directory that holds a
    file both are produced, and the counts of the suspicious origins never
    add up to more than the total of the fraud report. *)
Theorem suspicious_vendors_within_fraud_total (clean : dir trip) :
  clean <> [] ->
  exists report vendors,
    Phase2Analysis.analyze_fraud clean = Ok report
    /\ Vendors.analyze_suspicious_vendors clean = Ok vendors
    /\ Zsum (map snd vendors) <= Zsum (map snd report).
Proof.
  intro NE. unfold Vendors.analyze_suspicious_vendors.
  rewrite (analyze_fraud_total clean NE), (read_parquet_nonempty clean NE).
  cbn [bind]. rewrite (where_total _ _ _ suspicious_total).
  cbn [bind]. set (kept := filter _ (read_all clean)).
  eexists. eexists. split; [reflexivity|]. split; [reflexivity|].
  destruct (ordered_counts String.eqb String.eqb_eq
              (map Phase2Analysis.violation_val kept))
    as [_ [_ [_ [_ Hsum]]]].
  destruct (ordered_counts Phase3.zone_eqb zone_eqb_eq (map pickup_loc kept))
    as [_ [_ [_ [Hpos Htot]]]].
  cbv zeta in Hsum, Hpos, Htot.
  rewrite Hsum, length_map, <- (length_map pickup_loc), <- Htot.
  rewrite <- (firstn_map snd). apply Zsum_firstn_le.
  rewrite Forall_forall in *. intros x Hx.
  apply in_map_iff in Hx. destruct Hx as [q [<- Hq]].
  specialize (Hpos q Hq). simpl in Hpos. lia.
Qed.

Lemma suspicious_vendors_within_fraud_total_witness :
  exists report vendors,
    Phase2Analysis.analyze_fraud
      [("yellow_tripdata_2025-02.parquet"%string,
        [Phase1.raw_data "yellow" fast_short_row; threshold_trip;
         zero_duration_trip])] = Ok report
    /\ Vendors.analyze_suspicious_vendors
         [("yellow_tripdata_2025-02.parquet"%string,
           [Phase1.raw_data "yellow" fast_short_row; threshold_trip;
            zero_duration_trip])] = Ok vendors
    /\ Zsum (map snd vendors) <= Zsum (map snd report).
Proof.
  apply (suspicious_vendors_within_fraud_total
           [("yellow_tripdata_2025-02.parquet"%string,
             [Phase1.raw_data "yellow" fast_short_row; threshold_trip;
              zero_duration_trip])]).
  discriminate.
Defined.

(** ** Leakage: compliant, missed and negative surcharges *)

Lemma surcharge_cases (t : trip) :
  Phase2Impact.compliant t + LeakyOrigins.missed t
  + (if is_true (lt3 (congestion_surcharge t) (lit 0)) then 1 else 0) = 1.
Proof.
  unfold Phase2Impact.compliant, LeakyOrigins.missed.
  destruct (congestion_surcharge t) as [x|]; [|reflexivity].
  unfold gt3, lt3, eq3, lift_cmp, lit. rewrite or3_Some. cbn [is_true orb].
  destruct (Q_dec x (inject_Z 0)) as [[Lt|Gt]|E].
  - rewrite (proj2 (Qlt_bool_iff _ _) Lt).
    replace (Qlt_bool (inject_Z 0) x) with false.
    2:{ symmetry. apply Qlt_bool_false_iff. apply Qlt_le_weak. exact Lt. }
    replace (Qeq_bool x (inject_Z 0)) with false; [reflexivity|].
    symmetry. destruct (Qeq_bool x (inject_Z 0)) eqn:B; [|reflexivity].
    apply Qeq_bool_iff in B. rewrite B in Lt. exfalso. exact (Qlt_irrefl _ Lt).
  - rewrite (proj2 (Qlt_bool_iff _ _) Gt).
    replace (Qlt_bool x (inject_Z 0)) with false.
    2:{ symmetry. apply Qlt_bool_false_iff. apply Qlt_le_weak. exact Gt. }
    replace (Qeq_bool x (inject_Z 0)) with false; [reflexivity|].
    symmetry. destruct (Qeq_bool x (inject_Z 0)) eqn:B; [|reflexivity].
    apply Qeq_bool_iff in B. rewrite B in Gt. exfalso. exact (Qlt_irrefl _ Gt).
  - rewrite (proj2 (Qeq_bool_iff _ _) E).
    replace (Qlt_bool (inject_Z 0) x) with false.
    2:{ symmetry. apply Qlt_bool_false_iff. rewrite E. apply Qle_refl. }
    replace (Qlt_bool x (inject_Z 0)) with false; [reflexivity|].
    symmetry. apply Qlt_bool_false_iff. rewrite E. apply Qle_refl.
Qed.

(** X14: The two leakage queries split the eligible trips three ways: a trip
    is compliant (surcharge above 0), missed (surcharge NULL or 0) or has a
    negative surcharge, and exactly one of the three.  The non-compliant
    trips behind [estimated_revenue_loss] are therefore the missed ones
    of the leaky-origin query together with the negative ones. *)
Theorem eligible_trips_split_three_ways (clean : dir trip) :
  let trips := Phase2Impact.eligible_trips clean in
  sql_count trips
  = Zsum (map Phase2Impact.compliant trips)
    + Zsum (map LeakyOrigins.missed trips)
    + Z.of_nat (List.length
                  (filter (fun t => is_true (lt3 (congestion_surcharge t) (lit 0)))
                          trips)).
Proof.
  intro trips. unfold sql_count.
  rewrite <- (Zsum_indicator
                (fun t => is_true (lt3 (congestion_surcharge t) (lit 0))) trips).
  clearbody trips. induction trips as [|t l IH]; [reflexivity|].
  pose proof (surcharge_cases t) as C.
  unfold Zsum in *. simpl map. simpl fold_right. simpl List.length. lia.
Qed.

(** ** The leaky origins *)

Section SortingOn.
Context {A : Type} (le : A -> A -> bool).

Lemma insert_by_Sorted_on (x : A) (l : list A) :
  (forall y, In y l -> le x y = true \/ le y x = true) ->
  Sorted (fun u v => le u v = true) l ->
  Sorted (fun u v => le u v = true) (insert_by le x l).
Proof.
  induction l as [|y l IH]; simpl; intros T H.
  - repeat constructor.
  - destruct (le x y) eqn:E.
    + constructor; [exact H|constructor; exact E].
    + inversion H as [|? ? Hs Hh]; subst.
      constructor; [apply IH; [intros z Hz; apply T; right; exact Hz|exact Hs]|].
      assert (le y x = true) as Hyx
        by (destruct (T y (or_introl Logic.eq_refl)); congruence).
      destruct l as [|z l]; simpl.
      * constructor. exact Hyx.
      * destruct (le x z); constructor; [exact Hyx|].
        inversion Hh; assumption.
Qed.

Lemma sort_by_Sorted_on (l : list A) :
  (forall a b, In a l -> In b l -> le a b = true \/ le b a = true) ->
  Sorted (fun u v => le u v = true) (sort_by le l).
Proof.
  unfold sort_by. induction l as [|x l IH]; simpl; intro T; [constructor|].
  apply insert_by_Sorted_on.
  - intros y Hy. apply T; [left; reflexivity|right].
    exact (proj1 (sort_by_In le y l) Hy).
  - apply IH. intros a b Ha Hb. apply T; right; assumption.
Qed.

End SortingOn.

Lemma leaky_row_total (g : option Z * list trip) :
  snd g <> [] -> LeakyOrigins.leaky_row g = Ok (LeakyOrigins.leaky_val g).
Proof.
  intro NE. unfold LeakyOrigins.leaky_row, LeakyOrigins.leaky_val.
  rewrite pct_of_total; [reflexivity|].
  unfold sql_count. destruct (snd g); [congruence|simpl; lia].
Qed.

Lemma by_missed_desc_trans (a b c : LeakyOrigins.leaky) :
  LeakyOrigins.by_missed_desc a b = true ->
  LeakyOrigins.by_missed_desc b c = true ->
  LeakyOrigins.by_missed_desc a c = true.
Proof.
  unfold LeakyOrigins.by_missed_desc.
  destruct (LeakyOrigins.missed_surcharges a),
    (LeakyOrigins.missed_surcharges b),
    (LeakyOrigins.missed_surcharges c); try discriminate; try reflexivity.
  rewrite !Z.leb_le. lia.
Qed.

Lemma missed_bounds (l : list trip) :
  0 <= Zsum (map LeakyOrigins.missed l) <= sql_count l.
Proof.
  unfold sql_count. induction l as [|a l IH]; [simpl; lia|].
  unfold Zsum in *. simpl map. simpl fold_right. simpl List.length.
  unfold LeakyOrigins.missed at 1 3.
  destruct (is_true _); lia.
Qed.

(** X15: The leaky origins.  Over a clean directory that holds a file the
    query returns at most three rows, largest missed count first.  Each
    row is a pickup zone outside the congestion zone with more than 50
    eligible trips; its [total_trips] is the number of eligible trips
    picked up there, its missed count the number of those with a NULL or
    zero surcharge, and its rate the DOUBLE quotient of the missed count
    times 100 by the total.  A zone with more than 50 eligible trips is
    left out only when three are listed, and then misses no more
    surcharges than any zone listed.  Without a file the query raises. *)
Theorem leaky_origins_are_bounded (clean : dir trip) :
  let from z := filter (fun t => Phase3.zone_eqb (Some z) (pickup_loc t))
                       (Phase2Impact.eligible_trips clean) in
  (clean = [] -> LeakyOrigins.top3_leakage_locs clean = Raise IOException)
  /\ (clean <> [] ->
      exists rows,
        LeakyOrigins.top3_leakage_locs clean = Ok rows
        /\ (List.length rows <= 3)%nat
        /\ StronglySorted
             (fun a b => LeakyOrigins.by_missed_desc a b = true) rows
        /\ (forall r, In r rows ->
              exists z m,
                LeakyOrigins.origin r = Some z
                /\ ~ In z CONGESTION_ZONE_IDS
                /\ LeakyOrigins.total_trips r
                   = Z.of_nat (List.length (from z))
                /\ 50 < LeakyOrigins.total_trips r
                /\ LeakyOrigins.missed_surcharges r = Some m
                /\ m = Zsum (map LeakyOrigins.missed (from z))
                /\ 0 <= m <= LeakyOrigins.total_trips r
                /\ LeakyOrigins.leakage_rate_pct r
                   = Some (SFdiv Double.prec Double.emax
                             (Double.of_Z (m * 100))
                             (Double.of_Z (LeakyOrigins.total_trips r))))
        /\ (forall z, 50 < Z.of_nat (List.length (from z)) ->
              ~ In (Some z) (map LeakyOrigins.origin rows) ->
              List.length rows = 3%nat
              /\ forall r, In r rows ->
                   exists m, LeakyOrigins.missed_surcharges r = Some m
                             /\ Zsum (map LeakyOrigins.missed (from z)) <= m)).
Proof.
  intro from. split; [intros ->; reflexivity|]. intro NE.
  unfold LeakyOrigins.top3_leakage_locs.
  rewrite (read_parquet_nonempty clean NE). cbn [bind].
  fold (Phase2Impact.eligible_trips clean).
  set (trips := Phase2Impact.eligible_trips clean).
  set (groups := filter _ (group_by Phase3.zone_eqb pickup_loc trips)).
  assert (forall g, In g groups ->
            In (fst g) (map pickup_loc trips)
            /\ snd g = filter (fun t => Phase3.zone_eqb (fst g) (pickup_loc t)) trips
            /\ snd g <> []
            /\ 50 < sql_count (snd g)) as Hg.
  { intros [k l] H. apply filter_In in H. destruct H as [H C].
    cbn [fst snd] in *. apply Z.ltb_lt in C.
    pose proof (group_by_nonempty _ _ zone_eqb_eq _ _ _ H) as NE'.
    apply (group_by_spec _ _ zone_eqb_eq) in H. tauto. }
  rewrite (mapM_total_on _ LeakyOrigins.leaky_val).
  2:{ intros g Hin. apply leaky_row_total. apply (Hg g Hin). }
  cbn [bind].
  assert (forall g, In g groups ->
            LeakyOrigins.missed_surcharges (LeakyOrigins.leaky_val g)
            = Some (Zsum (map LeakyOrigins.missed (snd g)))) as Hval.
  { intros g Hin. destruct (Hg g Hin) as [_ [_ [NE' _]]].
    unfold LeakyOrigins.leaky_val. cbn [LeakyOrigins.missed_surcharges].
    apply (sql_sum_nonempty _ _ NE'). }
  assert (forall r, In r (map LeakyOrigins.leaky_val groups) ->
            exists m, LeakyOrigins.missed_surcharges r = Some m) as Hsome.
  { intros r Hr. apply in_map_iff in Hr. destruct Hr as [g [<- Hin]].
    eexists. apply (Hval g Hin). }
  set (sorted := sort_by LeakyOrigins.by_missed_desc
                   (map LeakyOrigins.leaky_val groups)).
  assert (StronglySorted (fun a b => LeakyOrigins.by_missed_desc a b = true)
            sorted) as Hs.
  { apply Sorted_StronglySorted; [intros a b c; apply by_missed_desc_trans|].
    apply sort_by_Sorted_on. intros a b Ha Hb.
    destruct (Hsome a Ha) as [x Hx]. destruct (Hsome b Hb) as [y Hy].
    unfold LeakyOrigins.by_missed_desc. rewrite Hx, Hy, !Z.leb_le. lia. }
  assert (forall r, In r (firstn 3 sorted) ->
            exists g, In g groups /\ r = LeakyOrigins.leaky_val g) as Hrow.
  { intros r Hr.
    assert (In r sorted) as Hin.
    { rewrite <- (firstn_skipn 3 sorted). apply in_or_app. left. exact Hr. }
    unfold sorted in Hin. apply sort_by_In in Hin.
    apply in_map_iff in Hin. destruct Hin as [g [<- Hin]].
    exists g. split; [exact Hin|reflexivity]. }
  exists (firstn 3 sorted).
  split; [reflexivity|]. split; [apply firstn_le_length|].
  split; [apply firstn_StronglySorted; exact Hs|]. split.
  - intros r Hr. destruct (Hrow r Hr) as [[k l] [Hin ->]].
    pose proof (Hval _ Hin) as Hm.
    destruct (Hg _ Hin) as [Hk [Hl [NE' C]]]. cbn [fst snd] in *.
    apply in_map_iff in Hk. destruct Hk as [t [Hkt Ht]].
    unfold trips, Phase2Impact.eligible_trips in Ht.
    apply filter_In in Ht. destruct Ht as [_ El].
    apply eligible_iff in El.
    destruct El as [p [pz [dz [_ [_ [Hpz [Hout _]]]]]]].
    rewrite Hpz in Hkt. subst k.
    exists pz, (Zsum (map LeakyOrigins.missed l)).
    split; [reflexivity|]. split; [exact Hout|].
    split.
    { unfold LeakyOrigins.leaky_val. cbn [LeakyOrigins.total_trips snd].
      unfold sql_count, from. fold trips. rewrite Hl at 1. reflexivity. }
    split; [exact C|]. split; [exact Hm|].
    split; [unfold from; fold trips; rewrite Hl at 1; reflexivity|].
    split; [apply missed_bounds|].
    unfold LeakyOrigins.leaky_val.
    cbn [LeakyOrigins.leakage_rate_pct LeakyOrigins.total_trips fst snd].
    rewrite (sql_sum_nonempty _ _ NE'). reflexivity.
  - intros z Hz Hout.
    assert (In (Some z, from z) groups) as Hin.
    { apply filter_In. split.
      - apply (group_by_spec _ _ zone_eqb_eq). cbn [fst snd]. split.
        + unfold from in Hz. fold trips in Hz.
          destruct (filter (fun t => Phase3.zone_eqb (Some z) (pickup_loc t))
                           trips) as [|t f] eqn:E; [simpl in Hz; lia|].
          assert (In t (t :: f)) as Ht by (left; reflexivity).
          rewrite <- E in Ht. apply filter_In in Ht. destruct Ht as [Ht Hk].
          apply zone_eqb_eq in Hk. rewrite Hk.
          apply in_map. exact Ht.
        + reflexivity.
      - cbn [snd]. apply Z.ltb_lt. exact Hz. }
    assert (In (LeakyOrigins.leaky_val (Some z, from z)) (skipn 3 sorted))
      as Hsk.
    { assert (In (LeakyOrigins.leaky_val (Some z, from z)) sorted) as Ht.
      { unfold sorted. apply sort_by_In. apply in_map. exact Hin. }
      rewrite <- (firstn_skipn 3 sorted) in Ht. apply in_app_or in Ht.
      destruct Ht as [Ht|Ht]; [|exact Ht].
      exfalso. apply Hout. apply in_map_iff.
      eexists. split; [|exact Ht]. reflexivity. }
    split; [exact (firstn_full 3 sorted _ Hsk)|].
    intros r Hr.
    pose proof (firstn_dominates _ 3 sorted Hs _ _ Hr Hsk) as D.
    destruct (Hrow r Hr) as [g [Hgin ->]].
    unfold LeakyOrigins.by_missed_desc in D.
    rewrite (Hval _ Hgin), (Hval _ Hin) in D. cbn [snd] in D.
    apply Z.leb_le in D.
    exists (Zsum (map LeakyOrigins.missed (snd g))).
    split; [apply (Hval _ Hgin)|exact D].
Qed.

(** ** The quarter comparison *)

Lemma border_effect_reads_the_baseline (raw : raw_dir) (clean : dir trip) :
  (exists rows, Phase3.border_effect raw clean = Ok rows)
  <-> (exists rows24, Phase3.read_list Phase3.q1_2024_files raw = Ok rows24)
      /\ clean <> [].
Proof.
  split.
  - intros [rows H]. unfold Phase3.border_effect, Phase3.q_24, Phase3.q_25 in H.
    destruct (Phase3.read_list Phase3.q1_2024_files raw) as [r|];
      [|discriminate H].
    split; [eexists; reflexivity|].
    intros ->. discriminate H.
  - intros [[rows24 H] NE].
    rewrite (border_effect_value raw clean rows24 H NE).
    eexists. reflexivity.
Qed.

(** X16: The quarter comparison and the border effect stand on the same six
    baseline files.  [compare_q1_decline] writes its table exactly when
    the border-effect query does not raise, and never raises itself; the
    table then has the two rows '2024 Q1' and '2025 Q1', whose counts are
    not negative, the second being at most the number of clean records. *)
Theorem quarter_comparison_needs_the_baseline (raw : raw_dir) (clean : dir trip) :
  (Q1Decline.csv (Q1Decline.compare_q1_decline raw clean) = None
   <-> exists e, Phase3.border_effect raw clean = Raise e)
  /\ (forall table,
        Q1Decline.csv (Q1Decline.compare_q1_decline raw clean) = Some table ->
        exists vol_24 vol_25,
          table = [(vol_24, "2024 Q1"); (vol_25, "2025 Q1")]%string
          /\ 0 <= vol_24
          /\ 0 <= vol_25 <= sql_count (read_all clean)
          /\ Q1Decline.printed (Q1Decline.compare_q1_decline raw clean)
             = Some (Q1Decline.drop_pct vol_24 vol_25)).
Proof.
  unfold Q1Decline.compare_q1_decline, Q1Decline.q1_2024, Q1Decline.q1_2025.
  split.
  - pose proof (border_effect_reads_the_baseline raw clean) as B.
    destruct (Phase3.read_list Phase3.q1_2024_files raw) as [r|e] eqn:R;
      cbn [bind Q1Decline.csv].
    + destruct clean as [|f clean]; cbn [read_parquet bind Q1Decline.csv].
      * split; [|reflexivity]. intros _.
        destruct (Phase3.border_effect raw []) as [rows|e'] eqn:E;
          [|eexists; reflexivity].
        destruct (proj1 B (ex_intro _ rows Logic.eq_refl)) as [_ NE].
        congruence.
      * split; [discriminate|]. intros [e He].
        destruct (proj2 B) as [rows Hr];
          [split; [eexists; reflexivity|discriminate]|].
        congruence.
    + split; [|reflexivity]. intros _.
      destruct (Phase3.border_effect raw clean) as [rows|e'] eqn:E;
        [|eexists; reflexivity].
      destruct (proj1 B (ex_intro _ rows Logic.eq_refl)) as [[r Hr] _].
      discriminate Hr.
  - intros table.
    destruct (Phase3.read_list Phase3.q1_2024_files raw) as [r|e];
      cbn [bind Q1Decline.csv Q1Decline.printed]; [|discriminate].
    destruct clean as [|f clean];
      cbn [read_parquet bind Q1Decline.csv Q1Decline.printed]; [discriminate|].
    intro H. injection H as <-. eexists. eexists.
    split; [reflexivity|]. unfold sql_count.
    split; [lia|]. split; [|reflexivity].
    split; [lia|]. apply inj_le. apply filter_length_le.
Qed.

(** X17: The report's verdict on the two counts of the comparison: "SUCCESS"
    exactly when the 2025 count is below the 2024 count.  An unchanged
    volume, and an empty baseline, read "FAILURE (Traffic Increased)". *)
Theorem verdict_is_success_iff_volume_fell (vol_24 vol_25 : Z) :
  0 <= vol_24 -> 0 <= vol_25 ->
  (Q1Decline.verdict vol_24 vol_25 = "SUCCESS"%string <-> vol_25 < vol_24)
  /\ (Q1Decline.verdict vol_24 vol_25 = "FAILURE (Traffic Increased)"%string
      <-> vol_24 <= vol_25).
Proof.
  intros H24 H25. unfold Q1Decline.verdict, Q1Decline.drop_pct.
  destruct (vol_24 =? 0) eqn:Z0.
  - apply Z.eqb_eq in Z0. subst. split; split; try discriminate; try lia.
    reflexivity.
  - apply Z.eqb_neq in Z0.
    assert (Qlt_bool (inject_Z (vol_25 - vol_24) / inject_Z vol_24 * 100) 0
            = (vol_25 <? vol_24)) as ->.
    { destruct vol_24 as [|p|p]; try lia.
      destruct (vol_25 <? Z.pos p) eqn:L.
      - apply Z.ltb_lt in L. apply Qlt_bool_iff.
        unfold Qlt, Qdiv, Qmult, Qinv, inject_Z. simpl. nia.
      - apply Z.ltb_ge in L. apply Qlt_bool_false_iff.
        unfold Qle, Qdiv, Qmult, Qinv, inject_Z. simpl. nia. }
    destruct (vol_25 <? vol_24) eqn:L.
    + apply Z.ltb_lt in L. split; split; try discriminate; try lia.
      reflexivity.
    + apply Z.ltb_ge in L. split; split; try discriminate; try lia.
      reflexivity.
Qed.

Lemma verdict_is_success_iff_volume_fell_witness :
  Q1Decline.verdict 1000 800 = "SUCCESS"%string
  /\ Q1Decline.verdict 800 800 = "FAILURE (Traffic Increased)"%string.
Proof.
  split.
  - apply (verdict_is_success_iff_volume_fell 1000 800); lia.
  - apply (verdict_is_success_iff_volume_fell 800 800); lia.
Defined.

(** ** The velocity heat maps *)

Lemma Qsum_positive (xs : list Q) :
  xs <> [] -> Forall (fun x => (0 < x)%Q) xs -> (0 < Qsum xs)%Q.
Proof.
  intros NE F. induction F as [|x l Hx F IH]; [congruence|].
  unfold Qsum in *. simpl. destruct l as [|y l].
  - simpl. rewrite Qplus_0_r. exact Hx.
  - apply (Qlt_le_trans _ (x + 0)%Q); [rewrite Qplus_0_r; exact Hx|].
    apply Qplus_le_r. apply Qlt_le_weak. apply IH. discriminate.
Qed.

Lemma sql_avg_positive (l : list num) :
  l <> [] -> Forall (fun v => exists x, v = Some x /\ (0 < x)%Q) l ->
  exists a, sql_avg l = Some a /\ (0 < a)%Q.
Proof.
  intros NE F. unfold sql_avg.
  assert (non_null l <> [] /\ Forall (fun x => (0 < x)%Q) (non_null l)) as [N P].
  { revert NE. induction F as [|v l [x [-> Hx]] F IH]; intro NE.
    - destruct (NE Logic.eq_refl).
    - change (non_null (Some x :: l)) with (x :: non_null l).
      split; [discriminate|]. constructor; [exact Hx|].
      destruct l as [|w l]; [constructor|].
      apply (proj2 (IH ltac:(discriminate))). }
  destruct (non_null l) as [|x xs] eqn:E; [congruence|].
  eexists. split; [reflexivity|].
  apply Qlt_shift_div_l.
  - change 0%Q with (inject_Z 0). rewrite <- Zlt_Qlt. simpl List.length. lia.
  - rewrite Qmult_0_l. apply Qsum_positive; [discriminate|exact P].
Qed.

Lemma measurable_mph (t : trip) :
  Velocity.measurable t ->
  Velocity.mph t = Ok (Velocity.mph_val t)
  /\ exists v, Velocity.mph_val t = Some v /\ (0 < v)%Q.
Proof.
  intros [p [x [s [_ [Hx [Lx [Hs Ls]]]]]]].
  assert (0 < s)%Q as Ps by (apply (Qlt_trans _ 60); [reflexivity|exact Ls]).
  unfold Velocity.mph, Velocity.mph_val. rewrite Hx, Hs. split.
  - rewrite ndiv_nonzero; [reflexivity|].
    destruct (Qeq_bool s 0) eqn:E; [|reflexivity].
    apply Qeq_bool_iff in E. rewrite E in Ps. exfalso. exact (Qlt_irrefl _ Ps).
  - eexists. split; [reflexivity|].
    apply Qmult_lt_0_compat; [|reflexivity].
    apply Qlt_shift_div_l; [exact Ps|]. rewrite Qmult_0_l.
    apply (Qlt_trans _ (1 # 2)); [reflexivity|exact Lx].
Qed.

Lemma qualifies_measurable (t : trip) :
  is_true (Velocity.qualifies t) = true -> Velocity.measurable t.
Proof.
  unfold Velocity.qualifies. rewrite !is_true_and3, !andb_true_iff.
  intros [[[_ Hm] Hx] Hs].
  apply in_list_true_iff in Hm. destruct Hm as [m [Hm _]].
  destruct (pickup_time t) as [p|] eqn:Ep; [|discriminate Hm].
  destruct (trip_distance t) as [x|] eqn:Ex; [|discriminate Hx].
  apply (gt3_true_iff _ 60) in Hs. destruct Hs as [s [Es Ls]].
  exists p, x, s.
  split; [exact Ep|]. split; [exact Ex|]. split; [|split; assumption].
  simpl in Hx. destruct (Qlt_bool (1 # 2) x) eqn:L; [|discriminate Hx].
  apply Qlt_bool_iff. exact L.
Qed.

Lemma qualifies_24_measurable (t : trip) :
  is_true (Velocity.qualifies_24 t) = true -> Velocity.measurable t.
Proof.
  unfold Velocity.qualifies_24. rewrite !is_true_and3, !andb_true_iff.
  intros [[_ Hx] Hs].
  destruct (trip_distance t) as [x|] eqn:Ex; [|discriminate Hx].
  apply (gt3_true_iff _ 60) in Hs. destruct Hs as [s [Es Ls]].
  assert (exists p, pickup_time t = Some p) as [p Hp].
  { unfold Velocity.seconds in Es. destruct (pickup_time t) as [p|].
    - exists p. reflexivity.
    - destruct (dropoff_time t); discriminate Es. }
  exists p, x, s.
  split; [exact Hp|]. split; [exact Ex|]. split; [|split; assumption].
  simpl in Hx. destruct (Qlt_bool (1 # 2) x) eqn:L; [|discriminate Hx].
  apply Qlt_bool_iff. exact L.
Qed.

Lemma isodow_range (p : timestamp) : 1 <= Velocity.isodow p <= 7.
Proof.
  unfold Velocity.isodow.
  pose proof (Z.mod_pos_bound
                (days_from_civil (ts_year p) (ts_month p) (ts_day p) + 3) 7).
  lia.
Qed.

Lemma cell_eqb_eq (a b : option Z * option Z) :
  Velocity.cell_eqb a b = true <-> a = b.
Proof.
  unfold Velocity.cell_eqb. destruct a as [a1 a2], b as [b1 b2]. simpl.
  rewrite andb_true_iff, !zone_eqb_eq. split; [intros [-> ->]|intro E].
  - reflexivity.
  - injection E as -> ->. auto.
Qed.

(** The frame of measurable trips: one row per weekday and hour that has a
    trip, with the mean of the speeds, which is positive. *)
Lemma heat_of_total (rows : list trip) :
  Forall Velocity.measurable rows ->
  Velocity.heat_of rows
  = Ok (map Velocity.heat_val
          (group_by Velocity.cell_eqb Velocity.cell_of rows)).
Proof.
  intro F. unfold Velocity.heat_of. apply mapM_total_on.
  intros [k l] Hg. cbn [fst snd].
  apply (group_by_spec _ _ cell_eqb_eq) in Hg. destruct Hg as [_ ->].
  rewrite (mapM_total_on _ Velocity.mph_val); [reflexivity|].
  intros t Ht. apply filter_In in Ht. destruct Ht as [Ht _].
  rewrite Forall_forall in F. apply measurable_mph. exact (F t Ht).
Qed.

Lemma heat_rows (rows : list trip) (h : Velocity.heat) :
  Forall Velocity.measurable rows ->
  In h (map Velocity.heat_val
          (group_by Velocity.cell_eqb Velocity.cell_of rows)) ->
  exists t p v,
    In t rows /\ pickup_time t = Some p
    /\ Velocity.day_num h = Some (Velocity.isodow p)
    /\ Velocity.hour_num h = Some (Velocity.hour_of p)
    /\ Velocity.avg_speed h = Some v /\ (0 < v)%Q.
Proof.
  intros F Hh. rewrite Forall_forall in F.
  apply in_map_iff in Hh. destruct Hh as [[k l] [<- Hg]].
  pose proof (group_by_nonempty _ _ cell_eqb_eq _ _ _ Hg) as NE.
  apply (group_by_spec _ _ cell_eqb_eq) in Hg. destruct Hg as [Hk Hl].
  apply in_map_iff in Hk. destruct Hk as [t [Hkt Ht]].
  destruct (F t Ht) as [p [x [s [Hp _]]]].
  destruct (sql_avg_positive (map Velocity.mph_val l)) as [v [Hv Pv]].
  - destruct l; [congruence|discriminate].
  - apply Forall_forall. intros w Hw. apply in_map_iff in Hw.
    destruct Hw as [t' [<- Ht']]. rewrite Hl in Ht'.
    apply filter_In in Ht'. destruct Ht' as [Ht' _].
    exact (proj2 (measurable_mph t' (F t' Ht'))).
  - exists t, p, v. unfold Velocity.heat_val.
    cbn [Velocity.day_num Velocity.hour_num Velocity.avg_speed fst snd].
    rewrite <- Hkt. unfold Velocity.cell_of. rewrite Hp. simpl.
    repeat split; auto.
Qed.

Lemma velocity_q_25_reads (clean : dir trip) :
  clean <> [] ->
  Velocity.q_25 clean
  = Velocity.heat_of (filter (fun t => is_true (Velocity.qualifies t))
                             (read_all clean)).
Proof.
  intro NE. unfold Velocity.q_25.
  rewrite (read_parquet_nonempty clean NE). reflexivity.
Qed.

(** X18: The 2025 velocity query.  Over a clean directory that holds a file
    it returns a frame, no speed divides by zero, every cell of the frame
    is a weekday from 1 to 7 and an hour with an average speed that is
    defined and positive, and every qualifying trip has its cell in the
    frame.  Without a file the query raises. *)
Theorem velocity_cells_are_positive (clean : dir trip) :
  (clean = [] -> Velocity.q_25 clean = Raise IOException)
  /\ (clean <> [] ->
      exists df,
        Velocity.q_25 clean = Ok df
        /\ (forall h, In h df ->
              exists d hr v,
                Velocity.day_num h = Some d /\ 1 <= d <= 7
                /\ Velocity.hour_num h = Some hr
                /\ Velocity.avg_speed h = Some v /\ (0 < v)%Q)
        /\ (forall t p,
              In t (read_all clean) ->
              is_true (Velocity.qualifies t) = true ->
              pickup_time t = Some p ->
              exists h, In h df
                        /\ Velocity.day_num h = Some (Velocity.isodow p)
                        /\ Velocity.hour_num h = Some (Velocity.hour_of p))).
Proof.
  split; [intros ->; reflexivity|]. intro NE.
  rewrite (velocity_q_25_reads clean NE).
  set (rows := filter (fun t => is_true (Velocity.qualifies t)) (read_all clean)).
  assert (Forall Velocity.measurable rows) as F.
  { apply Forall_forall. intros t Ht. apply filter_In in Ht.
    apply qualifies_measurable. apply Ht. }
  rewrite (heat_of_total rows F). eexists. split; [reflexivity|]. split.
  - intros h Hh. destruct (heat_rows rows h F Hh) as [t [p [v H]]].
    exists (Velocity.isodow p), (Velocity.hour_of p), v.
    pose proof (isodow_range p). tauto.
  - intros t p Hin Hq Hp.
    assert (In (Velocity.cell_of t)
               (map fst (group_by Velocity.cell_eqb Velocity.cell_of rows)))
      as Hk.
    { apply (group_by_keys _ _ cell_eqb_eq). apply in_map.
      apply filter_In. split; assumption. }
    apply in_map_iff in Hk. destruct Hk as [[k l] [Ek Hg]].
    exists (Velocity.heat_val (k, l)). split; [apply in_map; exact Hg|].
    unfold Velocity.heat_val. cbn [Velocity.day_num Velocity.hour_num fst snd].
    cbn [fst] in Ek. rewrite Ek. unfold Velocity.cell_of. rewrite Hp.
    split; reflexivity.
Qed.

Lemma non_null_In {A : Type} (x : A) (l : list (option A)) :
  In x (non_null l) <-> In (Some x) l.
Proof.
  unfold non_null. rewrite in_flat_map. split.
  - intros [[y|] [Hy Hx]]; [|destruct Hx].
    destruct Hx as [<-|[]]. exact Hy.
  - intro H. exists (Some x). split; [exact H|left; reflexivity].
Qed.

Lemma week_In (d : Z) : In d [1; 2; 3; 4; 5; 6; 7] <-> 1 <= d <= 7.
Proof. simpl. lia. Qed.

(** The pivot of a frame of measurable trips has seven rows exactly when
    the trips cover the week. *)
Lemma pivot_has_seven_rows_iff (rows : list trip) :
  Forall Velocity.measurable rows ->
  (List.length
     (nodup (fun a b => Z.eq_dec a b)
        (non_null
           (map Velocity.day_num
              (map Velocity.heat_val
                 (group_by Velocity.cell_eqb Velocity.cell_of rows)))))
   =? 7)%nat = true
  <-> Velocity.covers_the_week rows.
Proof.
  intro F.
  set (df := map Velocity.heat_val
               (group_by Velocity.cell_eqb Velocity.cell_of rows)).
  set (days := non_null (map Velocity.day_num df)).
  assert (forall d, In d days
                    <-> exists t p, In t rows /\ pickup_time t = Some p
                                    /\ Velocity.isodow p = d) as Hdays.
  { intro d. unfold days. rewrite non_null_In, in_map_iff. split.
    - intros [h [Hd Hh]].
      destruct (heat_rows rows h F Hh) as [t [p [v [Ht [Hp [Hday _]]]]]].
      exists t, p. rewrite Hd in Hday. injection Hday as ->. auto.
    - intros [t [p [Ht [Hp <-]]]].
      assert (In (Velocity.cell_of t)
                 (map fst (group_by Velocity.cell_eqb Velocity.cell_of rows)))
        as Hk.
      { apply (group_by_keys _ _ cell_eqb_eq). apply in_map. exact Ht. }
      apply in_map_iff in Hk. destruct Hk as [[k l] [Ek Hg]].
      exists (Velocity.heat_val (k, l)). split.
      + unfold Velocity.heat_val. cbn [Velocity.day_num fst snd].
        cbn [fst] in Ek. rewrite Ek. unfold Velocity.cell_of. rewrite Hp.
        reflexivity.
      + unfold df. apply in_map. exact Hg. }
  set (nd := nodup (fun a b => Z.eq_dec a b) days).
  assert (NoDup nd) as Hnd by apply NoDup_nodup.
  assert (forall d, In d nd <-> In d days) as Hin by (intro; apply nodup_In).
  assert (incl nd [1; 2; 3; 4; 5; 6; 7]) as Hweek.
  { intros d Hd. apply Hin, Hdays in Hd. destruct Hd as [t [p [_ [_ <-]]]].
    apply week_In. apply isodow_range. }
  assert (NoDup [1; 2; 3; 4; 5; 6; 7]) as Hw7.
  { repeat constructor; simpl; lia. }
  rewrite Nat.eqb_eq. split.
  - intros L d Hd. apply Hdays, Hin.
    assert (incl [1; 2; 3; 4; 5; 6; 7] nd) as Hall
      by (apply (NoDup_length_incl Hnd); [rewrite L; simpl; lia|exact Hweek]).
    apply Hall. apply week_In. exact Hd.
  - intro C.
    assert (incl [1; 2; 3; 4; 5; 6; 7] nd) as Hall.
    { intros d Hd. apply Hin, Hdays. apply C. apply week_In. exact Hd. }
    pose proof (NoDup_incl_length Hw7 Hall) as L1.
    pose proof (NoDup_incl_length Hnd Hweek) as L2.
    simpl in L1, L2. lia.
Qed.

(** An image is saved for a frame without rows, and for a frame whose trips
    cover the week. *)
Lemma saves_heatmap_iff (rows : list trip) :
  Forall Velocity.measurable rows ->
  Velocity.saves_heatmap
    (map Velocity.heat_val (group_by Velocity.cell_eqb Velocity.cell_of rows))
  = true
  <-> rows = [] \/ Velocity.covers_the_week rows.
Proof.
  intro F. pose proof (pivot_has_seven_rows_iff rows F) as P.
  destruct rows as [|t rows]; [split; [left|]; reflexivity|].
  assert (In (Velocity.cell_of t)
             (map fst (group_by Velocity.cell_eqb Velocity.cell_of (t :: rows))))
    as Hk by (apply (group_by_keys _ _ cell_eqb_eq); left; reflexivity).
  unfold Velocity.saves_heatmap.
  destruct (group_by Velocity.cell_eqb Velocity.cell_of (t :: rows))
    as [|g gs]; [destruct Hk|].
  cbn [map] in *. rewrite P. split; [right; assumption|].
  intros [E|C]; [discriminate E|exact C].
Qed.

(** X19: [plot_velocity_heatmaps] saves its three images exactly when the
    three yellow baseline files are read, the clean directory holds a file,
    and the qualifying trips of each year are none at all or cover the
    seven days of the week: the pivot of a frame without rows takes the
    seven day names, any other pivot needs seven rows.  Qualifying clean
    trips that leave a weekday out make the call raise ValueError after the
    2024 image, and a clean directory without a file makes the query raise
    there; baseline trips that leave a weekday out raise before any image. *)
Theorem heatmaps_need_every_weekday (raw : raw_dir) (clean : dir trip) :
  let rows25 := filter (fun t => is_true (Velocity.qualifies t))
                       (read_all clean) in
  let trips24 rows24 := filter (fun t => is_true (Velocity.qualifies_24 t))
                               (map (Phase1.raw_data "yellow") rows24) in
  let plots rows := rows = [] \/ Velocity.covers_the_week rows in
  (Velocity.plot_velocity_heatmaps raw clean
   = (["viz_velocity_2024.png"; "viz_velocity_2025.png";
       "viz_velocity_heatmap.png"]%string, None)
   <-> (exists rows24,
          Velocity.read_yellow Velocity.yellow_q1_2024 raw = Ok rows24
          /\ plots (trips24 rows24))
       /\ clean <> [] /\ plots rows25)
  /\ (snd (Velocity.plot_velocity_heatmaps raw clean) = None
      -> fst (Velocity.plot_velocity_heatmaps raw clean)
         = ["viz_velocity_2024.png"; "viz_velocity_2025.png";
            "viz_velocity_heatmap.png"]%string)
  /\ (forall rows24,
        Velocity.read_yellow Velocity.yellow_q1_2024 raw = Ok rows24 ->
        (~ plots (trips24 rows24) ->
         Velocity.plot_velocity_heatmaps raw clean = ([], Some Velocity.ValueError))
        /\ (plots (trips24 rows24) -> clean = [] ->
            Velocity.plot_velocity_heatmaps raw clean
            = (["viz_velocity_2024.png"%string],
               Some (Velocity.Duck IOException)))
        /\ (plots (trips24 rows24) -> clean <> [] -> ~ plots rows25 ->
            Velocity.plot_velocity_heatmaps raw clean
            = (["viz_velocity_2024.png"%string], Some Velocity.ValueError)))
  /\ (forall e,
        Velocity.read_yellow Velocity.yellow_q1_2024 raw = Raise e ->
        Velocity.plot_velocity_heatmaps raw clean
        = ([], Some (Velocity.Duck e))).
Proof.
  intros rows25 trips24 plots.
  assert (Forall Velocity.measurable rows25) as F25.
  { apply Forall_forall. intros t Ht. apply filter_In in Ht.
    apply qualifies_measurable. apply Ht. }
  assert (forall rows24, Forall Velocity.measurable (trips24 rows24)) as F24.
  { intro rows24. apply Forall_forall. intros t Ht. apply filter_In in Ht.
    apply qualifies_24_measurable. apply Ht. }
  pose proof (saves_heatmap_iff rows25 F25) as S25. fold (plots rows25) in S25.
  unfold Velocity.plot_velocity_heatmaps, Velocity.q_24.
  destruct (Velocity.read_yellow Velocity.yellow_q1_2024 raw) as [rows24|e];
    cbn [bind].
  2:{ split; [|split; [|split]].
      - split; [discriminate|]. intros [[r [E _]] _]. discriminate E.
      - discriminate.
      - intros r E. discriminate E.
      - intros e' E. injection E as <-. reflexivity. }
  fold (trips24 rows24). rewrite (heat_of_total _ (F24 rows24)).
  pose proof (saves_heatmap_iff _ (F24 rows24)) as S24.
  fold (plots (trips24 rows24)) in S24.
  destruct (Velocity.saves_heatmap
              (map Velocity.heat_val
                 (group_by Velocity.cell_eqb Velocity.cell_of
                    (trips24 rows24)))) eqn:B24; cbn [negb].
  2:{ assert (~ plots (trips24 rows24)) as N24
        by (intro C; apply S24 in C; discriminate C).
      split; [|split; [|split]].
      - split; [discriminate|]. intros [[r [E C]] _].
        injection E as <-. contradiction.
      - discriminate.
      - intros r E. injection E as <-.
        split; [reflexivity|]. split; intro C; contradiction.
      - intros e E. discriminate E. }
  assert (plots (trips24 rows24)) as P24 by (apply S24; reflexivity).
  assert (clean = [] \/ clean <> []) as [Ec|NE]
    by (destruct clean; [left; reflexivity|right; discriminate]).
  { assert (Velocity.q_25 clean = Raise IOException) as ->
      by (rewrite Ec; reflexivity).
    split; [|split; [|split]].
    - split; [discriminate|]. intros [_ [NE _]]. congruence.
    - discriminate.
    - intros r E. injection E as <-.
      split; [intro C; contradiction|].
      split; [reflexivity|]. intros _ NE. congruence.
    - intros e E. discriminate E. }
  rewrite (velocity_q_25_reads clean NE). fold rows25.
  rewrite (heat_of_total rows25 F25).
  destruct (Velocity.saves_heatmap
              (map Velocity.heat_val
                 (group_by Velocity.cell_eqb Velocity.cell_of rows25)))
    eqn:B25.
  - assert (plots rows25) as P25 by (apply S25; reflexivity).
    split; [|split; [|split]].
    + split; [intros _|reflexivity]. split; [|split; assumption].
      exists rows24. split; [reflexivity|exact P24].
    + reflexivity.
    + intros r E. injection E as <-.
      split; [intro C; contradiction|].
      split; [intros _ C; contradiction|]. intros _ _ C. contradiction.
    + intros e E. discriminate E.
  - assert (~ plots rows25) as N25
      by (intro C; apply S25 in C; discriminate C).
    split; [|split; [|split]].
    + split; [discriminate|]. intros [_ [_ C]]. contradiction.
    + discriminate.
    + intros r E. injection E as <-.
      split; [intro C; contradiction|].
      split; [intros _ C; contradiction|]. reflexivity.
    + intros e E. discriminate E.
Qed.

(** ** Crowding out *)

Lemma days_before_2024 (y m d : Z) :
  1 <= m <= 12 -> 1 <= d <= 31 -> y <= 2023 -> days_from_civil y m d < 19723.
Proof.
  intros Hm Hd Hy. unfold days_from_civil. cbv zeta.
  destruct (m <=? 2) eqn:E; destruct (m >? 2) eqn:E2;
    try (apply Z.leb_le in E); try (apply Z.leb_gt in E);
    try (apply Z.gtb_lt in E2);
    try (rewrite Z.gtb_ltb in E2; apply Z.ltb_ge in E2); try lia;
    Z.div_mod_to_equations; lia.
Qed.

Lemma days_from_2026 (y m d : Z) :
  1 <= m <= 12 -> 1 <= d <= 31 -> 2026 <= y -> 20454 <= days_from_civil y m d.
Proof.
  intros Hm Hd Hy. unfold days_from_civil. cbv zeta.
  destruct (m <=? 2) eqn:E; destruct (m >? 2) eqn:E2;
    try (apply Z.leb_le in E); try (apply Z.leb_gt in E);
    try (apply Z.gtb_lt in E2);
    try (rewrite Z.gtb_ltb in E2; apply Z.ltb_ge in E2); try lia;
    Z.div_mod_to_equations; lia.
Qed.

(** A calendar timestamp from 2024-01-01 up to, not including, 2026-01-01
    is of the year 2024 or 2025. *)
Lemma window_years (p : timestamp) :
  CrowdingOut.well_formed p ->
  days_from_civil 2024 1 1 * micros_per_day <= epoch_micros p ->
  epoch_micros p < days_from_civil 2026 1 1 * micros_per_day ->
  2024 <= ts_year p <= 2025.
Proof.
  intros [Hm [Hd Hu]] Lo Hi.
  change (days_from_civil 2024 1 1) with 19723 in Lo.
  change (days_from_civil 2026 1 1) with 20454 in Hi.
  unfold epoch_micros, micros_per_day in *.
  destruct (Z_le_gt_dec (ts_year p) 2023) as [Y|Y].
  - pose proof (days_before_2024 _ _ _ Hm Hd Y). nia.
  - destruct (Z_le_gt_dec 2026 (ts_year p)) as [Y'|Y']; [|lia].
    pose proof (days_from_2026 _ _ _ Hm Hd Y'). nia.
Qed.

Lemma in_window_iff (t : trip) :
  is_true (CrowdingOut.in_window t) = true
  <-> exists f p,
        fare t = Some f /\ (0 < f)%Q /\ pickup_time t = Some p
        /\ days_from_civil 2024 1 1 * micros_per_day <= epoch_micros p
        /\ epoch_micros p < days_from_civil 2026 1 1 * micros_per_day.
Proof.
  unfold CrowdingOut.in_window.
  rewrite !is_true_and3, !andb_true_iff, (gt3_true_iff (fare t) 0).
  unfold ts_ge, CrowdingOut.ts_lt.
  destruct (pickup_time t) as [p|]; cbn [option_map is_true].
  - split.
    + intros [[[f [Hf Pf]] Lo] Hi].
      destruct (_ <=? epoch_micros p) eqn:E1; [|discriminate Lo].
      destruct (epoch_micros p <? _) eqn:E2; [|discriminate Hi].
      apply Z.leb_le in E1. apply Z.ltb_lt in E2.
      exists f, p. auto.
    + intros [f [q [Hf [Pf [Hq [Lo Hi]]]]]]. injection Hq as <-.
      apply Z.leb_le in Lo. apply Z.ltb_lt in Hi. rewrite Lo, Hi.
      split; [split|]; try reflexivity. exists f. auto.
  - split; [intros [[_ H] _]; discriminate H|].
    intros [f [q [_ [_ [H _]]]]]. discriminate H.
Qed.

Lemma tip_expr_in_window (t : trip) :
  is_true (CrowdingOut.in_window t) = true ->
  CrowdingOut.tip_expr t = Ok (CrowdingOut.tip_val t)
  /\ exists v, CrowdingOut.tip_val t = Some v.
Proof.
  intro H. apply in_window_iff in H. destruct H as [f [p [Hf [Pf _]]]].
  assert (is_true (gt3 (fare t) (lit 0)) = true) as G
    by (apply (gt3_true_iff _ 0); exists f; auto).
  unfold CrowdingOut.tip_expr, CrowdingOut.tip_val. rewrite G.
  unfold CrowdingOut.or_else, coalesce, lit. rewrite Hf. split.
  - apply ndiv_nonzero.
    destruct (Qeq_bool f 0) eqn:E; [|reflexivity].
    apply Qeq_bool_iff in E. rewrite E in Pf. exfalso. exact (Qlt_irrefl _ Pf).
  - destruct (total_amount t), (congestion_surcharge t); eexists; reflexivity.
Qed.

Lemma sql_avg_defined (l : list num) :
  l <> [] -> Forall (fun v => exists x, v = Some x) l ->
  exists a, sql_avg l = Some a.
Proof.
  intros NE F. unfold sql_avg.
  destruct l as [|v l]; [congruence|].
  inversion F as [|? ? [x ->] F']; subst.
  change (non_null (Some x :: l)) with (x :: non_null l).
  eexists. reflexivity.
Qed.

Lemma month_eqb_eq (a b : option (Z * Z)) :
  CrowdingOut.month_eqb a b = true <-> a = b.
Proof.
  destruct a as [[y m]|], b as [[y' m']|]; simpl;
    try (split; congruence).
  rewrite andb_true_iff, !Z.eqb_eq. split; [intros [-> ->]|intro E].
  - reflexivity.
  - injection E as -> ->. auto.
Qed.

Lemma months_of_two_years (y m : Z) :
  2024 <= y <= 2025 -> 1 <= m <= 12 ->
  In (Some (y, m))
     (map (fun m => Some (2024, m)) [1; 2; 3; 4; 5; 6; 7; 8; 9; 10; 11; 12]
      ++ map (fun m => Some (2025, m)) [1; 2; 3; 4; 5; 6; 7; 8; 9; 10; 11; 12]).
Proof.
  intros Hy Hm. apply in_or_app.
  assert (In m [1; 2; 3; 4; 5; 6; 7; 8; 9; 10; 11; 12]) as Hin
    by (simpl; lia).
  assert (y = 2024 \/ y = 2025) as [-> | ->] by lia; [left|right];
    apply in_map_iff; exists m; auto.
Qed.

(** X20: Over a clean directory that holds a file the crowding-out query
    returns a table with no NULL average: a missing total or surcharge
    counts as 0.  Its rows are distinct months in ascending order; when the
    clean pickup times are calendar timestamps these are months of 2024 and
    2025, at most 24. *)
Theorem crowding_out_months (clean : dir trip) :
  clean <> [] ->
  Forall (fun t => forall p, pickup_time t = Some p -> CrowdingOut.well_formed p)
         (read_all clean) ->
  exists rows,
    CrowdingOut.crowding_out clean = Ok rows
    /\ (List.length rows <= 24)%nat
    /\ NoDup (map CrowdingOut.month rows)
    /\ Sorted (fun a b => CrowdingOut.month_le (CrowdingOut.month a)
                                               (CrowdingOut.month b) = true)
              rows
    /\ forall r, In r rows ->
         exists y m s tip,
           CrowdingOut.month r = Some (y, m)
           /\ 2024 <= y <= 2025 /\ 1 <= m <= 12
           /\ CrowdingOut.avg_surcharge r = Some s
           /\ CrowdingOut.avg_tip_pct r = Some tip.
Proof.
  intros NE0 WF. rewrite Forall_forall in WF.
  unfold CrowdingOut.crowding_out.
  rewrite (read_parquet_nonempty clean NE0). unfold bind at 1.
  set (kept := filter (fun t => is_true (CrowdingOut.in_window t))
                      (read_all clean)).
  set (groups := group_by CrowdingOut.month_eqb CrowdingOut.month_str kept).
  assert (forall g, In g groups ->
            snd g <> []
            /\ (forall t, In t (snd g) -> is_true (CrowdingOut.in_window t) = true)
            /\ exists y m, fst g = Some (y, m)
                           /\ 2024 <= y <= 2025 /\ 1 <= m <= 12) as Hg.
  { intros [k l] H. cbn [fst snd].
    pose proof (group_by_nonempty _ _ month_eqb_eq _ _ _ H) as NE.
    apply (group_by_spec _ _ month_eqb_eq) in H. destruct H as [Hk Hl].
    split; [exact NE|]. split.
    - intros t Ht. rewrite Hl in Ht. apply filter_In in Ht.
      destruct Ht as [Ht _]. apply filter_In in Ht. apply Ht.
    - apply in_map_iff in Hk. destruct Hk as [t [<- Ht]].
      apply filter_In in Ht. destruct Ht as [Hall Hw].
      apply in_window_iff in Hw. destruct Hw as [f [p [_ [_ [Hp [Lo Hi]]]]]].
      pose proof (WF t Hall p Hp) as W.
      exists (ts_year p), (ts_month p).
      unfold CrowdingOut.month_str. rewrite Hp.
      split; [reflexivity|]. split; [exact (window_years p W Lo Hi)|].
      apply W. }
  rewrite (mapM_total_on _ CrowdingOut.month_val).
  2:{ intros g Hin. destruct (Hg g Hin) as [_ [Hw _]].
      rewrite (mapM_total_on _ CrowdingOut.tip_val); [reflexivity|].
      intros t Ht. apply tip_expr_in_window. exact (Hw t Ht). }
  cbn [bind].
  set (table := map CrowdingOut.month_val groups).
  set (le := fun a b => CrowdingOut.month_le (CrowdingOut.month a)
                                              (CrowdingOut.month b)).
  assert (Permutation (sort_by le table) table) as P
    by apply sort_by_Permutation.
  assert (forall r, In r table ->
            exists y m s tip,
              CrowdingOut.month r = Some (y, m)
              /\ 2024 <= y <= 2025 /\ 1 <= m <= 12
              /\ CrowdingOut.avg_surcharge r = Some s
              /\ CrowdingOut.avg_tip_pct r = Some tip) as Hrow.
  { intros r Hr. apply in_map_iff in Hr. destruct Hr as [g [<- Hin]].
    destruct (Hg g Hin) as [NE [Hw [y [m [Hk [Hy Hm]]]]]].
    destruct (sql_avg_defined
                (map (fun t => CrowdingOut.or_else (congestion_surcharge t) 0)
                     (snd g))) as [s Hs].
    { destruct (snd g); [congruence|discriminate]. }
    { apply Forall_forall. intros v Hv. apply in_map_iff in Hv.
      destruct Hv as [t [<- _]]. unfold CrowdingOut.or_else, coalesce.
      destruct (congestion_surcharge t); eexists; reflexivity. }
    destruct (sql_avg_defined (map CrowdingOut.tip_val (snd g))) as [a Ha].
    { destruct (snd g); [congruence|discriminate]. }
    { apply Forall_forall. intros v Hv. apply in_map_iff in Hv.
      destruct Hv as [t [<- Ht]].
      exact (proj2 (tip_expr_in_window t (Hw t Ht))). }
    exists y, m, s. eexists. unfold CrowdingOut.month_val.
    cbn [CrowdingOut.month CrowdingOut.avg_surcharge CrowdingOut.avg_tip_pct].
    rewrite Hs, Ha. repeat split; try assumption; apply Hy || apply Hm. }
  assert (NoDup (map CrowdingOut.month table)) as Hnd.
  { unfold table. rewrite map_map.
    change (map (fun g => CrowdingOut.month (CrowdingOut.month_val g)) groups)
      with (map fst groups).
    apply (group_by_NoDup _ _ month_eqb_eq). }
  assert (NoDup (map CrowdingOut.month (sort_by le table))) as Hnd'.
  { apply (Permutation_NoDup
             (Permutation_sym (Permutation_map CrowdingOut.month P))).
    exact Hnd. }
  exists (sort_by le table). split; [reflexivity|]. split; [|split; [|split]].
  - rewrite <- (length_map CrowdingOut.month).
    change 24%nat with
      (List.length
         (map (fun m => Some (2024, m)) [1; 2; 3; 4; 5; 6; 7; 8; 9; 10; 11; 12]
          ++ map (fun m => Some (2025, m))
               [1; 2; 3; 4; 5; 6; 7; 8; 9; 10; 11; 12])).
    apply (NoDup_incl_length Hnd').
    intros k Hk. apply in_map_iff in Hk. destruct Hk as [r [<- Hr]].
    apply (proj1 (sort_by_In le r table)) in Hr.
    destruct (Hrow r Hr) as [y [m [s [tip [-> [Hy [Hm _]]]]]]].
    apply months_of_two_years; assumption.
  - exact Hnd'.
  - apply sort_by_Sorted_on. intros a b Ha Hb.
    destruct (Hrow a Ha) as [y [m [_ [_ [Ea _]]]]].
    destruct (Hrow b Hb) as [y' [m' [_ [_ [Eb _]]]]].
    unfold le. rewrite Ea, Eb. unfold CrowdingOut.month_le.
    rewrite !orb_true_iff, !andb_true_iff, !Z.ltb_lt, !Z.eqb_eq, !Z.leb_le.
    lia.
  - intros r Hr. apply (proj1 (sort_by_In le r table)) in Hr.
    exact (Hrow r Hr).
Qed.

Lemma crowding_out_months_witness :
  exists rows,
    CrowdingOut.crowding_out clean_q1_2025 = Ok rows
    /\ map CrowdingOut.month rows = [Some (2025, 2)]
    /\ (List.length rows <= 24)%nat.
Proof.
  destruct (crowding_out_months clean_q1_2025) as [rows [Hq [Hlen _]]].
  - discriminate.
  - apply Forall_forall. intros t Ht p E. simpl in Ht.
    repeat (destruct Ht as [<-|Ht];
            [injection E as <-;
             unfold CrowdingOut.well_formed, micros_per_day; simpl; lia|]).
    destruct Ht.
  - exists rows. split; [exact Hq|]. split; [|exact Hlen].
    vm_compute in Hq. injection Hq as <-. reflexivity.
Defined.

(** ** Overwriting, sampling and the border table *)

Lemma write_file_idempotent {A : Type} (name : string) (rows rows' : list A)
  (d : dir A) :
  write_file name rows (write_file name rows' d) = write_file name rows d.
Proof.
  unfold write_file. f_equal. simpl. rewrite String.eqb_refl. simpl.
  induction d as [|f d IH]; simpl; [reflexivity|].
  destruct (String.eqb (fst f) name) eqn:E; simpl; [exact IH|].
  rewrite E. simpl. f_equal. exact IH.
Qed.

(** X3: Processing a batch again changes nothing: each COPY replaces the file
    of the same name, so the directories after two calls are those after
    one, and a call that raises does so again. *)
Theorem process_batch_is_idempotent
  (out : Phase1.out_dir) (name : string) (file : parquet) :
  Phase1.process_batch (fst (Phase1.process_batch out name file)) name file
  = Phase1.process_batch out name file.
Proof.
  destruct file as [|cols rows]; [reflexivity|].
  destruct (dialect_eqb cols (Phase1.cols_of name)) eqn:D.
  - apply dialect_eqb_eq in D. subst cols.
    rewrite !Phase1Facts.process_batch_readable.
    cbn [fst Phase1.clean_data Phase1.audit_log].
    rewrite !write_file_idempotent. reflexivity.
  - unfold Phase1.process_batch, Phase1.query. rewrite D. reflexivity.
Qed.

(** X8: The imputation invents nothing.  Each record of the imputed file is a
    row of a December 2023 file with its timestamps moved two years, or a
    row of a December 2024 file with its timestamps moved one year, all
    other columns copied; and the file has no more records than the two
    source months have rows. *)
Theorem imputed_records_come_from_the_sources
  (input_dir : string) (raw : raw_dir) (d23 d24 : nat -> Q)
  (rows : list trip) :
  Phase1.impute_sql input_dir raw d23 d24 = Ok rows ->
  exists a b,
    Phase1.read_period input_dir "_tripdata_2023-12.parquet" raw = Ok a
    /\ Phase1.read_period input_dir "_tripdata_2024-12.parquet" raw = Ok b
    /\ (List.length rows <= List.length a + List.length b)%nat
    /\ forall t, In t rows ->
         exists n u,
           ((n = 2 /\ In u a) \/ (n = 1 /\ In u b))
           /\ pickup_time t
              = option_map (add_years n) (raw_pickup (Phase1.columns u))
           /\ dropoff_time t
              = option_map (add_years n) (raw_dropoff (Phase1.columns u))
           /\ pickup_loc t = PULocationID (Phase1.columns u)
           /\ dropoff_loc t = DOLocationID (Phase1.columns u)
           /\ trip_distance t = raw_trip_distance (Phase1.columns u)
           /\ fare t = fare_amount (Phase1.columns u)
           /\ total_amount t = raw_total_amount (Phase1.columns u)
           /\ congestion_surcharge t
              = raw_congestion_surcharge (Phase1.columns u).
Proof.
  unfold Phase1.impute_sql.
  destruct (Phase1.read_period input_dir "_tripdata_2023-12.parquet" raw)
    as [a|] eqn:Ea; [|discriminate].
  destruct (Phase1.read_period input_dir "_tripdata_2024-12.parquet" raw)
    as [b|] eqn:Eb; [|discriminate].
  cbn [bind]. intro H. injection H as <-.
  exists a, b. split; [reflexivity|]. split; [reflexivity|].
  destruct (using_sample_sub 30 d23 a 0) as [La Ia].
  destruct (using_sample_sub 70 d24 b 0) as [Lb Ib].
  split; [rewrite length_app, !length_map; lia|].
  pose proof (read_period_own_timestamps _ _ _ _ Ea) as Oa.
  pose proof (read_period_own_timestamps _ _ _ _ Eb) as Ob.
  rewrite Forall_forall in Oa, Ob.
  intros t Ht. apply in_app_or in Ht.
  destruct Ht as [Ht|Ht]; apply in_map_iff in Ht; destruct Ht as [u [<- Hu]].
  - exists 2, u. destruct (Oa u (Ia u Hu)) as [Hp Hd].
    split; [left; split; [reflexivity|exact (Ia u Hu)]|].
    unfold Phase1.shifted. cbn [pickup_time dropoff_time pickup_loc dropoff_loc
      trip_distance fare total_amount congestion_surcharge].
    rewrite Hp, Hd. repeat split; reflexivity.
  - exists 1, u. destruct (Ob u (Ib u Hu)) as [Hp Hd].
    split; [right; split; [reflexivity|exact (Ib u Hu)]|].
    unfold Phase1.shifted. cbn [pickup_time dropoff_time pickup_loc dropoff_loc
      trip_distance fare total_amount congestion_surcharge].
    rewrite Hp, Hd. repeat split; reflexivity.
Qed.

Lemma imputed_records_come_from_the_sources_witness :
  exists rows a b,
    Phase1.impute_sql "raw_data" raw_decembers (fun _ => (1 # 2)%Q)
      (fun _ => (1 # 2)%Q) = Ok rows
    /\ Phase1.read_period "raw_data" "_tripdata_2023-12.parquet" raw_decembers
       = Ok a
    /\ Phase1.read_period "raw_data" "_tripdata_2024-12.parquet" raw_decembers
       = Ok b
    /\ (List.length rows <= List.length a + List.length b)%nat.
Proof.
  eexists.
  destruct (imputed_records_come_from_the_sources "raw_data" raw_decembers
              (fun _ => (1 # 2)%Q) (fun _ => (1 # 2)%Q) _ Logic.eq_refl)
    as [a [b [Ha [Hb [L _]]]]].
  exists a, b. split; [reflexivity|]. auto.
Defined.

(** The order of [ORDER BY ... DESC] on floating-point values is total and
    transitive. *)
Lemma ieee_ge_total (x y : spec_float) :
  Ieee.ge x y = true \/ Ieee.ge y x = true.
Proof.
  unfold Ieee.ge, SFcompare.
  destruct x as [[|]|[|]| |[|] mx ex], y as [[|]|[|]| |[|] my ey];
    cbn; auto;
    change (Pos.compare_cont Eq mx my) with (Pos.compare mx my);
    change (Pos.compare_cont Eq my mx) with (Pos.compare my mx);
    rewrite (Z.compare_antisym ex ey), (Pos.compare_antisym mx my);
    destruct (ex ?= ey); cbn; auto; destruct (mx ?= my)%positive; cbn; auto.
Qed.

Lemma ieee_ge_trans (x y z : spec_float) :
  Ieee.ge x y = true -> Ieee.ge y z = true -> Ieee.ge x z = true.
Proof.
  unfold Ieee.ge, SFcompare.
  destruct x as [[|]|[|]| |[|] mx ex], y as [[|]|[|]| |[|] my ey],
    z as [[|]|[|]| |[|] mz ez];
    cbn; try discriminate; try reflexivity;
    change (Pos.compare_cont Eq mx my) with (Pos.compare mx my);
    change (Pos.compare_cont Eq my mz) with (Pos.compare my mz);
    change (Pos.compare_cont Eq mx mz) with (Pos.compare mx mz);
    destruct (Z.compare_spec ex ey), (Z.compare_spec ey ez),
      (Z.compare_spec ex ez);
    try discriminate; try reflexivity; try lia;
    destruct (Pos.compare_spec mx my), (Pos.compare_spec my mz),
      (Pos.compare_spec mx mz);
    cbn; try discriminate; try reflexivity; lia.
Qed.

(** X21: The border-effect table lists border zones only, largest change
    first in the order of ORDER BY ... DESC on FLOAT values: once the six
    baseline files are read and the clean directory holds a file, a zone
    outside [BORDER_ZONES] has no row however many drop-offs it has in
    both periods, and no percentage is NULL. *)
Theorem border_effect_lists_border_zones (raw : raw_dir) (clean : dir trip)
  (rows24 : list raw_row) :
  Phase3.read_list Phase3.q1_2024_files raw = Ok rows24 ->
  clean <> [] ->
  exists rows,
    Phase3.border_effect raw clean = Ok rows
    /\ (forall row, In row rows ->
          exists z pct, Phase3.ZoneID row = Some z /\ In z BORDER_ZONES
                        /\ Phase3.pct_change row = Some pct)
    /\ StronglySorted
         (fun a b => exists x y, Phase3.pct_change a = Some x
                                 /\ Phase3.pct_change b = Some y
                                 /\ Ieee.ge x y = true)
         rows.
Proof.
  intros Hread NE. rewrite (border_effect_value raw clean rows24 Hread NE).
  set (keys24 := map DOLocationID _).
  set (keys25 := map dropoff_loc _).
  set (table := map Phase3.border_val
                  (Phase3.join (group_count Phase3.zone_eqb keys24)
                               (group_count Phase3.zone_eqb keys25))).
  assert (forall row, In row table ->
            exists z pct, Phase3.ZoneID row = Some z /\ In z BORDER_ZONES
                          /\ Phase3.pct_change row = Some pct) as Hrow.
  { intros row Hr. apply in_map_iff in Hr. destruct Hr as [[a b] [<- Hp]].
    apply join_In in Hp. destruct Hp as [Ha [_ [z [Hz _]]]].
    destruct a as [k n]. cbn [fst] in Hz. subst k.
    apply (group_count_spec _ zone_eqb_eq) in Ha. destruct Ha as [Hk _].
    unfold keys24 in Hk. apply in_map_iff in Hk. destruct Hk as [r [Er Hr]].
    apply filter_In in Hr. destruct Hr as [_ Hb].
    apply in_list_true_iff in Hb. destruct Hb as [z' [Ez' Hin]].
    rewrite Er in Ez'. injection Ez' as <-.
    exists z. eexists. split; [reflexivity|]. split; [exact Hin|reflexivity]. }
  eexists. split; [reflexivity|]. split.
  - intros row Hr. apply (proj1 (sort_by_In _ row table)) in Hr.
    exact (Hrow row Hr).
  - assert (StronglySorted (fun a b => Phase3.by_pct_desc a b = true)
              (sort_by Phase3.by_pct_desc table)) as S.
    { apply Sorted_StronglySorted.
      - intros a b c. unfold Phase3.by_pct_desc.
        destruct (Phase3.pct_change a), (Phase3.pct_change b),
          (Phase3.pct_change c); try discriminate; try reflexivity.
        apply ieee_ge_trans.
      - apply sort_by_Sorted_on. intros a b Ha Hb.
        destruct (Hrow a Ha) as [_ [x [_ [_ Ex]]]].
        destruct (Hrow b Hb) as [_ [y [_ [_ Ey]]]].
        unfold Phase3.by_pct_desc. rewrite Ex, Ey.
        apply ieee_ge_total. }
    assert (forall r, In r (sort_by Phase3.by_pct_desc table) ->
              exists x, Phase3.pct_change r = Some x) as Hsome.
    { intros r Hr. apply (proj1 (sort_by_In _ r table)) in Hr.
      destruct (Hrow r Hr) as [_ [x [_ [_ Ex]]]]. exists x. exact Ex. }
    revert S Hsome. generalize (sort_by Phase3.by_pct_desc table).
    intros l S. induction S as [|a l S IH F]; intro Hsome; constructor.
    + apply IH. intros r Hr. apply Hsome. right. exact Hr.
    + rewrite Forall_forall in *. intros b Hb.
      destruct (Hsome a (or_introl Logic.eq_refl)) as [x Ex].
      destruct (Hsome b (or_intror Hb)) as [y Ey].
      exists x, y. split; [exact Ex|]. split; [exact Ey|].
      specialize (F b Hb). unfold Phase3.by_pct_desc in F.
      rewrite Ex, Ey in F. exact F.
Qed.

Lemma border_effect_lists_border_zones_witness :
  exists rows,
    Phase3.border_effect raw_q1_2024 clean_q1_2025 = Ok rows
    /\ forall row, In row rows ->
         exists z pct, Phase3.ZoneID row = Some z /\ In z BORDER_ZONES
                       /\ Phase3.pct_change row = Some pct.
Proof.
  destruct (border_effect_lists_border_zones raw_q1_2024 clean_q1_2025 _
              Logic.eq_refl) as [rows [H [Hz _]]].
  - discriminate.
  - exists rows. split; [exact H|exact Hz].
Defined.

(** ** Trips and rain *)

Lemma dates_2025_In (d : Z) :
  In d Rain.dates_2025
  <-> days_from_civil 2025 1 1 <= d <= days_from_civil 2025 12 31.
Proof.
  unfold Rain.dates_2025. rewrite in_map_iff.
  change (days_from_civil 2025 1 1) with 20089.
  change (days_from_civil 2025 12 31) with 20453. split.
  - intros [n [<- Hn]]. apply in_seq in Hn. lia.
  - intro H. exists (Z.to_nat (d - 20089)). split; [lia|].
    apply in_seq. lia.
Qed.

Lemma weather_lookup (prcp : Z -> Q) (d : Z) :
  find (fun w => fst w =? d) (Rain.df_weather prcp)
  = if (days_from_civil 2025 1 1 <=? d) && (d <=? days_from_civil 2025 12 31)
    then Some (d, prcp d) else None.
Proof.
  destruct (find (fun w => fst w =? d) (Rain.df_weather prcp)) as [w|] eqn:F.
  - apply find_some in F. destruct F as [Hin E].
    apply Z.eqb_eq in E. unfold Rain.df_weather in Hin.
    apply in_map_iff in Hin. destruct Hin as [d' [<- Hd]].
    cbn [fst] in E. subst d'. apply dates_2025_In in Hd.
    replace ((days_from_civil 2025 1 1 <=? d)
             && (d <=? days_from_civil 2025 12 31)) with true; [reflexivity|].
    symmetry. apply andb_true_iff. rewrite !Z.leb_le. exact Hd.
  - destruct ((days_from_civil 2025 1 1 <=? d)
              && (d <=? days_from_civil 2025 12 31)) eqn:B; [|reflexivity].
    apply andb_true_iff in B. rewrite !Z.leb_le in B.
    apply dates_2025_In in B.
    pose proof (find_none _ _ F (d, prcp d)) as N.
    cbn [fst] in N. rewrite Z.eqb_refl in N.
    assert (true = false) as X; [|discriminate X].
    apply N. unfold Rain.df_weather. apply in_map_iff. exists d. auto.
Qed.

Lemma merged_NoDup (prcp : Z -> Q) (l : list (option Z * Z)) :
  NoDup (map fst l) ->
  NoDup (map Rain.date
           (flat_map (fun r =>
                        match fst r with
                        | Some d =>
                            match find (fun w => fst w =? d)
                                       (Rain.df_weather prcp) with
                            | Some w => [Rain.mkMerged d (snd r) (snd w)]
                            | None => []
                            end
                        | None => []
                        end) l)).
Proof.
  induction l as [|[k n] l IH]; cbn [flat_map map fst snd]; intro H;
    [constructor|].
  inversion H as [|? ? Hnotin Hnd]; subst.
  rewrite map_app. specialize (IH Hnd).
  destruct k as [d|]; [|exact IH].
  destruct (find (fun w => fst w =? d) (Rain.df_weather prcp)) as [w|];
    [|exact IH].
  cbn [map app Rain.date]. constructor; [|exact IH].
  intro Hin. apply Hnotin. apply in_map_iff in Hin.
  destruct Hin as [m [Em Hm]]. apply in_flat_map in Hm.
  destruct Hm as [[k' n'] [Hr Hm]]. cbn [fst snd] in Hm.
  destruct k' as [d'|]; [|destruct Hm].
  destruct (find (fun w => fst w =? d') (Rain.df_weather prcp)) as [w'|];
    [|destruct Hm].
  destruct Hm as [<-|[]]. cbn [Rain.date] in Em. subst d'.
  apply in_map_iff. exists (Some d, n'). auto.
Qed.

(** X22: The table behind the rain analysis has one row per day of 2025
    on which a clean record was picked up, and no other row: pickups of
    other years and records without a pickup time are left out.  The trip
    count of a day is the number of clean records picked up that day,
    imputed ones included, the precipitation is that of the weather series
    for the day, and there are at most 365 rows. *)
Theorem rain_table_is_the_days_of_2025 (prcp : Z -> Q) (clean : dir trip) :
  (forall d n r,
     In (Rain.mkMerged d n r) (Rain.df_merged prcp clean)
     <-> days_from_civil 2025 1 1 <= d <= days_from_civil 2025 12 31
         /\ In (Some d) (map Rain.date_of (read_all clean))
         /\ n = Z.of_nat (List.length
                            (filter (fun t => Phase3.zone_eqb (Some d)
                                                (Rain.date_of t))
                                    (read_all clean)))
         /\ r = prcp d)
  /\ NoDup (map Rain.date (Rain.df_merged prcp clean))
  /\ (List.length (Rain.df_merged prcp clean) <= 365)%nat.
Proof.
  set (keys := map Rain.date_of (read_all clean)).
  assert (forall k n, In (k, n) (Rain.df_trips clean)
                      <-> In k keys /\ n = occurrences Phase3.zone_eqb k keys)
    as Htrips.
  { intros k n. unfold Rain.df_trips. rewrite sort_by_In.
    apply (group_count_spec _ zone_eqb_eq). }
  assert (forall d n r,
            In (Rain.mkMerged d n r) (Rain.df_merged prcp clean)
            <-> days_from_civil 2025 1 1 <= d <= days_from_civil 2025 12 31
                /\ In (Some d) keys
                /\ n = occurrences Phase3.zone_eqb (Some d) keys
                /\ r = prcp d) as Hrow.
  { intros d n r. unfold Rain.df_merged. rewrite in_flat_map. split.
    - intros [[k m] [Hin Hm]]. cbn [fst snd] in Hm.
      destruct k as [d'|]; [|destruct Hm].
      rewrite weather_lookup in Hm.
      destruct ((_ <=? d') && (d' <=? _)) eqn:B; [|destruct Hm].
      destruct Hm as [E|[]]. injection E as -> -> <-.
      apply andb_true_iff in B. rewrite !Z.leb_le in B.
      apply Htrips in Hin. tauto.
    - intros [Hd [Hk [-> ->]]].
      exists (Some d, occurrences Phase3.zone_eqb (Some d) keys).
      split; [apply Htrips; auto|]. cbn [fst snd].
      rewrite weather_lookup.
      replace ((days_from_civil 2025 1 1 <=? d)
               && (d <=? days_from_civil 2025 12 31)) with true.
      + left. reflexivity.
      + symmetry. apply andb_true_iff. rewrite !Z.leb_le. exact Hd. }
  assert (NoDup (map Rain.date (Rain.df_merged prcp clean))) as Hnd.
  { unfold Rain.df_merged. apply merged_NoDup. unfold Rain.df_trips.
    apply (Permutation_NoDup
             (Permutation_sym
                (Permutation_map fst (sort_by_Permutation Rain.date_le _)))).
    apply (group_count_NoDup _ zone_eqb_eq). }
  split; [|split].
  - intros d n r. rewrite Hrow. unfold occurrences, keys.
    rewrite filter_map_length. reflexivity.
  - exact Hnd.
  - rewrite <- (length_map Rain.date).
    change 365%nat with (List.length Rain.dates_2025).
    apply (NoDup_incl_length Hnd).
    intros d Hd. apply in_map_iff in Hd. destruct Hd as [[d' n r] [<- Hin]].
    apply Hrow in Hin. apply dates_2025_In. apply Hin.
Qed.
